(** * Warehouse ledger: stock-in, stock-out, overview and low-stock alerts

    A shallow embedding of [app/models.py], [app/exceptions.py] and
    [app/services/inventory_service.py].  The relational store behind the
    SQLModel session is a record of three tables (lists of rows in table
    order) with the two auto-increment counters; a service function is a
    computation in a state-and-exception monad over that store, and
    [with session.begin()] is the combinator that commits the body's writes or
    rolls them back when the body raises. *)

From Stdlib Require Import ZArith List String Ascii Bool Lia.
From Stdlib Require Import Sorting.Sorted Sorting.Permutation.
Import ListNotations.
Open Scope string_scope.
Open Scope list_scope.
Open Scope Z_scope.

(** ** Data model ([app/models.py]) *)

Inductive MovementType : Type := IN | OUT.

Definition MovementType_eqb (a b : MovementType) : bool :=
  match a, b with
  | IN, IN | OUT, OUT => true
  | _, _ => false
  end.

(** The columns of [product] that the ledger reads.  The description, the
    price and the two timestamps are never consulted by the service. *)
Module Product.
Record t : Type := mk { id : Z; name : string; sku : string }.
End Product.

(** A row of [warehouse_item]; [safety_stock] has the column default 5.  The
    wall-clock columns [created_at] and [updated_at] are left out. *)
Module WarehouseItem.
Record t : Type := mk
  { id : Z; product_id : Z; quantity : Z; location : string; safety_stock : Z }.

Definition default_safety_stock : Z := 5.

Definition with_quantity (q : Z) (it : t) : t :=
  mk (id it) (product_id it) q (location it) (safety_stock it).
End WarehouseItem.

Module Movement.
Record t : Type := mk
  { id : Z; product_id : Z; warehouse_item_id : option Z;
    movement_type : MovementType; quantity : Z; remarks : option string }.
End Movement.

(** ** Requests and results ([app/schemas.py]) *)

Module StockInRequest.
Record t : Type := mk
  { product_id : Z; quantity : Z; location : string; remarks : option string }.
End StockInRequest.

Module StockOutRequest.
Record t : Type := mk
  { product_id : Z; quantity : Z; location : option string;
    remarks : option string }.
End StockOutRequest.

Module LocationQuantity.
Record t : Type := mk { location : string; quantity : Z }.
End LocationQuantity.

(** ** Exceptions ([app/exceptions.py])

    The module declares two exception classes, each carrying a [detail]
    message.  [InvalidRequestError] stands for the error [session.refresh]
    raises when the row of the instance is gone. *)

Inductive exn : Type :=
| ProductNotFoundException (detail : string)
| InsufficientStockException (detail : string)
| InvalidRequestError.

Inductive exn_class : Type :=
| ProductNotFound_class | InsufficientStock_class | InvalidRequest_class.

Definition class_of (e : exn) : exn_class :=
  match e with
  | ProductNotFoundException _ => ProductNotFound_class
  | InsufficientStockException _ => InsufficientStock_class
  | InvalidRequestError => InvalidRequest_class
  end.

Definition product_not_found_default : string := "商品不存在".
Definition no_record_at (loc : string) : string :=
  ("商品在位置 '" ++ loc ++ "' 無庫存記錄。")%string.
Definition all_locations_empty : string := "該商品所有位置均無庫存。".
Definition location_insufficient (loc : string) : string :=
  ("位置 '" ++ loc ++ "' 的庫存不足。")%string.
Definition total_insufficient : string := "總庫存不足。".

(** ** The store and the session monad *)

Record Store : Type := mkStore
  { products : list Product.t;
    warehouse_items : list WarehouseItem.t;
    movements : list Movement.t;
    next_item_id : Z;
    next_movement_id : Z }.

Inductive outcome (A : Type) : Type :=
| Returned (a : A)
| Raised (e : exn).
Arguments Returned {A} a.
Arguments Raised {A} e.

Definition Session (A : Type) : Type := Store -> outcome A * Store.

Definition ret {A} (a : A) : Session A := fun db => (Returned a, db).

Definition bind {A B} (m : Session A) (k : A -> Session B) : Session B :=
  fun db =>
    match m db with
    | (Returned a, db') => k a db'
    | (Raised e, db') => (Raised e, db')
    end.

Definition raise {A} (e : exn) : Session A := fun db => (Raised e, db).

Notation "x <- m ;; k" := (bind m (fun x => k))
  (at level 61, m at next level, right associativity).
Notation "m ;;; k" := (bind m (fun _ => k))
  (at level 61, right associativity).

(** [with session.begin(): body]: the writes of [body] are committed when it
    returns and discarded when it raises. *)
Definition begin {A} (body : Session A) : Session A :=
  fun db =>
    match body db with
    | (Returned a, db') => (Returned a, db')
    | (Raised e, _) => (Raised e, db)
    end.

(** *** Queries *)

(** [session.get(Product, pk)] *)
Definition get_product (pk : Z) : Session (option Product.t) :=
  fun db => (Returned (find (fun p => Product.id p =? pk) (products db)), db).

(** [select(WarehouseItem).where(product_id == pid, location == loc).first()] *)
Definition item_at (pid : Z) (loc : string) (it : WarehouseItem.t) : bool :=
  (WarehouseItem.product_id it =? pid) && String.eqb (WarehouseItem.location it) loc.

Definition first_item_at (pid : Z) (loc : string) : Session (option WarehouseItem.t) :=
  fun db => (Returned (find (item_at pid loc) (warehouse_items db)), db).

(** [order_by(WarehouseItem.id)]: a stable insertion sort on the key. *)
Fixpoint insert_by_id (x : WarehouseItem.t) (l : list WarehouseItem.t)
  : list WarehouseItem.t :=
  match l with
  | [] => [x]
  | y :: l' =>
      if WarehouseItem.id x <? WarehouseItem.id y then x :: l
      else y :: insert_by_id x l'
  end.

Definition order_by_id (l : list WarehouseItem.t) : list WarehouseItem.t :=
  fold_right insert_by_id [] l.

(** [select(WarehouseItem).where(product_id == pid, quantity > 0)
      .order_by(WarehouseItem.id).all()] *)
Definition in_stock_of (pid : Z) (it : WarehouseItem.t) : bool :=
  (WarehouseItem.product_id it =? pid) && (0 <? WarehouseItem.quantity it).

Definition available_of (pid : Z) (db : Store) : list WarehouseItem.t :=
  order_by_id (filter (in_stock_of pid) (warehouse_items db)).

Definition select_available (pid : Z) : Session (list WarehouseItem.t) :=
  fun db => (Returned (available_of pid db), db).

(** *** Writes *)

(** Flushing an instance whose [quantity] was assigned:
    [UPDATE warehouse_item SET quantity = ? WHERE id = ?]. *)
Definition write_item (it : WarehouseItem.t) (rows : list WarehouseItem.t)
  : list WarehouseItem.t :=
  map (fun r => if WarehouseItem.id r =? WarehouseItem.id it
                then WarehouseItem.with_quantity (WarehouseItem.quantity it) r
                else r) rows.

Definition update_item (it : WarehouseItem.t) : Session unit :=
  fun db =>
    (Returned tt,
     mkStore (products db) (write_item it (warehouse_items db)) (movements db)
             (next_item_id db) (next_movement_id db)).

(** [WarehouseItem(product_id, quantity, location)], [session.add] and
    [session.flush]: the row receives the next primary key and the column
    default of [safety_stock]. *)
Definition insert_item (pid q : Z) (loc : string) : Session WarehouseItem.t :=
  fun db =>
    let it := WarehouseItem.mk (next_item_id db) pid q loc
                WarehouseItem.default_safety_stock in
    (Returned it,
     mkStore (products db) (warehouse_items db ++ [it]) (movements db)
             (next_item_id db + 1) (next_movement_id db)).

(** [session.add(Movement(...))] *)
Definition add_movement (pid : Z) (item_id : Z) (ty : MovementType) (q : Z)
    (rem : option string) : Session unit :=
  fun db =>
    let m := Movement.mk (next_movement_id db) pid (Some item_id) ty q rem in
    (Returned tt,
     mkStore (products db) (warehouse_items db) (movements db ++ [m])
             (next_item_id db) (next_movement_id db + 1)).

(** [session.refresh(instance)]: reload the row with the instance's key. *)
Definition refresh (it : WarehouseItem.t) : Session WarehouseItem.t :=
  fun db =>
    match find (fun r => WarehouseItem.id r =? WarehouseItem.id it)
               (warehouse_items db) with
    | Some r => (Returned r, db)
    | None => (Raised InvalidRequestError, db)
    end.

(** ** [stock_in] *)

Definition stock_in (item_request : StockInRequest.t) : Session WarehouseItem.t :=
  db_item <- begin (
    product <- get_product (StockInRequest.product_id item_request) ;;
    match product with
    | None => raise (ProductNotFoundException product_not_found_default)
    | Some _ =>
        existing_item <- first_item_at (StockInRequest.product_id item_request)
                                       (StockInRequest.location item_request) ;;
        db_item <-
          match existing_item with
          | Some existing =>
              let existing' :=
                WarehouseItem.with_quantity
                  (WarehouseItem.quantity existing
                   + StockInRequest.quantity item_request) existing in
              update_item existing' ;;; ret existing'
          | None =>
              insert_item (StockInRequest.product_id item_request)
                          (StockInRequest.quantity item_request)
                          (StockInRequest.location item_request)
          end ;;
        add_movement (WarehouseItem.product_id db_item) (WarehouseItem.id db_item)
                     IN (StockInRequest.quantity item_request)
                     (StockInRequest.remarks item_request) ;;;
        ret db_item
    end) ;;
  refresh db_item.

(** ** [stock_out] *)

(** Python truthiness of an [Optional[str]]: [None] and the empty string are
    both false. *)
Definition truthy (s : option string) : option string :=
  match s with
  | Some l => if String.eqb l "" then None else Some l
  | None => None
  end.

(** The [for item in available_items] loop, carrying [remaining_to_deduct]
    and [updated_items].  Each instance is mutated once and appended right
    after, so the list can hold the mutated values themselves. *)
Fixpoint deduct_loop (req : StockOutRequest.t) (available_items : list WarehouseItem.t)
    (remaining_to_deduct : Z) (updated_items : list WarehouseItem.t)
  : Session (list WarehouseItem.t) :=
  match available_items with
  | [] => ret updated_items
  | item :: rest =>
      if remaining_to_deduct =? 0 then ret updated_items
      else
        let deduct_amount := Z.min (WarehouseItem.quantity item) remaining_to_deduct in
        let item' :=
          WarehouseItem.with_quantity (WarehouseItem.quantity item - deduct_amount) item in
        update_item item' ;;;
        add_movement (StockOutRequest.product_id req) (WarehouseItem.id item)
                     OUT deduct_amount (StockOutRequest.remarks req) ;;;
        deduct_loop req rest (remaining_to_deduct - deduct_amount)
                    (updated_items ++ [item'])
  end.

Definition sum_quantity (l : list WarehouseItem.t) : Z :=
  fold_right (fun it acc => WarehouseItem.quantity it + acc) 0 l.

Definition stock_out_body (req : StockOutRequest.t) : Session (option WarehouseItem.t) :=
  product <- get_product (StockOutRequest.product_id req) ;;
  match product with
  | None => raise (ProductNotFoundException product_not_found_default)
  | Some _ =>
      updated_items <-
        match truthy (StockOutRequest.location req) with
        | Some loc =>
            item_to_update <- first_item_at (StockOutRequest.product_id req) loc ;;
            match item_to_update with
            | None => raise (ProductNotFoundException (no_record_at loc))
            | Some item =>
                if WarehouseItem.quantity item <? StockOutRequest.quantity req
                then raise (InsufficientStockException (location_insufficient loc))
                else
                  let item' :=
                    WarehouseItem.with_quantity
                      (WarehouseItem.quantity item - StockOutRequest.quantity req)
                      item in
                  update_item item' ;;;
                  add_movement (StockOutRequest.product_id req) (WarehouseItem.id item)
                               OUT (StockOutRequest.quantity req)
                               (StockOutRequest.remarks req) ;;;
                  ret [item']
            end
        | None =>
            available_items <- select_available (StockOutRequest.product_id req) ;;
            match available_items with
            | [] => raise (ProductNotFoundException all_locations_empty)
            | _ :: _ =>
                let total_available := sum_quantity available_items in
                if total_available <? StockOutRequest.quantity req
                then raise (InsufficientStockException total_insufficient)
                else deduct_loop req available_items (StockOutRequest.quantity req) []
            end
        end ;;
      ret (hd_error updated_items)
  end.

Definition stock_out (req : StockOutRequest.t) : Session (option WarehouseItem.t) :=
  db_item <- begin (stock_out_body req) ;;
  match db_item with
  | Some it => r <- refresh it ;; ret (Some r)
  | None => ret None
  end.

(** ** [get_inventory_overview] *)

Module InventoryQueryRead.
Record t : Type := mk
  { product_id : Z; product_name : string; sku : string;
    total_quantity : Z; locations : list LocationQuantity.t }.

Definition add_quantity (q : Z) (e : t) : t :=
  mk (product_id e) (product_name e) (sku e) (total_quantity e + q) (locations e).

Definition append_location (lq : LocationQuantity.t) (e : t) : t :=
  mk (product_id e) (product_name e) (sku e) (total_quantity e) (locations e ++ [lq]).
End InventoryQueryRead.

(** [select(WarehouseItem, Product).join(Product)]: the inner join on
    [warehouse_item.product_id = product.id], rows in item order. *)
Definition join_rows (db : Store) : list (WarehouseItem.t * Product.t) :=
  flat_map
    (fun it =>
       map (pair it)
           (filter (fun p => Product.id p =? WarehouseItem.product_id it) (products db)))
    (warehouse_items db).

(** A Python [dict] keyed by product id, as an association list in insertion
    order; a key is bound at most once. *)
Definition dict (V : Type) : Type := list (Z * V).

Definition dict_mem {V} (k : Z) (m : dict V) : bool :=
  existsb (fun kv => fst kv =? k) m.

Definition dict_update {V} (k : Z) (f : V -> V) (m : dict V) : dict V :=
  map (fun kv => if fst kv =? k then (fst kv, f (snd kv)) else kv) m.

Definition dict_values {V} (m : dict V) : list V := map snd m.

Definition location_of (it : WarehouseItem.t) : LocationQuantity.t :=
  LocationQuantity.mk (WarehouseItem.location it) (WarehouseItem.quantity it).

(** One iteration of [for item, product in results]. *)
Definition overview_step (inventory_map : dict InventoryQueryRead.t)
    (row : WarehouseItem.t * Product.t) : dict InventoryQueryRead.t :=
  let (item, product) := row in
  let m1 :=
    if dict_mem (Product.id product) inventory_map then inventory_map
    else inventory_map ++
           [(Product.id product,
             InventoryQueryRead.mk (Product.id product) (Product.name product)
                                   (Product.sku product) 0 [])] in
  let m2 :=
    dict_update (Product.id product)
      (InventoryQueryRead.add_quantity (WarehouseItem.quantity item)) m1 in
  dict_update (Product.id product)
    (InventoryQueryRead.append_location (location_of item)) m2.

(** Python's [l[start:stop]] for integer bounds of either sign. *)
Definition slice_bound (n i : Z) : Z :=
  if i <? 0 then Z.max 0 (i + n) else Z.min i n.

Definition py_slice {A} (l : list A) (start stop : Z) : list A :=
  let n := Z.of_nat (List.length l) in
  let lo := slice_bound n start in
  let hi := slice_bound n stop in
  firstn (Z.to_nat (hi - lo)) (skipn (Z.to_nat lo) l).

Section Overview.

(** The two string operations the query relies on: the store's [ILIKE]
    ([ilike value pattern]) and Python's [str.upper]. *)
Variable ilike : string -> string -> bool.
Variable upper : string -> string.

Definition name_filter (product_name : option string) (p : Product.t) : bool :=
  match truthy product_name with
  | Some n => ilike (Product.name p) ("%" ++ n ++ "%")%string
  | None => true
  end.

Definition sku_filter (sku : option string) (p : Product.t) : bool :=
  match truthy sku with
  | Some s => String.eqb (Product.sku p) (upper s)
  | None => true
  end.

Definition overview_results (db : Store) (product_name sku : option string)
  : list (WarehouseItem.t * Product.t) :=
  filter (fun row => sku_filter sku (snd row))
         (filter (fun row => name_filter product_name (snd row)) (join_rows db)).

Definition overview_map (db : Store) (product_name sku : option string)
  : dict InventoryQueryRead.t :=
  fold_left overview_step (overview_results db product_name sku) [].

Definition get_inventory_overview (db : Store) (offset limit : Z)
    (product_name sku : option string) : list InventoryQueryRead.t :=
  py_slice (dict_values (overview_map db product_name sku)) offset (offset + limit).

End Overview.

(** ** [get_low_stock_alerts] *)

Module LowStockAlert.
Record t : Type := mk
  { product_id : Z; product_name : string; sku : string;
    current_stock : Z; safety_stock : Z;
    location_details : list LocationQuantity.t }.
End LowStockAlert.

Definition sum_safety_stock (l : list WarehouseItem.t) : Z :=
  fold_right (fun it acc => WarehouseItem.safety_stock it + acc) 0 l.

(** The keys of [GROUP BY], in order of first appearance. *)
Fixpoint distinct (l : list Z) : list Z :=
  match l with
  | [] => []
  | x :: l' => x :: filter (fun y => negb (y =? x)) (distinct l')
  end.

Definition group_of (k : Z) (rows : list (WarehouseItem.t * Product.t))
  : list (WarehouseItem.t * Product.t) :=
  filter (fun row => Product.id (snd row) =? k) rows.

(** [select(Product.id, Product.name, Product.sku, sum(quantity), sum(safety_stock))
      .join(WarehouseItem).group_by(Product.id)
      .having(sum(quantity) < sum(safety_stock))] *)
Definition low_stock_products (db : Store) : list (Z * string * string * Z * Z) :=
  let rows := join_rows db in
  flat_map
    (fun k =>
       match group_of k rows with
       | [] => []
       | ((_, p) :: _) as g =>
           let total_quantity := sum_quantity (map fst g) in
           let total_safety_stock := sum_safety_stock (map fst g) in
           if total_quantity <? total_safety_stock
           then [(k, Product.name p, Product.sku p, total_quantity, total_safety_stock)]
           else []
       end)
    (distinct (map (fun row => Product.id (snd row)) rows)).

Definition items_of (pid : Z) (rows : list WarehouseItem.t) : list WarehouseItem.t :=
  filter (fun it => WarehouseItem.product_id it =? pid) rows.

Definition get_low_stock_alerts (db : Store) : list LowStockAlert.t :=
  map
    (fun row =>
       match row with
       | (product_id, product_name, sku, current_stock, safety_stock) =>
           let location_items := items_of product_id (warehouse_items db) in
           LowStockAlert.mk product_id product_name sku current_stock safety_stock
                            (map location_of location_items)
       end)
    (low_stock_products db).

(** ** Ledger quantities used by the statements *)

(** Primary keys: the ids of [warehouse_item] are pairwise distinct and below
    the auto-increment counter; the ids of [product] are pairwise distinct. *)
Definition item_ids (db : Store) : list Z := map WarehouseItem.id (warehouse_items db).

Definition item_keys (db : Store) : Prop :=
  NoDup (item_ids db) /\
  Forall (fun it => WarehouseItem.id it < next_item_id db) (warehouse_items db).

Definition product_keys (db : Store) : Prop :=
  NoDup (map Product.id (products db)).

(** Sum of the quantities of the movements of one product in one direction. *)
Definition moved (ty : MovementType) (pid : Z) (ms : list Movement.t) : Z :=
  fold_right
    (fun m acc =>
       if (Movement.product_id m =? pid) && MovementType_eqb (Movement.movement_type m) ty
       then Movement.quantity m + acc else acc)
    0 ms.

Definition stock_of (pid : Z) (rows : list WarehouseItem.t) : Z :=
  sum_quantity (items_of pid rows).

Definition conserved (db : Store) : Prop :=
  forall pid,
    moved IN pid (movements db) - moved OUT pid (movements db)
    = stock_of pid (warehouse_items db).

Definition non_negative (db : Store) : Prop :=
  Forall (fun it => 0 <= WarehouseItem.quantity it) (warehouse_items db).

Inductive operation : Type :=
| StockIn (r : StockInRequest.t)
| StockOut (r : StockOutRequest.t).

(** The store an operation leaves behind, whether it returned or raised. *)
Definition perform (db : Store) (op : operation) : Store :=
  match op with
  | StockIn r => snd (stock_in r db)
  | StockOut r => snd (stock_out r db)
  end.

Definition perform_all (ops : list operation) (db : Store) : Store :=
  fold_left perform ops db.

(** *** Allocation, following the specification's words

    Walk the ordered records, deducting [min(record.quantity, remaining)] from
    each in turn until [remaining] reaches zero; each touched record is paired
    with the amount deducted from it. *)
Fixpoint allocation (records : list WarehouseItem.t) (remaining : Z)
  : list (WarehouseItem.t * Z) :=
  match records with
  | [] => []
  | r :: rest =>
      if remaining =? 0 then []
      else
        let d := Z.min (WarehouseItem.quantity r) remaining in
        (r, d) :: allocation rest (remaining - d)
  end.

(** The amount an allocation takes from the record with key [pk]. *)
Definition deduction_for (pk : Z) (alloc : list (WarehouseItem.t * Z)) : Z :=
  match find (fun rd => WarehouseItem.id (fst rd) =? pk) alloc with
  | Some (_, d) => d
  | None => 0
  end.

Definition after_allocation (alloc : list (WarehouseItem.t * Z))
    (rows : list WarehouseItem.t) : list WarehouseItem.t :=
  map (fun r =>
         WarehouseItem.with_quantity
           (WarehouseItem.quantity r - deduction_for (WarehouseItem.id r) alloc) r)
      rows.

(** One [OUT] movement per touched record, numbered from [next]. *)
Fixpoint out_movements (pid : Z) (rem : option string) (next : Z)
    (alloc : list (WarehouseItem.t * Z)) : list Movement.t :=
  match alloc with
  | [] => []
  | (r, d) :: rest =>
      Movement.mk next pid (Some (WarehouseItem.id r)) OUT d rem
      :: out_movements pid rem (next + 1) rest
  end.

Definition sum_location_quantity (l : list LocationQuantity.t) : Z :=
  fold_right (fun lq acc => LocationQuantity.quantity lq + acc) 0 l.

(** A product id resolves when [product] has a row with that key. *)
Definition resolves (db : Store) (pid : Z) : Prop :=
  exists p, In p (products db) /\ Product.id p = pid.

(** The movement [stock_in] records for the record with key [rid]. *)
Definition in_movement (db : Store) (req : StockInRequest.t) (rid : Z) : Movement.t :=
  Movement.mk (next_movement_id db) (StockInRequest.product_id req) (Some rid) IN
              (StockInRequest.quantity req) (StockInRequest.remarks req).

(** The movement a targeted [stock_out] records for the record with key [rid]. *)
Definition out_movement (db : Store) (req : StockOutRequest.t) (rid : Z) : Movement.t :=
  Movement.mk (next_movement_id db) (StockOutRequest.product_id req) (Some rid) OUT
              (StockOutRequest.quantity req) (StockOutRequest.remarks req).

(** ** Vocabulary of the statements *)

(** Ascending order of record ids. *)
Definition id_le (a b : WarehouseItem.t) : Prop :=
  WarehouseItem.id a <= WarehouseItem.id b.

(** A touched record after its deduction. *)
Definition touched (rd : WarehouseItem.t * Z) : WarehouseItem.t :=
  WarehouseItem.with_quantity (WarehouseItem.quantity (fst rd) - snd rd) (fst rd).

(** The rows after writing the touched records one by one, as the loop does. *)
Definition write_all (alloc : list (WarehouseItem.t * Z)) (rows : list WarehouseItem.t)
  : list WarehouseItem.t :=
  fold_left (fun acc rd => write_item (touched rd) acc) alloc rows.

Definition total_deducted (alloc : list (WarehouseItem.t * Z)) : Z :=
  fold_right (fun rd acc => snd rd + acc) 0 alloc.

(** The records an untargeted request touches, each with its deduction. *)
Definition plan (db : Store) (req : StockOutRequest.t) : list (WarehouseItem.t * Z) :=
  allocation (available_of (StockOutRequest.product_id req) db)
             (StockOutRequest.quantity req).

(** The schemas admit only positive quantities ([conint(gt=0)]). *)
Definition valid_request (op : operation) : Prop :=
  match op with
  | StockIn r => 0 < StockInRequest.quantity r
  | StockOut r => 0 < StockOutRequest.quantity r
  end.

(** The invariant of the ledger: keys are sound and stock is conserved. *)
Definition ledger_ok (db : Store) : Prop := item_keys db /\ conserved db.

(** The grouped result set of the overview, before pagination. *)
Definition overview_all (ilike : string -> string -> bool) (upper : string -> string)
    (db : Store) (product_name sku : option string) : list InventoryQueryRead.t :=
  dict_values (overview_map ilike upper db product_name sku).

Definition row_key (row : WarehouseItem.t * Product.t) : Z := Product.id (snd row).

(** What the entry under key [k] holds once the rows [rows] are processed. *)
Definition entry_for (rows : list (WarehouseItem.t * Product.t)) (k : Z)
    (e : InventoryQueryRead.t) : Prop :=
  InventoryQueryRead.product_id e = k /\
  group_of k rows <> [] /\
  InventoryQueryRead.total_quantity e = sum_quantity (map fst (group_of k rows)) /\
  InventoryQueryRead.locations e = map location_of (map fst (group_of k rows)).

(** The invariant of the grouping loop after the rows [rows]. *)
Definition map_ok (rows : list (WarehouseItem.t * Product.t))
    (m : dict InventoryQueryRead.t) : Prop :=
  NoDup (map fst m) /\
  (forall k e, In (k, e) m -> entry_for rows k e) /\
  (forall row, In row rows -> In (row_key row) (map fst m)).

(** ** Reference string operations for the examples (ASCII only) *)

Definition ascii_upper_char (c : ascii) : ascii :=
  let n := nat_of_ascii c in
  if ((97 <=? n) && (n <=? 122))%nat then ascii_of_nat (n - 32) else c.

Fixpoint ascii_upper (s : string) : string :=
  match s with
  | EmptyString => EmptyString
  | String c s' => String (ascii_upper_char c) (ascii_upper s')
  end.

(** SQL [LIKE]: [%] matches any run of characters and [_] any one. *)
Fixpoint like (pattern s : string) : bool :=
  match pattern with
  | EmptyString => match s with EmptyString => true | String _ _ => false end
  | String c pattern' =>
      if Ascii.eqb c "%" then
        (fix skip (s : string) : bool :=
           like pattern' s
           || match s with EmptyString => false | String _ s' => skip s' end) s
      else
        match s with
        | EmptyString => false
        | String d s' => (Ascii.eqb c "_" || Ascii.eqb c d) && like pattern' s'
        end
  end.

Definition ascii_ilike (value pattern : string) : bool :=
  like (ascii_upper pattern) (ascii_upper value).

(** ** Example stores *)

Definition widget : Product.t := Product.mk 1 "Widget" "WID-1".

Definition gadget : Product.t := Product.mk 2 "Gadget" "GAD-2".

(** One product and nothing on the shelves. *)
Definition empty_shelves : Store := mkStore [widget] [] [] 1 1.

(** R1(qty=5) at A1 then R2(qty=5) at B2, both for the same product, each
    created by a stock-in. *)
Definition two_shelves : Store :=
  mkStore [widget]
          [WarehouseItem.mk 1 1 5 "A1" 5; WarehouseItem.mk 2 1 5 "B2" 5]
          [Movement.mk 1 1 (Some 1) IN 5 None; Movement.mk 2 1 (Some 2) IN 5 None]
          3 3.

(** One unit below the threshold: 5 + 4 against 5 + 5. *)
Definition one_below : Store :=
  mkStore [widget]
          [WarehouseItem.mk 1 1 5 "A1" 5; WarehouseItem.mk 2 1 4 "B2" 5]
          [Movement.mk 1 1 (Some 1) IN 5 None; Movement.mk 2 1 (Some 2) IN 4 None]
          3 3.

(** A record holding 50 at B2. *)
Definition fifty_at_b2 : Store :=
  mkStore [widget] [WarehouseItem.mk 1 1 50 "B2" 5]
          [Movement.mk 1 1 (Some 1) IN 50 None] 2 2.

(** Two products; the first has two locations, the second one. *)
Definition two_products : Store :=
  mkStore [widget; gadget]
          [WarehouseItem.mk 1 1 5 "A1" 5; WarehouseItem.mk 2 2 3 "B1" 5;
           WarehouseItem.mk 3 1 2 "C1" 5]
          [Movement.mk 1 1 (Some 1) IN 5 None; Movement.mk 2 2 (Some 2) IN 3 None;
           Movement.mk 3 1 (Some 3) IN 2 None]
          4 4.

(** ** Further ledger vocabulary *)

(** Whether a movement is linked to the record with key [rid]. *)
Definition linked_to (rid : Z) (m : Movement.t) : bool :=
  match Movement.warehouse_item_id m with
  | Some i => i =? rid
  | None => false
  end.

(** Sum of the quantities of the movements of one record in one direction. *)
Definition moved_at (ty : MovementType) (rid : Z) (ms : list Movement.t) : Z :=
  fold_right
    (fun m acc =>
       if linked_to rid m && MovementType_eqb (Movement.movement_type m) ty
       then Movement.quantity m + acc else acc)
    0 ms.

(** Replaying the movements of a record from zero gives its quantity. *)
Definition replayed (db : Store) : Prop :=
  forall r, In r (warehouse_items db) ->
    moved_at IN (WarehouseItem.id r) (movements db)
    - moved_at OUT (WarehouseItem.id r) (movements db)
    = WarehouseItem.quantity r.

(** Every movement is linked to a record of the store, of the same product. *)
Definition linked (db : Store) : Prop :=
  forall m, In m (movements db) ->
    exists r, In r (warehouse_items db)
              /\ Movement.warehouse_item_id m = Some (WarehouseItem.id r)
              /\ Movement.product_id m = WarehouseItem.product_id r.

(** Every record belongs to a product of the store. *)
Definition records_resolve (db : Store) : Prop :=
  forall r, In r (warehouse_items db) -> resolves db (WarehouseItem.product_id r).

(** At most one record per (product, location). *)
Definition place (r : WarehouseItem.t) : Z * string :=
  (WarehouseItem.product_id r, WarehouseItem.location r).

Definition location_keys (db : Store) : Prop :=
  NoDup (map place (warehouse_items db)).

Definition ledger_sound (db : Store) : Prop :=
  item_keys db /\ linked db /\ replayed db.

(** The direction and the product of the movements an operation records. *)
Definition direction (op : operation) : MovementType :=
  match op with StockIn _ => IN | StockOut _ => OUT end.

Definition product_of (op : operation) : Z :=
  match op with
  | StockIn r => StockInRequest.product_id r
  | StockOut r => StockOutRequest.product_id r
  end.

(** The key and the product of each record, in table order. *)
Definition record_keys (rows : list WarehouseItem.t) : list (Z * Z) :=
  map (fun r => (WarehouseItem.id r, WarehouseItem.product_id r)) rows.

Definition has_record (rows : list WarehouseItem.t) (m : Movement.t) : Prop :=
  exists r, In r rows
            /\ Movement.warehouse_item_id m = Some (WarehouseItem.id r)
            /\ Movement.product_id m = WarehouseItem.product_id r.

(** The quantity an operation asks for, and whether it returns. *)
Definition quantity_of (op : operation) : Z :=
  match op with
  | StockIn r => StockInRequest.quantity r
  | StockOut r => StockOutRequest.quantity r
  end.

Definition returns (db : Store) (op : operation) : Prop :=
  match op with
  | StockIn r => exists it, fst (stock_in r db) = Returned it
  | StockOut r => exists it, fst (stock_out r db) = Returned it
  end.

(** The columns of a stock record that the model carries.  The timestamps
    [created_at] and [updated_at] are not among them. *)
Definition stock_columns (r : WarehouseItem.t) : Z * Z * Z * string * Z :=
  (WarehouseItem.id r, WarehouseItem.product_id r, WarehouseItem.quantity r,
   WarehouseItem.location r, WarehouseItem.safety_stock r).

(** ** Deleting a product ([app/api/v1/endpoints/products.py]) *)

(** [session.delete(product)] with the cascades declared on the
    relationships of [app/models.py]: the product's stock records
    ([Product.warehouse_items]) and movements ([Product.movements]) go with
    it, and so do the movements of each deleted record
    ([WarehouseItem.movements]). *)
Definition linked_to_any (rids : list Z) (m : Movement.t) : bool :=
  existsb (fun rid => linked_to rid m) rids.

Definition delete_product_row (pk : Z) : Session unit :=
  fun db =>
    let gone := filter (fun it => WarehouseItem.product_id it =? pk) (warehouse_items db) in
    (Returned tt,
     mkStore (filter (fun p => negb (Product.id p =? pk)) (products db))
             (filter (fun it => negb (WarehouseItem.product_id it =? pk))
                     (warehouse_items db))
             (filter (fun m => negb ((Movement.product_id m =? pk)
                                     || linked_to_any (map WarehouseItem.id gone) m))
                     (movements db))
             (next_item_id db) (next_movement_id db)).

(** [delete_product] of [products.py]. *)
Definition delete_product (product_id : Z) : Session unit :=
  begin (
    product <- get_product product_id ;;
    match product with
    | None => raise (ProductNotFoundException product_not_found_default)
    | Some p => delete_product_row (Product.id p)
    end).

(** * Proofs *)

(** ** The model on the scenarios of the specification *)

Example two_shelves_by_stock_in :
  perform_all [StockIn (StockInRequest.mk 1 5 "A1" None);
               StockIn (StockInRequest.mk 1 5 "B2" None)] empty_shelves
  = two_shelves.
Proof. reflexivity. Qed.

Example targeted_insufficient_stock :
  stock_out (StockOutRequest.mk 1 100 (Some "B2") None) fifty_at_b2
  = (Raised (InsufficientStockException (location_insufficient "B2")), fifty_at_b2).
Proof. reflexivity. Qed.

Example untargeted_insufficient_stock :
  stock_out (StockOutRequest.mk 1 100 None (Some "test")) fifty_at_b2
  = (Raised (InsufficientStockException total_insufficient), fifty_at_b2).
Proof. reflexivity. Qed.

Example unknown_product :
  stock_in (StockInRequest.mk 9 1 "A1" None) two_shelves
  = (Raised (ProductNotFoundException product_not_found_default), two_shelves).
Proof. reflexivity. Qed.

Example low_stock_one_below :
  get_low_stock_alerts one_below
  = [LowStockAlert.mk 1 "Widget" "WID-1" 9 10
       [LocationQuantity.mk "A1" 5; LocationQuantity.mk "B2" 4]].
Proof. reflexivity. Qed.

Example low_stock_at_threshold : get_low_stock_alerts two_shelves = [].
Proof. reflexivity. Qed.

Example overview_two_products :
  get_inventory_overview ascii_ilike ascii_upper two_products 0 100 None None
  = [InventoryQueryRead.mk 1 "Widget" "WID-1" 7
       [LocationQuantity.mk "A1" 5; LocationQuantity.mk "C1" 2];
     InventoryQueryRead.mk 2 "Gadget" "GAD-2" 3 [LocationQuantity.mk "B1" 3]].
Proof. reflexivity. Qed.

Example overview_filtered_by_sku :
  get_inventory_overview ascii_ilike ascii_upper two_products 0 100 None (Some "gad-2")
  = [InventoryQueryRead.mk 2 "Gadget" "GAD-2" 3 [LocationQuantity.mk "B1" 3]].
Proof. reflexivity. Qed.

Example python_slices :
  py_slice [1; 2; 3] 0 (-1) = [1; 2] /\ py_slice [1; 2; 3] (-2) 3 = [2; 3]
  /\ py_slice [1; 2; 3] (-1) 0 = [] /\ py_slice [1; 2; 3] 1 100 = [2; 3]
  /\ py_slice [1; 2; 3] 5 7 = [].
Proof. repeat split. Qed.

(** ** Lists and keys *)

Lemma find_split {A} (f : A -> bool) (l : list A) (x : A) :
  find f l = Some x ->
  exists l1 l2, l = l1 ++ x :: l2 /\ f x = true /\ forall y, In y l1 -> f y = false.
Proof.
  induction l as [|a l IH]; simpl; [discriminate|].
  destruct (f a) eqn:Fa; intros H.
  - inversion H; subst. exists [], l. repeat split; auto. intros y [].
  - destruct (IH H) as (l1 & l2 & -> & Fx & Hl1).
    exists (a :: l1), l2. repeat split; auto.
    intros y [<-|Hy]; auto.
Qed.

Lemma find_product_none (db : Store) (pid : Z) :
  find (fun p => Product.id p =? pid) (products db) = None <-> ~ resolves db pid.
Proof.
  split.
  - intros H (p & Hin & Hp).
    apply (find_none _ _ H) in Hin. apply Z.eqb_neq in Hin. contradiction.
  - intros H. destruct (find _ _) as [p|] eqn:F; auto.
    exfalso. apply H. apply find_some in F. destruct F as [Hin Hp].
    exists p. split; auto. now apply Z.eqb_eq.
Qed.

Lemma find_product_some (db : Store) (pid : Z) :
  resolves db pid -> exists p, find (fun p => Product.id p =? pid) (products db) = Some p.
Proof.
  intros H. destruct (find _ _) as [p|] eqn:F; eauto.
  apply find_product_none in F. contradiction.
Qed.

Lemma item_at_true (pid : Z) (loc : string) (it : WarehouseItem.t) :
  item_at pid loc it = true <->
  WarehouseItem.product_id it = pid /\ WarehouseItem.location it = loc.
Proof.
  unfold item_at. rewrite andb_true_iff, Z.eqb_eq, String.eqb_eq. tauto.
Qed.

Lemma write_item_absent (it : WarehouseItem.t) (rows : list WarehouseItem.t) :
  ~ In (WarehouseItem.id it) (map WarehouseItem.id rows) -> write_item it rows = rows.
Proof.
  induction rows as [|r rows IH]; simpl; intros H; auto.
  destruct (Z.eqb_spec (WarehouseItem.id r) (WarehouseItem.id it)) as [E|E].
  - exfalso. apply H. now left.
  - rewrite IH; auto.
Qed.

Lemma NoDup_ids_split (l1 l2 : list WarehouseItem.t) (r : WarehouseItem.t) :
  NoDup (map WarehouseItem.id (l1 ++ r :: l2)) ->
  ~ In (WarehouseItem.id r) (map WarehouseItem.id l1) /\
  ~ In (WarehouseItem.id r) (map WarehouseItem.id l2).
Proof.
  rewrite map_app. simpl. intros H.
  apply NoDup_remove_2 in H. rewrite in_app_iff in H. tauto.
Qed.

Lemma write_item_app (it : WarehouseItem.t) (l1 l2 : list WarehouseItem.t) :
  write_item it (l1 ++ l2) = write_item it l1 ++ write_item it l2.
Proof. apply map_app. Qed.

Lemma write_item_cons (it r : WarehouseItem.t) (l : list WarehouseItem.t) :
  write_item it (r :: l)
  = (if WarehouseItem.id r =? WarehouseItem.id it
     then WarehouseItem.with_quantity (WarehouseItem.quantity it) r else r)
    :: write_item it l.
Proof. reflexivity. Qed.

Lemma write_item_split (it r : WarehouseItem.t) (l1 l2 : list WarehouseItem.t) :
  NoDup (map WarehouseItem.id (l1 ++ r :: l2)) ->
  WarehouseItem.id it = WarehouseItem.id r ->
  write_item it (l1 ++ r :: l2)
  = l1 ++ WarehouseItem.with_quantity (WarehouseItem.quantity it) r :: l2.
Proof.
  intros ND E. apply NoDup_ids_split in ND. destruct ND as [N1 N2].
  rewrite <- E in N1, N2.
  rewrite write_item_app, write_item_cons, E, Z.eqb_refl.
  now rewrite !write_item_absent.
Qed.

Lemma find_by_id_split (pk : Z) (r : WarehouseItem.t) (l1 l2 : list WarehouseItem.t) :
  ~ In pk (map WarehouseItem.id l1) -> WarehouseItem.id r = pk ->
  find (fun x => WarehouseItem.id x =? pk) (l1 ++ r :: l2) = Some r.
Proof.
  intros N E. induction l1 as [|a l1 IH]; simpl.
  - now rewrite E, Z.eqb_refl.
  - destruct (Z.eqb_spec (WarehouseItem.id a) pk) as [Ea|Ea].
    + exfalso. apply N. now left.
    + apply IH. intros H. apply N. now right.
Qed.

Lemma find_by_id_fresh (pk : Z) (r : WarehouseItem.t) (l : list WarehouseItem.t) :
  ~ In pk (map WarehouseItem.id l) -> WarehouseItem.id r = pk ->
  find (fun x => WarehouseItem.id x =? pk) (l ++ [r]) = Some r.
Proof. intros. now apply find_by_id_split. Qed.

Lemma ids_below_fresh (n : Z) (l : list WarehouseItem.t) :
  Forall (fun it => WarehouseItem.id it < n) l -> ~ In n (map WarehouseItem.id l).
Proof.
  intros F H. apply in_map_iff in H. destruct H as (x & E & Hin).
  rewrite Forall_forall in F. specialize (F x Hin). lia.
Qed.

(** ** Running [stock_in] *)

Lemma stock_in_unresolved (db : Store) (req : StockInRequest.t) :
  ~ resolves db (StockInRequest.product_id req) ->
  stock_in req db = (Raised (ProductNotFoundException product_not_found_default), db).
Proof.
  intros H. apply find_product_none in H.
  unfold stock_in, begin, bind, get_product. now rewrite H.
Qed.

Lemma stock_in_existing (db : Store) (req : StockInRequest.t) (r : WarehouseItem.t) :
  item_keys db ->
  resolves db (StockInRequest.product_id req) ->
  find (item_at (StockInRequest.product_id req) (StockInRequest.location req))
       (warehouse_items db) = Some r ->
  exists l1 l2,
    warehouse_items db = l1 ++ r :: l2 /\
    stock_in req db
    = (Returned (WarehouseItem.with_quantity
                   (WarehouseItem.quantity r + StockInRequest.quantity req) r),
       mkStore (products db)
               (l1 ++ WarehouseItem.with_quantity
                        (WarehouseItem.quantity r + StockInRequest.quantity req) r :: l2)
               (movements db ++ [in_movement db req (WarehouseItem.id r)])
               (next_item_id db) (next_movement_id db + 1)).
Proof.
  intros [ND _] Hp Hr.
  destruct (find_product_some _ _ Hp) as [p Fp].
  destruct (find_split _ _ _ Hr) as (l1 & l2 & E & Hat & _).
  exists l1, l2. split; auto.
  unfold item_ids in ND. rewrite E in ND.
  unfold stock_in, begin, bind, get_product, first_item_at, update_item,
    add_movement, ret, refresh.
  rewrite Fp, Hr. cbn [warehouse_items products movements next_item_id next_movement_id].
  rewrite E, write_item_split by auto.
  cbn [WarehouseItem.with_quantity WarehouseItem.id WarehouseItem.quantity
       WarehouseItem.product_id].
  rewrite find_by_id_split; auto.
  - apply item_at_true in Hat. destruct Hat as [Hpid _].
    unfold in_movement. now rewrite Hpid.
  - apply NoDup_ids_split in ND. tauto.
Qed.

Lemma stock_in_new (db : Store) (req : StockInRequest.t) :
  item_keys db ->
  resolves db (StockInRequest.product_id req) ->
  find (item_at (StockInRequest.product_id req) (StockInRequest.location req))
       (warehouse_items db) = None ->
  stock_in req db
  = (Returned (WarehouseItem.mk (next_item_id db) (StockInRequest.product_id req)
                 (StockInRequest.quantity req) (StockInRequest.location req) 5),
     mkStore (products db)
             (warehouse_items db ++
                [WarehouseItem.mk (next_item_id db) (StockInRequest.product_id req)
                   (StockInRequest.quantity req) (StockInRequest.location req) 5])
             (movements db ++ [in_movement db req (next_item_id db)])
             (next_item_id db + 1) (next_movement_id db + 1)).
Proof.
  intros [_ Hlt] Hp Hr.
  destruct (find_product_some _ _ Hp) as [p Fp].
  unfold stock_in, begin, bind, get_product, first_item_at, insert_item,
    add_movement, ret, refresh.
  rewrite Fp, Hr. cbn [warehouse_items products movements next_item_id next_movement_id].
  cbn [WarehouseItem.id WarehouseItem.product_id].
  rewrite find_by_id_fresh; auto.
  now apply ids_below_fresh.
Qed.

(** ** [order_by] and the available records *)

Lemma insert_by_id_perm (x : WarehouseItem.t) (l : list WarehouseItem.t) :
  Permutation (insert_by_id x l) (x :: l).
Proof.
  induction l as [|y l IH]; simpl; auto.
  destruct (WarehouseItem.id x <? WarehouseItem.id y); auto.
  rewrite IH. apply perm_swap.
Qed.

Lemma order_by_id_perm (l : list WarehouseItem.t) : Permutation (order_by_id l) l.
Proof.
  induction l as [|x l IH]; simpl; auto.
  rewrite insert_by_id_perm. now constructor.
Qed.

Lemma insert_by_id_sorted (x : WarehouseItem.t) (l : list WarehouseItem.t) :
  Sorted id_le l -> Sorted id_le (insert_by_id x l).
Proof.
  induction 1 as [|y l S IH Hd]; simpl.
  - repeat constructor.
  - destruct (Z.ltb_spec (WarehouseItem.id x) (WarehouseItem.id y)) as [L|L].
    + constructor; [now constructor|]. constructor. unfold id_le. lia.
    + constructor; auto.
      destruct l as [|z l]; simpl.
      * constructor. exact L.
      * simpl in IH.
        destruct (WarehouseItem.id x <? WarehouseItem.id z).
        -- constructor. exact L.
        -- constructor. now inversion Hd.
Qed.

Lemma order_by_id_sorted (l : list WarehouseItem.t) : Sorted id_le (order_by_id l).
Proof.
  induction l as [|x l IH]; simpl; [constructor|].
  now apply insert_by_id_sorted.
Qed.

Lemma available_in (pid : Z) (db : Store) (r : WarehouseItem.t) :
  In r (available_of pid db) <->
  In r (warehouse_items db) /\ WarehouseItem.product_id r = pid
  /\ 0 < WarehouseItem.quantity r.
Proof.
  unfold available_of.
  split.
  - intros H. apply (Permutation_in _ (order_by_id_perm _)) in H.
    apply filter_In in H. destruct H as [Hin Hf].
    unfold in_stock_of in Hf. apply andb_true_iff in Hf.
    rewrite Z.eqb_eq, Z.ltb_lt in Hf. tauto.
  - intros (Hin & Hp & Hq).
    apply (Permutation_in _ (Permutation_sym (order_by_id_perm _))).
    apply filter_In. split; auto.
    unfold in_stock_of. apply andb_true_iff.
    rewrite Z.eqb_eq, Z.ltb_lt. tauto.
Qed.

Lemma NoDup_ids_filter (f : WarehouseItem.t -> bool) (l : list WarehouseItem.t) :
  NoDup (map WarehouseItem.id l) -> NoDup (map WarehouseItem.id (filter f l)).
Proof.
  induction l as [|x l IH]; simpl; auto.
  intros H. inversion H as [|? ? Hx Hl]; subst.
  destruct (f x); simpl; auto.
  constructor; auto.
  intros Hc. apply Hx. apply in_map_iff in Hc. destruct Hc as (y & E & Hy).
  apply filter_In in Hy. apply in_map_iff. exists y. tauto.
Qed.

Lemma available_NoDup (pid : Z) (db : Store) :
  NoDup (item_ids db) -> NoDup (map WarehouseItem.id (available_of pid db)).
Proof.
  intros H. unfold available_of.
  eapply Permutation_NoDup.
  - apply Permutation_map. apply Permutation_sym. apply order_by_id_perm.
  - now apply NoDup_ids_filter.
Qed.

(** ** The allocation *)

Lemma allocation_in (records : list WarehouseItem.t) (remaining : Z)
    (r : WarehouseItem.t) (d : Z) :
  In (r, d) (allocation records remaining) -> In r records.
Proof.
  revert remaining. induction records as [|x records IH]; simpl; intros rem H; auto.
  destruct (rem =? 0); simpl in H; [contradiction|].
  destruct H as [H|H].
  - left. congruence.
  - right. eauto.
Qed.

Lemma allocation_ids_NoDup (records : list WarehouseItem.t) (remaining : Z) :
  NoDup (map WarehouseItem.id records) ->
  NoDup (map (fun rd => WarehouseItem.id (fst rd)) (allocation records remaining)).
Proof.
  revert remaining. induction records as [|x records IH]; simpl; intros rem H.
  - constructor.
  - destruct (rem =? 0); simpl; [constructor|].
    inversion H as [|? ? Hx Hl]; subst.
    constructor; auto.
    intros Hc. apply Hx. apply in_map_iff in Hc. destruct Hc as ([y d] & E & Hy).
    simpl in E. apply allocation_in in Hy. apply in_map_iff. exists y. tauto.
Qed.

Lemma deduct_loop_run (req : StockOutRequest.t) (available_items : list WarehouseItem.t) :
  forall (remaining : Z) (updated : list WarehouseItem.t) (db : Store),
    deduct_loop req available_items remaining updated db
    = (Returned (updated ++ map touched (allocation available_items remaining)),
       mkStore (products db)
               (write_all (allocation available_items remaining) (warehouse_items db))
               (movements db ++
                  out_movements (StockOutRequest.product_id req)
                    (StockOutRequest.remarks req) (next_movement_id db)
                    (allocation available_items remaining))
               (next_item_id db)
               (next_movement_id db
                + Z.of_nat (List.length (allocation available_items remaining)))).
Proof.
  induction available_items as [|item rest IH]; intros remaining updated db.
  - simpl. unfold ret. rewrite !app_nil_r, Z.add_0_r. now destruct db.
  - simpl. destruct (remaining =? 0).
    + unfold ret. simpl. rewrite !app_nil_r, Z.add_0_r. now destruct db.
    + unfold bind, update_item, add_movement. rewrite IH.
      cbn [products warehouse_items movements next_item_id next_movement_id].
      cbn [map List.length out_movements write_all fold_left].
      rewrite <- !app_assoc. cbn [app].
      do 2 f_equal. lia.
Qed.

Lemma write_item_ids (it : WarehouseItem.t) (rows : list WarehouseItem.t) :
  map WarehouseItem.id (write_item it rows) = map WarehouseItem.id rows.
Proof.
  unfold write_item. rewrite map_map. apply map_ext. intros r.
  now destruct (WarehouseItem.id r =? WarehouseItem.id it).
Qed.

Lemma same_id_same_row (rows : list WarehouseItem.t) (a b : WarehouseItem.t) :
  NoDup (map WarehouseItem.id rows) -> In a rows -> In b rows ->
  WarehouseItem.id a = WarehouseItem.id b -> a = b.
Proof.
  induction rows as [|x rows IH]; simpl; intros ND Ha Hb E; [contradiction|].
  inversion ND as [|? ? Hx Hl]; subst.
  destruct Ha as [<-|Ha], Hb as [<-|Hb]; auto.
  - exfalso. apply Hx. rewrite E. now apply in_map.
  - exfalso. apply Hx. rewrite <- E. now apply in_map.
Qed.

Lemma deduction_for_absent (pk : Z) (alloc : list (WarehouseItem.t * Z)) :
  ~ In pk (map (fun rd => WarehouseItem.id (fst rd)) alloc) -> deduction_for pk alloc = 0.
Proof.
  unfold deduction_for. intros H.
  destruct (find _ alloc) as [[r d]|] eqn:F; auto.
  exfalso. apply H. apply find_some in F. destruct F as [Hin E].
  simpl in E. apply Z.eqb_eq in E. apply in_map_iff. exists (r, d). auto.
Qed.

Lemma deduction_for_cons (pk : Z) (r : WarehouseItem.t) (d : Z)
    (alloc : list (WarehouseItem.t * Z)) :
  deduction_for pk ((r, d) :: alloc)
  = if WarehouseItem.id r =? pk then d else deduction_for pk alloc.
Proof.
  unfold deduction_for. simpl. now destruct (WarehouseItem.id r =? pk).
Qed.

Lemma with_quantity_same (r : WarehouseItem.t) :
  WarehouseItem.with_quantity (WarehouseItem.quantity r) r = r.
Proof. now destruct r. Qed.

Lemma after_allocation_nil (rows : list WarehouseItem.t) : after_allocation [] rows = rows.
Proof.
  unfold after_allocation. rewrite <- (map_id rows) at 2. apply map_ext.
  intros r. unfold deduction_for. simpl. rewrite Z.sub_0_r. apply with_quantity_same.
Qed.

(** Writing the touched records one after the other amounts to reducing every
    row by the deduction recorded for its key. *)
Lemma write_all_after_allocation (alloc : list (WarehouseItem.t * Z)) :
  forall rows : list WarehouseItem.t,
    NoDup (map WarehouseItem.id rows) ->
    NoDup (map (fun rd => WarehouseItem.id (fst rd)) alloc) ->
    (forall r d, In (r, d) alloc -> In r rows) ->
    write_all alloc rows = after_allocation alloc rows.
Proof.
  induction alloc as [|[r d] alloc IH]; intros rows ND NDa Hin.
  - simpl. now rewrite after_allocation_nil.
  - simpl in NDa. inversion NDa as [|? ? Hr Ha]; subst.
    assert (Hrin : In r rows) by (apply (Hin r d); now left).
    cbn [write_all fold_left]. fold (write_all alloc (write_item (touched (r, d)) rows)).
    rewrite IH; auto.
    + unfold after_allocation, write_item. rewrite map_map.
      apply map_ext_in. intros x Hx.
      rewrite deduction_for_cons. cbn [touched fst snd WarehouseItem.with_quantity
        WarehouseItem.id WarehouseItem.quantity].
      destruct (Z.eqb_spec (WarehouseItem.id x) (WarehouseItem.id r)) as [E|E].
      * assert (x = r) by (eapply same_id_same_row; eauto). subst x.
        rewrite Z.eqb_refl.
        cbn [WarehouseItem.with_quantity WarehouseItem.id WarehouseItem.quantity
             WarehouseItem.product_id WarehouseItem.location WarehouseItem.safety_stock].
        rewrite deduction_for_absent by exact Hr.
        now rewrite Z.sub_0_r.
      * destruct (Z.eqb_spec (WarehouseItem.id r) (WarehouseItem.id x)); [congruence|].
        reflexivity.
    + now rewrite write_item_ids.
    + intros r1 d1 H1.
      assert (In r1 rows) by (apply (Hin r1 d1); now right).
      assert (WarehouseItem.id r1 <> WarehouseItem.id r).
      { intros E. apply Hr. rewrite <- E. apply in_map_iff. exists (r1, d1). auto. }
      unfold write_item. apply in_map_iff. exists r1. split; auto.
      cbn [touched fst WarehouseItem.with_quantity WarehouseItem.id].
      now destruct (Z.eqb_spec (WarehouseItem.id r1) (WarehouseItem.id r)).
Qed.

Lemma after_allocation_ids (alloc : list (WarehouseItem.t * Z))
    (rows : list WarehouseItem.t) :
  map WarehouseItem.id (after_allocation alloc rows) = map WarehouseItem.id rows.
Proof. unfold after_allocation. rewrite map_map. now apply map_ext. Qed.

Lemma find_after_allocation (alloc : list (WarehouseItem.t * Z))
    (rows : list WarehouseItem.t) (r : WarehouseItem.t) :
  NoDup (map WarehouseItem.id rows) -> In r rows ->
  find (fun x => WarehouseItem.id x =? WarehouseItem.id r) (after_allocation alloc rows)
  = Some (WarehouseItem.with_quantity
            (WarehouseItem.quantity r - deduction_for (WarehouseItem.id r) alloc) r).
Proof.
  intros ND Hin. apply in_split in Hin. destruct Hin as (l1 & l2 & ->).
  apply NoDup_ids_split in ND. destruct ND as [N1 _].
  unfold after_allocation. rewrite map_app. cbn [map].
  apply find_by_id_split; auto.
  fold (after_allocation alloc l1). now rewrite after_allocation_ids.
Qed.

(** ** Running [stock_out] *)

Ltac run_session :=
  unfold stock_out, stock_out_body, begin, bind, get_product, first_item_at,
    select_available, update_item, add_movement, raise, ret, refresh.

Lemma stock_out_unresolved (db : Store) (req : StockOutRequest.t) :
  ~ resolves db (StockOutRequest.product_id req) ->
  stock_out req db = (Raised (ProductNotFoundException product_not_found_default), db).
Proof.
  intros H. apply find_product_none in H. run_session. now rewrite H.
Qed.

Lemma stock_out_targeted_absent (db : Store) (req : StockOutRequest.t) (loc : string) :
  resolves db (StockOutRequest.product_id req) ->
  truthy (StockOutRequest.location req) = Some loc ->
  find (item_at (StockOutRequest.product_id req) loc) (warehouse_items db) = None ->
  stock_out req db = (Raised (ProductNotFoundException (no_record_at loc)), db).
Proof.
  intros Hp Hl Hr. destruct (find_product_some _ _ Hp) as [p Fp].
  run_session. now rewrite Fp, Hl, Hr.
Qed.

Lemma stock_out_targeted_short (db : Store) (req : StockOutRequest.t) (loc : string)
    (r : WarehouseItem.t) :
  resolves db (StockOutRequest.product_id req) ->
  truthy (StockOutRequest.location req) = Some loc ->
  find (item_at (StockOutRequest.product_id req) loc) (warehouse_items db) = Some r ->
  WarehouseItem.quantity r < StockOutRequest.quantity req ->
  stock_out req db = (Raised (InsufficientStockException (location_insufficient loc)), db).
Proof.
  intros Hp Hl Hr Hq. destruct (find_product_some _ _ Hp) as [p Fp].
  apply Z.ltb_lt in Hq.
  run_session. now rewrite Fp, Hl, Hr, Hq.
Qed.

Lemma stock_out_targeted_ok (db : Store) (req : StockOutRequest.t) (loc : string)
    (r : WarehouseItem.t) :
  item_keys db ->
  resolves db (StockOutRequest.product_id req) ->
  truthy (StockOutRequest.location req) = Some loc ->
  find (item_at (StockOutRequest.product_id req) loc) (warehouse_items db) = Some r ->
  StockOutRequest.quantity req <= WarehouseItem.quantity r ->
  exists l1 l2,
    warehouse_items db = l1 ++ r :: l2 /\
    stock_out req db
    = (Returned (Some (WarehouseItem.with_quantity
                         (WarehouseItem.quantity r - StockOutRequest.quantity req) r)),
       mkStore (products db)
               (l1 ++ WarehouseItem.with_quantity
                        (WarehouseItem.quantity r - StockOutRequest.quantity req) r :: l2)
               (movements db ++ [out_movement db req (WarehouseItem.id r)])
               (next_item_id db) (next_movement_id db + 1)).
Proof.
  intros [ND _] Hp Hl Hr Hq. destruct (find_product_some _ _ Hp) as [p Fp].
  destruct (find_split _ _ _ Hr) as (l1 & l2 & E & _ & _).
  exists l1, l2. split; auto.
  unfold item_ids in ND. rewrite E in ND.
  apply Z.ltb_ge in Hq.
  run_session. rewrite Fp, Hl, Hr, Hq.
  cbn [warehouse_items products movements next_item_id next_movement_id hd_error].
  rewrite E, write_item_split by auto.
  cbn [WarehouseItem.with_quantity WarehouseItem.id WarehouseItem.quantity].
  rewrite find_by_id_split; auto.
  apply NoDup_ids_split in ND. tauto.
Qed.

Lemma stock_out_untargeted_empty (db : Store) (req : StockOutRequest.t) :
  resolves db (StockOutRequest.product_id req) ->
  truthy (StockOutRequest.location req) = None ->
  available_of (StockOutRequest.product_id req) db = [] ->
  stock_out req db = (Raised (ProductNotFoundException all_locations_empty), db).
Proof.
  intros Hp Hl Ha. destruct (find_product_some _ _ Hp) as [p Fp].
  run_session. now rewrite Fp, Hl, Ha.
Qed.

Lemma stock_out_untargeted_short (db : Store) (req : StockOutRequest.t) :
  resolves db (StockOutRequest.product_id req) ->
  truthy (StockOutRequest.location req) = None ->
  available_of (StockOutRequest.product_id req) db <> [] ->
  sum_quantity (available_of (StockOutRequest.product_id req) db)
  < StockOutRequest.quantity req ->
  stock_out req db = (Raised (InsufficientStockException total_insufficient), db).
Proof.
  intros Hp Hl Ha Hq. destruct (find_product_some _ _ Hp) as [p Fp].
  apply Z.ltb_lt in Hq.
  run_session. rewrite Fp, Hl.
  destruct (available_of _ db) as [|a l] eqn:E; [congruence|].
  now rewrite Hq.
Qed.

Lemma stock_out_untargeted_ok (db : Store) (req : StockOutRequest.t) :
  item_keys db ->
  resolves db (StockOutRequest.product_id req) ->
  truthy (StockOutRequest.location req) = None ->
  available_of (StockOutRequest.product_id req) db <> [] ->
  StockOutRequest.quantity req
  <= sum_quantity (available_of (StockOutRequest.product_id req) db) ->
  stock_out req db
  = (Returned (hd_error (map touched
                 (allocation (available_of (StockOutRequest.product_id req) db)
                             (StockOutRequest.quantity req)))),
     mkStore (products db)
             (after_allocation
                (allocation (available_of (StockOutRequest.product_id req) db)
                            (StockOutRequest.quantity req))
                (warehouse_items db))
             (movements db ++
                out_movements (StockOutRequest.product_id req)
                  (StockOutRequest.remarks req) (next_movement_id db)
                  (allocation (available_of (StockOutRequest.product_id req) db)
                              (StockOutRequest.quantity req)))
             (next_item_id db)
             (next_movement_id db
              + Z.of_nat (List.length
                  (allocation (available_of (StockOutRequest.product_id req) db)
                              (StockOutRequest.quantity req))))).
Proof.
  intros [ND _] Hp Hl Ha Hq. destruct (find_product_some _ _ Hp) as [p Fp].
  apply Z.ltb_ge in Hq.
  assert (Hsub : forall r d,
             In (r, d) (allocation (available_of (StockOutRequest.product_id req) db)
                                   (StockOutRequest.quantity req)) ->
             In r (warehouse_items db)).
  { intros r d H. apply allocation_in in H. apply available_in in H. tauto. }
  assert (NDa := allocation_ids_NoDup _ (StockOutRequest.quantity req)
                   (available_NoDup (StockOutRequest.product_id req) db ND)).
  run_session. rewrite Fp, Hl.
  destruct (available_of _ db) as [|a l] eqn:E; [congruence|].
  rewrite Hq, deduct_loop_run. cbn [app].
  rewrite write_all_after_allocation by auto.
  destruct (allocation (a :: l) (StockOutRequest.quantity req)) as [|[r d] alloc] eqn:A.
  - reflexivity.
  - cbn [map hd_error warehouse_items touched fst snd WarehouseItem.id
         WarehouseItem.with_quantity].
    rewrite find_after_allocation; auto.
    + rewrite deduction_for_cons, Z.eqb_refl. reflexivity.
    + apply (Hsub r d). now left.
Qed.

(** ** Facts about the allocation *)

Lemma sum_quantity_nonneg (records : list WarehouseItem.t) :
  Forall (fun r => 0 < WarehouseItem.quantity r) records -> 0 <= sum_quantity records.
Proof. induction 1; simpl; lia. Qed.

Lemma allocation_total (records : list WarehouseItem.t) :
  Forall (fun r => 0 < WarehouseItem.quantity r) records ->
  forall remaining,
    0 <= remaining <= sum_quantity records ->
    total_deducted (allocation records remaining) = remaining.
Proof.
  induction 1 as [|r records Hr Hall IH]; intros rem Hrem; simpl in *.
  - lia.
  - destruct (Z.eqb_spec rem 0) as [E|E]; simpl; [lia|].
    pose proof (sum_quantity_nonneg _ Hall).
    rewrite IH; lia.
Qed.

Lemma allocation_bounds (records : list WarehouseItem.t) :
  Forall (fun r => 0 < WarehouseItem.quantity r) records ->
  forall remaining r d,
    0 <= remaining ->
    In (r, d) (allocation records remaining) ->
    0 < d <= WarehouseItem.quantity r.
Proof.
  induction 1 as [|x records Hx Hall IH]; intros rem r d Hrem Hin; simpl in *.
  - contradiction.
  - destruct (Z.eqb_spec rem 0) as [E|E]; simpl in Hin; [contradiction|].
    destruct Hin as [Hin|Hin].
    + inversion Hin; subst. lia.
    + apply (IH (rem - Z.min (WarehouseItem.quantity x) rem)); auto. lia.
Qed.

Lemma allocation_prefix (records : list WarehouseItem.t) (remaining : Z) :
  map fst (allocation records remaining)
  = firstn (List.length (allocation records remaining)) records.
Proof.
  revert remaining. induction records as [|x records IH]; intros rem; simpl.
  - reflexivity.
  - destruct (rem =? 0); simpl; [reflexivity|]. now rewrite <- IH.
Qed.

Lemma available_positive (pid : Z) (db : Store) :
  Forall (fun r => 0 < WarehouseItem.quantity r) (available_of pid db).
Proof. apply Forall_forall. intros r H. apply available_in in H. tauto. Qed.

Lemma truthy_some (loc : string) : loc <> "" -> truthy (Some loc) = Some loc.
Proof.
  intros H. simpl. destruct (String.eqb_spec loc ""); [contradiction|reflexivity].
Qed.

(** ** Keys of the example stores *)

Lemma item_keys_two_shelves : item_keys two_shelves.
Proof.
  split.
  - unfold item_ids. simpl. repeat constructor; simpl; intuition discriminate.
  - repeat constructor; simpl; lia.
Qed.

Lemma resolves_widget (db : Store) : In widget (products db) -> resolves db 1.
Proof. intros H. exists widget. split; [exact H|reflexivity]. Qed.

(** ** Untargeted stock-out *)

(** C1. An untargeted stock-out of [q > 0] on an existing product whose
    in-stock records hold at least [q] considers exactly the records of the
    product with positive quantity, in ascending id order; it returns, and the
    store it leaves has every row reduced by the deduction of the plan, one
    [OUT] movement per touched record with that record's deduction appended
    in plan order, and nothing else changed.  The plan deducts
    [min(quantity, remaining)] from a prefix of the ordered records, every
    deduction is positive and at most the record's quantity, the deductions
    add up to [q], and the result is the first record after its deduction. *)
Theorem untargeted_stock_out_walks_records (db : Store) (req : StockOutRequest.t) :
  item_keys db ->
  resolves db (StockOutRequest.product_id req) ->
  StockOutRequest.location req = None ->
  0 < StockOutRequest.quantity req ->
  StockOutRequest.quantity req
  <= sum_quantity (available_of (StockOutRequest.product_id req) db) ->
  Sorted id_le (available_of (StockOutRequest.product_id req) db) /\
  (forall r, In r (available_of (StockOutRequest.product_id req) db) <->
             In r (warehouse_items db)
             /\ WarehouseItem.product_id r = StockOutRequest.product_id req
             /\ 0 < WarehouseItem.quantity r) /\
  stock_out req db
  = (Returned (hd_error (map touched (plan db req))),
     mkStore (products db)
             (after_allocation (plan db req) (warehouse_items db))
             (movements db ++
                out_movements (StockOutRequest.product_id req)
                  (StockOutRequest.remarks req) (next_movement_id db) (plan db req))
             (next_item_id db)
             (next_movement_id db + Z.of_nat (List.length (plan db req)))) /\
  map fst (plan db req)
  = firstn (List.length (plan db req))
           (available_of (StockOutRequest.product_id req) db) /\
  (forall r d, In (r, d) (plan db req) -> 0 < d <= WarehouseItem.quantity r) /\
  total_deducted (plan db req) = StockOutRequest.quantity req /\
  (exists r0 rest,
      available_of (StockOutRequest.product_id req) db = r0 :: rest /\
      hd_error (map touched (plan db req))
      = Some (WarehouseItem.with_quantity
                (WarehouseItem.quantity r0
                 - Z.min (WarehouseItem.quantity r0) (StockOutRequest.quantity req))
                r0)).
Proof.
  intros K Hp Hl Hq Hsum.
  assert (Hne : available_of (StockOutRequest.product_id req) db <> []).
  { intros E. rewrite E in Hsum. simpl in Hsum. lia. }
  pose proof (available_positive (StockOutRequest.product_id req) db) as Hpos.
  split; [apply order_by_id_sorted|].
  split; [intros r; apply available_in|].
  split; [apply stock_out_untargeted_ok; auto; now rewrite Hl|].
  split; [apply allocation_prefix|].
  split; [intros r d Hin; eapply allocation_bounds; eauto; lia|].
  split; [apply allocation_total; auto; lia|].
  - unfold plan.
    destruct (available_of (StockOutRequest.product_id req) db) as [|r0 rest];
      [congruence|].
    exists r0, rest. split; auto.
    simpl. destruct (Z.eqb_spec (StockOutRequest.quantity req) 0); [lia|].
    reflexivity.
Qed.

Lemma untargeted_stock_out_seven_of_five_five :
  stock_out (StockOutRequest.mk 1 7 None None) two_shelves
  = (Returned (Some (WarehouseItem.mk 1 1 0 "A1" 5)),
     mkStore [widget]
             [WarehouseItem.mk 1 1 0 "A1" 5; WarehouseItem.mk 2 1 3 "B2" 5]
             [Movement.mk 1 1 (Some 1) IN 5 None; Movement.mk 2 1 (Some 2) IN 5 None;
              Movement.mk 3 1 (Some 1) OUT 5 None; Movement.mk 4 1 (Some 2) OUT 2 None]
             3 5).
Proof.
  destruct (untargeted_stock_out_walks_records two_shelves
              (StockOutRequest.mk 1 7 None None))
    as (_ & _ & H & _).
  - exact item_keys_two_shelves.
  - apply resolves_widget. simpl. now left.
  - reflexivity.
  - simpl. lia.
  - vm_compute. discriminate.
  - rewrite H. reflexivity.
Defined.

(** ** Stock-in *)

(** C5. [stock_in] raises [ProductNotFoundException] exactly when the product
    id does not resolve.  Otherwise it returns: when a record exists at
    (product, location) that row alone is rewritten with its quantity raised
    by the requested amount; when none exists one row is appended with the
    requested quantity and safety stock 5; in both cases one [IN] movement of
    the requested quantity linked to the resulting record is appended and
    the remaining rows are as before. *)
Theorem stock_in_effect (db : Store) (req : StockInRequest.t) :
  item_keys db ->
  ((exists d db', stock_in req db = (Raised (ProductNotFoundException d), db')) <->
   ~ resolves db (StockInRequest.product_id req)) /\
  (~ resolves db (StockInRequest.product_id req) ->
   stock_in req db = (Raised (ProductNotFoundException product_not_found_default), db)) /\
  (resolves db (StockInRequest.product_id req) ->
   (forall r,
       find (item_at (StockInRequest.product_id req) (StockInRequest.location req))
            (warehouse_items db) = Some r ->
       exists l1 l2,
         warehouse_items db = l1 ++ r :: l2 /\
         stock_in req db
         = (Returned (WarehouseItem.with_quantity
                        (WarehouseItem.quantity r + StockInRequest.quantity req) r),
            mkStore (products db)
                    (l1 ++ WarehouseItem.with_quantity
                             (WarehouseItem.quantity r + StockInRequest.quantity req) r
                        :: l2)
                    (movements db ++ [in_movement db req (WarehouseItem.id r)])
                    (next_item_id db) (next_movement_id db + 1))) /\
   ((forall r, In r (warehouse_items db) ->
               ~ (WarehouseItem.product_id r = StockInRequest.product_id req
                  /\ WarehouseItem.location r = StockInRequest.location req)) ->
    stock_in req db
    = (Returned (WarehouseItem.mk (next_item_id db) (StockInRequest.product_id req)
                   (StockInRequest.quantity req) (StockInRequest.location req) 5),
       mkStore (products db)
               (warehouse_items db ++
                  [WarehouseItem.mk (next_item_id db) (StockInRequest.product_id req)
                     (StockInRequest.quantity req) (StockInRequest.location req) 5])
               (movements db ++ [in_movement db req (next_item_id db)])
               (next_item_id db + 1) (next_movement_id db + 1)))).
Proof.
  intros K.
  assert (Hnew :
    resolves db (StockInRequest.product_id req) ->
    (forall r, In r (warehouse_items db) ->
               ~ (WarehouseItem.product_id r = StockInRequest.product_id req
                  /\ WarehouseItem.location r = StockInRequest.location req)) ->
    stock_in req db
    = (Returned (WarehouseItem.mk (next_item_id db) (StockInRequest.product_id req)
                   (StockInRequest.quantity req) (StockInRequest.location req) 5),
       mkStore (products db)
               (warehouse_items db ++
                  [WarehouseItem.mk (next_item_id db) (StockInRequest.product_id req)
                     (StockInRequest.quantity req) (StockInRequest.location req) 5])
               (movements db ++ [in_movement db req (next_item_id db)])
               (next_item_id db + 1) (next_movement_id db + 1))).
  { intros Hp Hnone. apply stock_in_new; auto.
    destruct (find _ (warehouse_items db)) as [r|] eqn:F; auto.
    apply find_some in F. destruct F as [Hin Hat].
    apply item_at_true in Hat. exfalso. exact (Hnone r Hin Hat). }
  split; [|split; [apply stock_in_unresolved|]].
  - split.
    + intros (d & db' & H) Hp.
      destruct (find (item_at (StockInRequest.product_id req)
                              (StockInRequest.location req))
                     (warehouse_items db)) as [r|] eqn:F.
      * destruct (stock_in_existing db req r K Hp F) as (l1 & l2 & _ & E).
        rewrite E in H. discriminate.
      * rewrite (stock_in_new db req K Hp F) in H. discriminate.
    + intros Hp. exists product_not_found_default, db. now apply stock_in_unresolved.
  - intros Hp. split.
    + intros r F. now apply stock_in_existing.
    + now apply Hnew.
Qed.

Lemma stock_in_effect_on_new_location :
  stock_in (StockInRequest.mk 1 4 "C3" None) two_shelves
  = (Returned (WarehouseItem.mk 3 1 4 "C3" 5),
     mkStore [widget]
             [WarehouseItem.mk 1 1 5 "A1" 5; WarehouseItem.mk 2 1 5 "B2" 5;
              WarehouseItem.mk 3 1 4 "C3" 5]
             [Movement.mk 1 1 (Some 1) IN 5 None; Movement.mk 2 1 (Some 2) IN 5 None;
              Movement.mk 3 1 (Some 3) IN 4 None]
             4 4).
Proof.
  destruct (stock_in_effect two_shelves (StockInRequest.mk 1 4 "C3" None)
              item_keys_two_shelves) as (_ & _ & H).
  destruct H as [_ H].
  - apply resolves_widget. simpl. now left.
  - rewrite H; [reflexivity|].
    simpl. intros r [<-|[<-|[]]]; simpl; intros [_ E]; discriminate.
Defined.

(** ** Targeted stock-out *)

(** C4. For a targeted stock-out on an existing product: it raises a
    [ProductNotFoundException] exactly when no record exists at (product,
    location); it raises [InsufficientStockException] exactly when the record
    found there holds strictly less than the requested quantity; and when the
    record holds at least the requested quantity it returns, that row alone is
    rewritten with its quantity lowered by the requested amount, and one
    [OUT] movement of that amount linked to the record is appended. *)
Theorem targeted_stock_out_cases (db : Store) (req : StockOutRequest.t) (loc : string) :
  item_keys db ->
  resolves db (StockOutRequest.product_id req) ->
  StockOutRequest.location req = Some loc ->
  loc <> "" ->
  ((exists d db', stock_out req db = (Raised (ProductNotFoundException d), db')) <->
   (forall r, In r (warehouse_items db) ->
              ~ (WarehouseItem.product_id r = StockOutRequest.product_id req
                 /\ WarehouseItem.location r = loc))) /\
  ((exists d db', stock_out req db = (Raised (InsufficientStockException d), db')) <->
   (exists r, find (item_at (StockOutRequest.product_id req) loc) (warehouse_items db)
              = Some r
              /\ WarehouseItem.quantity r < StockOutRequest.quantity req)) /\
  (forall r,
      find (item_at (StockOutRequest.product_id req) loc) (warehouse_items db) = Some r ->
      StockOutRequest.quantity req <= WarehouseItem.quantity r ->
      exists l1 l2,
        warehouse_items db = l1 ++ r :: l2 /\
        stock_out req db
        = (Returned (Some (WarehouseItem.with_quantity
                             (WarehouseItem.quantity r - StockOutRequest.quantity req) r)),
           mkStore (products db)
                   (l1 ++ WarehouseItem.with_quantity
                            (WarehouseItem.quantity r - StockOutRequest.quantity req) r
                       :: l2)
                   (movements db ++ [out_movement db req (WarehouseItem.id r)])
                   (next_item_id db) (next_movement_id db + 1))).
Proof.
  intros K Hp Hloc Hne.
  assert (Hl : truthy (StockOutRequest.location req) = Some loc)
    by (rewrite Hloc; now apply truthy_some).
  destruct (find (item_at (StockOutRequest.product_id req) loc) (warehouse_items db))
    as [r|] eqn:F.
  - pose proof (find_some _ _ F) as [Hin Hat]. apply item_at_true in Hat.
    destruct (Z.lt_ge_cases (WarehouseItem.quantity r) (StockOutRequest.quantity req))
      as [Hq|Hq].
    + pose proof (stock_out_targeted_short db req loc r Hp Hl F Hq) as E.
      split; [|split].
      * split.
        -- intros (d & db' & H). rewrite E in H. discriminate.
        -- intros Hnone. exfalso. exact (Hnone r Hin Hat).
      * split.
        -- intros _. exists r. auto.
        -- intros _. eauto.
      * intros r' Hr' Hle. inversion Hr'; subst. lia.
    + destruct (stock_out_targeted_ok db req loc r K Hp Hl F Hq) as (l1 & l2 & Es & E).
      split; [|split].
      * split.
        -- intros (d & db' & H). rewrite E in H. discriminate.
        -- intros Hnone. exfalso. exact (Hnone r Hin Hat).
      * split.
        -- intros (d & db' & H). rewrite E in H. discriminate.
        -- intros (r' & Hr' & Hlt). inversion Hr'; subst. lia.
      * intros r' Hr' _. inversion Hr'; subst. eauto.
  - pose proof (stock_out_targeted_absent db req loc Hp Hl F) as E.
    split; [|split].
    + split.
      * intros _ r Hin Hat. apply item_at_true in Hat.
        pose proof (find_none _ _ F r Hin). congruence.
      * intros _. eauto.
    + split.
      * intros (d & db' & H). rewrite E in H. discriminate.
      * intros (r & Hr & _). discriminate.
    + intros r Hr. discriminate.
Qed.

Lemma targeted_stock_out_of_all_five :
  exists l1 l2,
    warehouse_items two_shelves = l1 ++ WarehouseItem.mk 2 1 5 "B2" 5 :: l2 /\
    stock_out (StockOutRequest.mk 1 5 (Some "B2") None) two_shelves
    = (Returned (Some (WarehouseItem.mk 2 1 0 "B2" 5)),
       mkStore [widget]
               (l1 ++ WarehouseItem.mk 2 1 0 "B2" 5 :: l2)
               [Movement.mk 1 1 (Some 1) IN 5 None; Movement.mk 2 1 (Some 2) IN 5 None;
                Movement.mk 3 1 (Some 2) OUT 5 None]
               3 4).
Proof.
  destruct (targeted_stock_out_cases two_shelves
              (StockOutRequest.mk 1 5 (Some "B2") None) "B2")
    as (_ & _ & H).
  - exact item_keys_two_shelves.
  - apply resolves_widget. simpl. now left.
  - reflexivity.
  - discriminate.
  - destruct (H (WarehouseItem.mk 2 1 5 "B2" 5)) as (l1 & l2 & Es & E).
    + reflexivity.
    + simpl. lia.
    + exists l1, l2. split; [exact Es|]. rewrite E. reflexivity.
Defined.

(** ** Failure leaves the store alone *)

Lemma find_by_id_present (pk : Z) (rows : list WarehouseItem.t) :
  In pk (map WarehouseItem.id rows) ->
  find (fun x => WarehouseItem.id x =? pk) rows <> None.
Proof.
  intros H F. apply in_map_iff in H. destruct H as (x & E & Hin).
  pose proof (find_none _ _ F x Hin) as N. simpl in N.
  apply Z.eqb_neq in N. contradiction.
Qed.

Lemma write_all_ids (alloc : list (WarehouseItem.t * Z)) :
  forall rows, map WarehouseItem.id (write_all alloc rows) = map WarehouseItem.id rows.
Proof.
  induction alloc as [|rd alloc IH]; intros rows; simpl; auto.
  fold (write_all alloc (write_item (touched rd) rows)).
  now rewrite IH, write_item_ids.
Qed.

(** The body of the transaction raises before it writes anything. *)
Lemma stock_out_body_raises_unchanged (req : StockOutRequest.t) (db db1 : Store) (e : exn) :
  stock_out_body req db = (Raised e, db1) -> db1 = db.
Proof.
  unfold stock_out_body, bind, get_product, first_item_at, select_available,
    update_item, add_movement, raise, ret.
  destruct (find _ (products db)); [|now inversion 1].
  destruct (truthy (StockOutRequest.location req)) as [loc|].
  - destruct (find _ (warehouse_items db)) as [item|]; [|now inversion 1].
    destruct (WarehouseItem.quantity item <? StockOutRequest.quantity req);
      [now inversion 1|discriminate].
  - destruct (available_of _ db) as [|a l]; [now inversion 1|].
    destruct (sum_quantity (a :: l) <? StockOutRequest.quantity req);
      [now inversion 1|].
    rewrite deduct_loop_run. discriminate.
Qed.

(** When the body returns a record, its row is in the store it leaves. *)
Lemma stock_out_body_returns_row (req : StockOutRequest.t) (db db1 : Store)
    (it : WarehouseItem.t) :
  stock_out_body req db = (Returned (Some it), db1) ->
  In (WarehouseItem.id it) (item_ids db1).
Proof.
  unfold stock_out_body, bind, get_product, first_item_at, select_available,
    update_item, add_movement, raise, ret.
  destruct (find _ (products db)); [|discriminate].
  destruct (truthy (StockOutRequest.location req)) as [loc|].
  - destruct (find _ (warehouse_items db)) as [item|] eqn:F; [|discriminate].
    destruct (WarehouseItem.quantity item <? StockOutRequest.quantity req);
      [discriminate|].
    cbn [hd_error]. intros H. inversion H; subst. unfold item_ids.
    cbn [warehouse_items WarehouseItem.id WarehouseItem.with_quantity].
    rewrite write_item_ids. apply in_map. now apply find_some in F.
  - destruct (available_of _ db) as [|a l] eqn:A; [discriminate|].
    destruct (sum_quantity (a :: l) <? StockOutRequest.quantity req);
      [discriminate|].
    rewrite deduct_loop_run. cbn [app].
    destruct (allocation (a :: l) (StockOutRequest.quantity req))
      as [|[r d] alloc] eqn:P; [discriminate|].
    cbn [map hd_error]. intros H. inversion H; subst. unfold item_ids.
    cbn [warehouse_items touched fst WarehouseItem.id WarehouseItem.with_quantity].
    rewrite write_all_ids, ?write_item_ids. apply in_map.
    assert (Hin : In r (a :: l)).
    { apply (allocation_in _ (StockOutRequest.quantity req) r d). rewrite P. now left. }
    rewrite <- A in Hin. apply available_in in Hin. tauto.
Qed.

(** Only the two business errors come out of the body. *)
Lemma stock_out_body_raises_business (req : StockOutRequest.t) (db db1 : Store) (e : exn) :
  stock_out_body req db = (Raised e, db1) ->
  class_of e = ProductNotFound_class \/ class_of e = InsufficientStock_class.
Proof.
  unfold stock_out_body, bind, get_product, first_item_at, select_available,
    update_item, add_movement, raise, ret.
  destruct (find _ (products db)); [|inversion 1; now left].
  destruct (truthy (StockOutRequest.location req)) as [loc|].
  - destruct (find _ (warehouse_items db)) as [item|]; [|inversion 1; now left].
    destruct (WarehouseItem.quantity item <? StockOutRequest.quantity req);
      [inversion 1; now right|discriminate].
  - destruct (available_of _ db) as [|a l]; [inversion 1; now left|].
    destruct (sum_quantity (a :: l) <? StockOutRequest.quantity req);
      [inversion 1; now right|].
    rewrite deduct_loop_run. discriminate.
Qed.

(** C3. A [stock_out] that raises, in either mode, leaves the store it was
    called on: the rows of every table and both counters are those from
    before the call.  The error is the one the transaction body raised, it is
    a [ProductNotFoundException] or an [InsufficientStockException], and the
    body had written nothing when it raised. *)
Theorem failed_stock_out_changes_nothing (db db' : Store) (req : StockOutRequest.t)
    (e : exn) :
  stock_out req db = (Raised e, db') ->
  db' = db /\
  stock_out_body req db = (Raised e, db) /\
  (class_of e = ProductNotFound_class \/ class_of e = InsufficientStock_class).
Proof.
  unfold stock_out, begin, bind.
  destruct (stock_out_body req db) as [[[it|]|e1] db1] eqn:B.
  - apply stock_out_body_returns_row in B. unfold refresh.
    destruct (find _ (warehouse_items db1)) eqn:F.
    + discriminate.
    + now apply find_by_id_present in F.
  - discriminate.
  - intros H. inversion H; subst.
    pose proof (stock_out_body_raises_unchanged _ _ _ _ B). subst db1.
    split; [reflexivity|]. split; [reflexivity|].
    eapply stock_out_body_raises_business. exact B.
Qed.

Lemma failed_stock_out_of_seventy :
  stock_out (StockOutRequest.mk 1 70 None None) two_shelves
  = (Raised (InsufficientStockException total_insufficient), two_shelves)
  /\ snd (stock_out (StockOutRequest.mk 1 70 None None) two_shelves) = two_shelves.
Proof.
  split.
  - reflexivity.
  - apply (failed_stock_out_changes_nothing two_shelves _
             (StockOutRequest.mk 1 70 None None)
             (InsufficientStockException total_insufficient)).
    reflexivity.
Defined.

(** ** The error raised for an absent location *)

(** C9, as the code has it.  A targeted stock-out on an existing product with
    no record at the location raises [ProductNotFoundException] with the
    location-specific detail and leaves the store unchanged; the exception is
    of the class raised for an unknown product id and differs from it only in
    its detail message. *)
Theorem absent_location_raises_product_not_found (db : Store) (req : StockOutRequest.t)
    (loc : string) :
  resolves db (StockOutRequest.product_id req) ->
  StockOutRequest.location req = Some loc ->
  loc <> "" ->
  (forall r, In r (warehouse_items db) ->
             ~ (WarehouseItem.product_id r = StockOutRequest.product_id req
                /\ WarehouseItem.location r = loc)) ->
  stock_out req db = (Raised (ProductNotFoundException (no_record_at loc)), db) /\
  class_of (ProductNotFoundException (no_record_at loc))
  = class_of (ProductNotFoundException product_not_found_default) /\
  no_record_at loc <> product_not_found_default.
Proof.
  intros Hp Hloc Hne Hnone.
  split; [|split].
  - apply stock_out_targeted_absent; auto.
    + rewrite Hloc. now apply truthy_some.
    + destruct (find _ (warehouse_items db)) as [r|] eqn:F; auto.
      apply find_some in F. destruct F as [Hin Hat].
      apply item_at_true in Hat. exfalso. exact (Hnone r Hin Hat).
  - reflexivity.
  - unfold no_record_at, product_not_found_default. simpl. intros H.
    repeat (injection H as _ H). discriminate.
Qed.

Lemma absent_location_on_two_shelves :
  stock_out (StockOutRequest.mk 1 7 (Some "ZZ") None) two_shelves
  = (Raised (ProductNotFoundException (no_record_at "ZZ")), two_shelves).
Proof.
  apply (absent_location_raises_product_not_found two_shelves
           (StockOutRequest.mk 1 7 (Some "ZZ") None) "ZZ").
  - apply resolves_widget. simpl. now left.
  - reflexivity.
  - discriminate.
  - simpl. intros r [<-|[<-|[]]]; simpl; intros [_ E]; discriminate.
Defined.

(** C9 as stated, refuted: the error for an absent location on an existing
    product and the error for an unknown product id are both of class
    [ProductNotFoundException]; no separate class exists for the former. *)
Lemma absent_location_error_not_distinct :
  exists e1 e2,
    resolves two_shelves 1 /\
    find (item_at 1 "ZZ") (warehouse_items two_shelves) = None /\
    fst (stock_out (StockOutRequest.mk 1 7 (Some "ZZ") None) two_shelves) = Raised e1 /\
    ~ resolves two_shelves 9 /\
    fst (stock_out (StockOutRequest.mk 9 7 (Some "ZZ") None) two_shelves) = Raised e2 /\
    class_of e1 = class_of e2.
Proof.
  exists (ProductNotFoundException (no_record_at "ZZ")),
         (ProductNotFoundException product_not_found_default).
  split; [apply resolves_widget; simpl; now left|].
  split; [reflexivity|].
  split; [reflexivity|].
  split.
  - intros (p & [<-|[]] & E). discriminate.
  - split; reflexivity.
Qed.

(** ** The store an operation leaves *)

Lemma stock_in_store (db : Store) (req : StockInRequest.t) :
  snd (stock_in req db) = db \/
  (exists r,
      find (item_at (StockInRequest.product_id req) (StockInRequest.location req))
           (warehouse_items db) = Some r /\
      snd (stock_in req db)
      = mkStore (products db)
                (write_item
                   (WarehouseItem.with_quantity
                      (WarehouseItem.quantity r + StockInRequest.quantity req) r)
                   (warehouse_items db))
                (movements db ++ [in_movement db req (WarehouseItem.id r)])
                (next_item_id db) (next_movement_id db + 1)) \/
  (find (item_at (StockInRequest.product_id req) (StockInRequest.location req))
        (warehouse_items db) = None /\
   snd (stock_in req db)
   = mkStore (products db)
             (warehouse_items db ++
                [WarehouseItem.mk (next_item_id db) (StockInRequest.product_id req)
                   (StockInRequest.quantity req) (StockInRequest.location req) 5])
             (movements db ++ [in_movement db req (next_item_id db)])
             (next_item_id db + 1) (next_movement_id db + 1)).
Proof.
  unfold stock_in, begin, bind, get_product, first_item_at, update_item, insert_item,
    add_movement, raise, ret, refresh.
  destruct (find _ (products db)); [|now left].
  destruct (find _ (warehouse_items db)) as [r|] eqn:F.
  - right. left. exists r. split; auto.
    pose proof (find_some _ _ F) as [_ Hat]. apply item_at_true in Hat.
    destruct Hat as [Hpid _].
    cbn [warehouse_items products movements next_item_id next_movement_id
         WarehouseItem.product_id WarehouseItem.id WarehouseItem.with_quantity].
    unfold in_movement. rewrite Hpid.
    now destruct (find _ (write_item _ _)).
  - right. right. split; auto.
    cbn [warehouse_items products movements next_item_id next_movement_id
         WarehouseItem.product_id WarehouseItem.id].
    now destruct (find _ (_ ++ _)).
Qed.

Lemma stock_out_store (db : Store) (req : StockOutRequest.t) :
  snd (stock_out req db) = db \/
  (exists loc r,
      find (item_at (StockOutRequest.product_id req) loc) (warehouse_items db) = Some r /\
      StockOutRequest.quantity req <= WarehouseItem.quantity r /\
      snd (stock_out req db)
      = mkStore (products db)
                (write_item
                   (WarehouseItem.with_quantity
                      (WarehouseItem.quantity r - StockOutRequest.quantity req) r)
                   (warehouse_items db))
                (movements db ++ [out_movement db req (WarehouseItem.id r)])
                (next_item_id db) (next_movement_id db + 1)) \/
  snd (stock_out req db)
  = mkStore (products db)
            (write_all (plan db req) (warehouse_items db))
            (movements db ++
               out_movements (StockOutRequest.product_id req)
                 (StockOutRequest.remarks req) (next_movement_id db) (plan db req))
            (next_item_id db)
            (next_movement_id db + Z.of_nat (List.length (plan db req))).
Proof.
  unfold plan. run_session.
  destruct (find _ (products db)); [|now left].
  destruct (truthy (StockOutRequest.location req)) as [loc|].
  - destruct (find _ (warehouse_items db)) as [r|] eqn:F; [|now left].
    destruct (Z.ltb_spec (WarehouseItem.quantity r) (StockOutRequest.quantity req));
      [now left|].
    right. left. exists loc, r. repeat split; auto.
    cbn [hd_error warehouse_items].
    now destruct (find _ (write_item _ _)).
  - destruct (available_of _ db) as [|a l] eqn:A; [now left|].
    destruct (sum_quantity (a :: l) <? StockOutRequest.quantity req); [now left|].
    right. right. rewrite deduct_loop_run. cbn [app].
    destruct (hd_error _) as [it|]; [|reflexivity].
    cbn [warehouse_items].
    now destruct (find _ (write_all _ _)).
Qed.

(** ** Non-negative quantities *)

Lemma write_item_non_negative (it : WarehouseItem.t) (rows : list WarehouseItem.t) :
  0 <= WarehouseItem.quantity it ->
  Forall (fun r => 0 <= WarehouseItem.quantity r) rows ->
  Forall (fun r => 0 <= WarehouseItem.quantity r) (write_item it rows).
Proof.
  intros Hq H. unfold write_item. apply Forall_map.
  eapply Forall_impl; [|exact H]. intros r Hr. simpl.
  now destruct (WarehouseItem.id r =? WarehouseItem.id it).
Qed.

Lemma allocation_le (records : list WarehouseItem.t) :
  forall remaining r d,
    In (r, d) (allocation records remaining) -> d <= WarehouseItem.quantity r.
Proof.
  induction records as [|x records IH]; intros rem r d Hin; simpl in *.
  - contradiction.
  - destruct (rem =? 0); simpl in Hin; [contradiction|].
    destruct Hin as [Hin|Hin]; eauto.
    inversion Hin; subst. lia.
Qed.

Lemma write_all_non_negative (alloc : list (WarehouseItem.t * Z)) :
  (forall r d, In (r, d) alloc -> d <= WarehouseItem.quantity r) ->
  forall rows,
    Forall (fun r => 0 <= WarehouseItem.quantity r) rows ->
    Forall (fun r => 0 <= WarehouseItem.quantity r) (write_all alloc rows).
Proof.
  induction alloc as [|[r d] alloc IH]; intros Hle rows H; simpl; auto.
  fold (write_all alloc (write_item (touched (r, d)) rows)).
  apply IH.
  - intros r1 d1 H1. apply Hle. now right.
  - apply write_item_non_negative; auto.
    simpl. specialize (Hle r d (or_introl eq_refl)). lia.
Qed.

(** C7. If every record's quantity is non-negative, then after a stock-in or
    a stock-out of a positive quantity, whether it returned or raised, every
    record's quantity is still non-negative. *)
Theorem quantities_stay_non_negative (db : Store) (op : operation) :
  non_negative db -> valid_request op -> non_negative (perform db op).
Proof.
  unfold non_negative. intros H Hv. destruct op as [req|req]; simpl in *.
  - destruct (stock_in_store db req) as [E|[(r & F & E)|[F E]]]; rewrite E; auto; simpl.
    + apply write_item_non_negative; auto. simpl.
      apply find_some in F. destruct F as [Hin _].
      rewrite Forall_forall in H. specialize (H r Hin). lia.
    + apply Forall_app. split; auto. constructor; auto. simpl. lia.
  - destruct (stock_out_store db req) as [E|[(loc & r & F & Hq & E)|E]];
      rewrite E; auto; simpl.
    + apply write_item_non_negative; auto. simpl. lia.
    + apply write_all_non_negative; auto.
      intros r d. apply allocation_le.
Qed.

Lemma quantities_stay_non_negative_example :
  non_negative (perform two_shelves (StockOut (StockOutRequest.mk 1 7 None None))).
Proof.
  apply quantities_stay_non_negative.
  - unfold non_negative. simpl. repeat constructor; simpl; lia.
  - simpl. lia.
Defined.

(** ** Primary keys are preserved *)

Lemma item_keys_same_ids (db db1 : Store) :
  item_ids db1 = item_ids db -> next_item_id db1 = next_item_id db ->
  item_keys db -> item_keys db1.
Proof.
  unfold item_keys, item_ids. intros Ei En [ND F]. split.
  - now rewrite Ei.
  - rewrite En. apply Forall_forall. intros x Hx.
    assert (In (WarehouseItem.id x) (map WarehouseItem.id (warehouse_items db))).
    { rewrite <- Ei. now apply in_map. }
    apply in_map_iff in H. destruct H as (y & E & Hy).
    rewrite Forall_forall in F. specialize (F y Hy). lia.
Qed.

Lemma item_keys_insert (db : Store) (it : WarehouseItem.t) (ms : list Movement.t)
    (n : Z) :
  WarehouseItem.id it = next_item_id db ->
  item_keys db ->
  item_keys (mkStore (products db) (warehouse_items db ++ [it]) ms
                     (next_item_id db + 1) n).
Proof.
  unfold item_keys, item_ids. intros E [ND F]. simpl. split.
  - rewrite map_app. simpl.
    apply NoDup_app; [exact ND|repeat constructor; intros []|].
    intros a Ha [<-|[]]. rewrite E in Ha. now apply ids_below_fresh in F.
  - apply Forall_app. split.
    + eapply Forall_impl; [|exact F]. simpl. lia.
    + constructor; auto. lia.
Qed.

Lemma perform_keeps_keys (db : Store) (op : operation) :
  item_keys db -> item_keys (perform db op).
Proof.
  intros K. destruct op as [req|req]; simpl.
  - destruct (stock_in_store db req) as [E|[(r & F & E)|[F E]]]; rewrite E; auto.
    + apply (item_keys_same_ids db); auto.
      unfold item_ids. simpl. apply write_item_ids.
    + now apply item_keys_insert.
  - destruct (stock_out_store db req) as [E|[(loc & r & F & Hq & E)|E]];
      rewrite E; auto.
    + apply (item_keys_same_ids db); auto.
      unfold item_ids. simpl. apply write_item_ids.
    + apply (item_keys_same_ids db); auto.
      unfold item_ids. simpl. apply write_all_ids.
Qed.

(** ** Conservation *)

Lemma moved_app (ty : MovementType) (pid : Z) (a b : list Movement.t) :
  moved ty pid (a ++ b) = moved ty pid a + moved ty pid b.
Proof.
  induction a as [|m a IH]; simpl; auto.
  destruct (_ && _); lia.
Qed.

Lemma stock_of_app (pid : Z) (a b : list WarehouseItem.t) :
  stock_of pid (a ++ b) = stock_of pid a + stock_of pid b.
Proof.
  unfold stock_of, items_of. induction a as [|r a IH]; simpl; auto.
  destruct (WarehouseItem.product_id r =? pid); simpl; lia.
Qed.

Lemma stock_of_cons (pid : Z) (r : WarehouseItem.t) (l : list WarehouseItem.t) :
  stock_of pid (r :: l)
  = (if WarehouseItem.product_id r =? pid then WarehouseItem.quantity r else 0)
    + stock_of pid l.
Proof.
  unfold stock_of, items_of. simpl.
  destruct (WarehouseItem.product_id r =? pid); simpl; lia.
Qed.

Lemma stock_of_write_item (pid : Z) (it r : WarehouseItem.t)
    (rows : list WarehouseItem.t) :
  NoDup (map WarehouseItem.id rows) -> In r rows ->
  WarehouseItem.id it = WarehouseItem.id r ->
  stock_of pid (write_item it rows)
  = stock_of pid rows
    + (if WarehouseItem.product_id r =? pid
       then WarehouseItem.quantity it - WarehouseItem.quantity r else 0).
Proof.
  intros ND Hin E. apply in_split in Hin. destruct Hin as (l1 & l2 & ->).
  rewrite write_item_split by auto.
  rewrite !stock_of_app, !stock_of_cons. simpl.
  destruct (WarehouseItem.product_id r =? pid); lia.
Qed.

Lemma write_item_keeps_others (r : WarehouseItem.t) (d : Z)
    (alloc : list (WarehouseItem.t * Z)) (rows : list WarehouseItem.t) :
  ~ In (WarehouseItem.id r) (map (fun rd => WarehouseItem.id (fst rd)) alloc) ->
  (forall r1 d1, In (r1, d1) alloc -> In r1 rows) ->
  forall r1 d1, In (r1, d1) alloc -> In r1 (write_item (touched (r, d)) rows).
Proof.
  intros Hr Hin r1 d1 H1.
  assert (WarehouseItem.id r1 <> WarehouseItem.id r).
  { intros E. apply Hr. rewrite <- E. apply in_map_iff. exists (r1, d1). auto. }
  unfold write_item. apply in_map_iff. exists r1. split; eauto.
  cbn [touched fst WarehouseItem.with_quantity WarehouseItem.id].
  now destruct (Z.eqb_spec (WarehouseItem.id r1) (WarehouseItem.id r)).
Qed.

Lemma stock_of_write_all (pid pid' : Z) (alloc : list (WarehouseItem.t * Z)) :
  forall rows : list WarehouseItem.t,
    NoDup (map WarehouseItem.id rows) ->
    NoDup (map (fun rd => WarehouseItem.id (fst rd)) alloc) ->
    (forall r d, In (r, d) alloc -> In r rows) ->
    (forall r d, In (r, d) alloc -> WarehouseItem.product_id r = pid) ->
    stock_of pid' (write_all alloc rows)
    = stock_of pid' rows - (if pid =? pid' then total_deducted alloc else 0).
Proof.
  induction alloc as [|[r d] alloc IH]; intros rows ND NDa Hin Hpid.
  - simpl. destruct (pid =? pid'); lia.
  - simpl in NDa. inversion NDa as [|? ? Hr Ha]; subst.
    cbn [write_all fold_left]. fold (write_all alloc (write_item (touched (r, d)) rows)).
    rewrite IH; auto.
    + rewrite (stock_of_write_item pid' _ r); auto.
      * rewrite (Hpid r d (or_introl eq_refl)). simpl.
        destruct (pid =? pid'); lia.
      * apply (Hin r d). now left.
    + now rewrite write_item_ids.
    + apply write_item_keeps_others; auto.
      intros r1 d1 H1. apply (Hin r1 d1). now right.
    + intros r1 d1 H1. apply (Hpid r1 d1). now right.
Qed.

Lemma moved_out_movements (ty : MovementType) (pid pid' : Z) (rem : option string)
    (alloc : list (WarehouseItem.t * Z)) :
  forall next,
    moved ty pid' (out_movements pid rem next alloc)
    = if (pid =? pid') && MovementType_eqb OUT ty then total_deducted alloc else 0.
Proof.
  induction alloc as [|[r d] alloc IH]; intros next; simpl.
  - now destruct (_ && _).
  - rewrite IH. destruct (_ && _); lia.
Qed.

Lemma perform_keeps_conservation (db : Store) (op : operation) :
  item_keys db -> conserved db -> conserved (perform db op).
Proof.
  intros K C. pose proof K as [ND _]. unfold item_ids in ND.
  unfold conserved in *. intros pid'. specialize (C pid').
  destruct op as [req|req]; simpl.
  - destruct (stock_in_store db req) as [E|[(r & F & E)|[F E]]]; rewrite E; auto;
      cbn [movements warehouse_items]; rewrite !moved_app.
    + pose proof (find_some _ _ F) as [Hin Hat]. apply item_at_true in Hat.
      destruct Hat as [Hpid _].
      rewrite (stock_of_write_item pid' _ r); auto.
      unfold in_movement. simpl. rewrite Hpid.
      destruct (StockInRequest.product_id req =? pid'); simpl; lia.
    + rewrite stock_of_app, stock_of_cons. unfold in_movement. simpl.
      unfold stock_of at 2. simpl.
      destruct (StockInRequest.product_id req =? pid'); simpl; lia.
  - destruct (stock_out_store db req) as [E|[(loc & r & F & Hq & E)|E]];
      rewrite E; auto; cbn [movements warehouse_items]; rewrite !moved_app.
    + pose proof (find_some _ _ F) as [Hin Hat]. apply item_at_true in Hat.
      destruct Hat as [Hpid _].
      rewrite (stock_of_write_item pid' _ r); auto.
      unfold out_movement. simpl. rewrite Hpid.
      destruct (StockOutRequest.product_id req =? pid'); simpl; lia.
    + rewrite !moved_out_movements.
      rewrite (stock_of_write_all (StockOutRequest.product_id req)).
      * simpl. rewrite andb_false_r, andb_true_r.
        destruct (StockOutRequest.product_id req =? pid'); lia.
      * exact ND.
      * apply allocation_ids_NoDup. now apply available_NoDup.
      * intros r d H. apply allocation_in in H. apply available_in in H. tauto.
      * intros r d H. apply allocation_in in H. apply available_in in H. tauto.
Qed.

Lemma perform_all_keeps_ledger (ops : list operation) :
  forall db, ledger_ok db -> ledger_ok (perform_all ops db).
Proof.
  induction ops as [|op ops IH]; intros db [K C]; simpl.
  - now split.
  - apply IH. split.
    + now apply perform_keeps_keys.
    + now apply perform_keeps_conservation.
Qed.

Lemma fresh_ledger_ok (db : Store) :
  warehouse_items db = [] -> movements db = [] -> ledger_ok db.
Proof.
  intros Ei Em. unfold ledger_ok, item_keys, item_ids, conserved.
  rewrite Ei, Em. simpl. repeat split; constructor.
Qed.

(** C2. Starting from a store with no stock records and no movements, after
    every prefix of every sequence of stock-in and stock-out requests, and for
    every product, the [IN] quantities minus the [OUT] quantities of the
    product's movements equal the sum of the quantities of its records. *)
Theorem conservation (db : Store) (ops : list operation) (k : nat) (pid : Z) :
  warehouse_items db = [] ->
  movements db = [] ->
  moved IN pid (movements (perform_all (firstn k ops) db))
  - moved OUT pid (movements (perform_all (firstn k ops) db))
  = stock_of pid (warehouse_items (perform_all (firstn k ops) db)).
Proof.
  intros Ei Em.
  destruct (perform_all_keeps_ledger (firstn k ops) db (fresh_ledger_ok db Ei Em))
    as [_ C].
  apply C.
Qed.

Lemma conservation_example :
  moved IN 1
    (movements
       (perform_all
          [StockIn (StockInRequest.mk 1 5 "A1" None);
           StockIn (StockInRequest.mk 1 5 "B2" None);
           StockOut (StockOutRequest.mk 1 7 None None)]
          empty_shelves))
  - moved OUT 1
      (movements
         (perform_all
            [StockIn (StockInRequest.mk 1 5 "A1" None);
             StockIn (StockInRequest.mk 1 5 "B2" None);
             StockOut (StockOutRequest.mk 1 7 None None)]
            empty_shelves))
  = stock_of 1
      (warehouse_items
         (perform_all
            [StockIn (StockInRequest.mk 1 5 "A1" None);
             StockIn (StockInRequest.mk 1 5 "B2" None);
             StockOut (StockOutRequest.mk 1 7 None None)]
            empty_shelves)).
Proof.
  apply (conservation empty_shelves
           [StockIn (StockInRequest.mk 1 5 "A1" None);
            StockIn (StockInRequest.mk 1 5 "B2" None);
            StockOut (StockOutRequest.mk 1 7 None None)]
           3%nat 1); reflexivity.
Defined.

(** ** The join and its groups *)

Lemma join_rows_in (db : Store) (it : WarehouseItem.t) (p : Product.t) :
  In (it, p) (join_rows db) <->
  In it (warehouse_items db) /\ In p (products db)
  /\ Product.id p = WarehouseItem.product_id it.
Proof.
  unfold join_rows. rewrite in_flat_map. split.
  - intros (x & Hx & H). apply in_map_iff in H. destruct H as (q & E & Hq).
    inversion E; subst. apply filter_In in Hq. rewrite Z.eqb_eq in Hq. tauto.
  - intros (Hi & Hp & E). exists it. split; auto.
    apply in_map. apply filter_In. rewrite Z.eqb_eq. tauto.
Qed.

Lemma distinct_in (x : Z) (l : list Z) : In x (distinct l) <-> In x l.
Proof.
  induction l as [|a l IH]; simpl; [tauto|].
  rewrite filter_In, IH, negb_true_iff, Z.eqb_neq.
  destruct (Z.eq_dec a x); intuition congruence.
Qed.

Lemma filter_none {A} (f : A -> bool) (l : list A) :
  (forall x, In x l -> f x = false) -> filter f l = [].
Proof.
  induction l as [|a l IH]; simpl; intros H; auto.
  rewrite (H a) by now left. apply IH. intros x Hx. apply H. now right.
Qed.

Lemma filter_all {A} (f : A -> bool) (l : list A) :
  (forall x, In x l -> f x = true) -> filter f l = l.
Proof.
  induction l as [|a l IH]; simpl; intros H; auto.
  rewrite (H a) by now left. f_equal. apply IH. intros x Hx. apply H. now right.
Qed.

Lemma product_by_key (ps : list Product.t) (p : Product.t) :
  NoDup (map Product.id ps) -> In p ps ->
  filter (fun p' => Product.id p' =? Product.id p) ps = [p].
Proof.
  induction ps as [|x ps IH]; simpl; intros ND Hin; [contradiction|].
  inversion ND as [|? ? Hx Hps]; subst.
  destruct Hin as [->|Hin].
  - rewrite Z.eqb_refl. f_equal. apply filter_none.
    intros y Hy. apply Z.eqb_neq. intros E. apply Hx. rewrite <- E. now apply in_map.
  - destruct (Z.eqb_spec (Product.id x) (Product.id p)) as [E|E].
    + exfalso. apply Hx. rewrite E. now apply in_map.
    + now apply IH.
Qed.

(** With sound product keys, the rows of the join for a product that exists
    are its stock records, one row per record, in table order. *)
Lemma group_of_join (db : Store) (k : Z) :
  product_keys db -> resolves db k ->
  map fst (group_of k (join_rows db)) = items_of k (warehouse_items db).
Proof.
  intros ND (p & Hp & Ek). unfold join_rows, group_of, items_of.
  induction (warehouse_items db) as [|it its IH]; simpl; auto.
  rewrite filter_app, map_app, IH.
  destruct (Z.eqb_spec (WarehouseItem.product_id it) k) as [E|E].
  - rewrite E, <- Ek, product_by_key by auto. simpl.
    now rewrite Z.eqb_refl.
  - rewrite filter_none; auto.
    intros [it' p'] H. apply in_map_iff in H. destruct H as (q & Eq & Hq).
    inversion Eq; subst. apply filter_In in Hq. destruct Hq as [_ Hq].
    apply Z.eqb_eq in Hq. simpl. apply Z.eqb_neq. congruence.
Qed.

Lemma group_of_in (k : Z) (rows : list (WarehouseItem.t * Product.t))
    (row : WarehouseItem.t * Product.t) :
  In row (group_of k rows) <-> In row rows /\ Product.id (snd row) = k.
Proof. unfold group_of. now rewrite filter_In, Z.eqb_eq. Qed.

Lemma items_of_in (pid : Z) (rows : list WarehouseItem.t) (it : WarehouseItem.t) :
  In it (items_of pid rows) <-> In it rows /\ WarehouseItem.product_id it = pid.
Proof. unfold items_of. now rewrite filter_In, Z.eqb_eq. Qed.

(** ** Low-stock alerts *)

Lemma low_stock_products_in (db : Store) (row : Z * string * string * Z * Z) :
  In row (low_stock_products db) <->
  exists it p g,
    group_of (Product.id p) (join_rows db) = (it, p) :: g /\
    sum_quantity (map fst ((it, p) :: g)) < sum_safety_stock (map fst ((it, p) :: g)) /\
    row = (Product.id p, Product.name p, Product.sku p,
           sum_quantity (map fst ((it, p) :: g)),
           sum_safety_stock (map fst ((it, p) :: g))).
Proof.
  unfold low_stock_products. rewrite in_flat_map. split.
  - intros (k & Hk & H).
    destruct (group_of k (join_rows db)) as [|[it p] g] eqn:G; [contradiction|].
    assert (Ek : Product.id p = k).
    { assert (Hin : In (it, p) (group_of k (join_rows db))) by (rewrite G; now left).
      apply group_of_in in Hin. tauto. }
    cbv beta iota zeta in H.
    destruct (sum_quantity (map fst ((it, p) :: g))
              <? sum_safety_stock (map fst ((it, p) :: g))) eqn:L;
      [|contradiction].
    apply Z.ltb_lt in L.
    destruct H as [<-|[]].
    exists it, p, g. rewrite Ek. auto.
  - intros (it & p & g & G & L & ->).
    exists (Product.id p). split.
    + apply distinct_in. apply in_map_iff. exists (it, p). split; auto.
      assert (Hin : In (it, p) (group_of (Product.id p) (join_rows db)))
        by (rewrite G; now left).
      apply group_of_in in Hin. tauto.
    + rewrite G. apply Z.ltb_lt in L. rewrite L. now left.
Qed.

(** C6. With sound product keys, a product id is among the low-stock alerts
    exactly when it resolves, the product has at least one stock record, and
    the sum of its records' quantities is strictly below the sum of their
    safety stocks. *)
Theorem low_stock_alert_iff (db : Store) (pid : Z) :
  product_keys db ->
  ((exists a, In a (get_low_stock_alerts db) /\ LowStockAlert.product_id a = pid) <->
   resolves db pid
   /\ items_of pid (warehouse_items db) <> []
   /\ sum_quantity (items_of pid (warehouse_items db))
      < sum_safety_stock (items_of pid (warehouse_items db))).
Proof.
  intros ND. unfold get_low_stock_alerts. split.
  - intros (a & Ha & Ea). apply in_map_iff in Ha.
    destruct Ha as (row & Er & Hrow).
    apply low_stock_products_in in Hrow.
    destruct Hrow as (it & p & g & G & L & ->).
    subst a. simpl in Ea. subst pid.
    assert (Hin : In (it, p) (group_of (Product.id p) (join_rows db)))
      by (rewrite G; now left).
    apply group_of_in in Hin. destruct Hin as [Hj _].
    apply join_rows_in in Hj. destruct Hj as (_ & Hp & _).
    assert (R : resolves db (Product.id p)) by (exists p; auto).
    pose proof (group_of_join db (Product.id p) ND R) as E.
    rewrite G in E. rewrite <- E.
    split; [exact R|]. split; [discriminate|exact L].
  - intros (R & Hne & L).
    pose proof (group_of_join db pid ND R) as E.
    destruct (group_of pid (join_rows db)) as [|[it p] g] eqn:G.
    + simpl in E. congruence.
    + assert (Hin : In (it, p) (group_of pid (join_rows db))) by (rewrite G; now left).
      apply group_of_in in Hin. destruct Hin as [_ Ep]. simpl in Ep.
      eexists. split.
      * apply in_map_iff. eexists. split; [reflexivity|].
        apply low_stock_products_in. exists it, p, g.
        rewrite Ep, G, E. auto.
      * simpl. congruence.
Qed.

Lemma low_stock_boundary :
  (exists a, In a (get_low_stock_alerts one_below) /\ LowStockAlert.product_id a = 1) /\
  ~ (exists a, In a (get_low_stock_alerts two_shelves) /\ LowStockAlert.product_id a = 1).
Proof.
  split.
  - apply (low_stock_alert_iff one_below 1).
    + unfold product_keys. simpl. repeat constructor. intros [].
    + split; [apply resolves_widget; simpl; now left|].
      split; [discriminate|]. vm_compute. reflexivity.
  - intros H. apply (low_stock_alert_iff two_shelves 1) in H.
    + destruct H as (_ & _ & L). vm_compute in L. discriminate.
    + unfold product_keys. simpl. repeat constructor. intros [].
Defined.

(** ** The overview *)

Lemma dict_update_keys {V} (k : Z) (f : V -> V) (m : dict V) :
  map fst (dict_update k f m) = map fst m.
Proof.
  unfold dict_update. rewrite map_map. apply map_ext. intros [j v]. simpl.
  now destruct (j =? k).
Qed.

Lemma dict_update_in {V} (k : Z) (f : V -> V) (m : dict V) (j : Z) (v' : V) :
  In (j, v') (dict_update k f m) ->
  exists v, In (j, v) m /\ v' = if j =? k then f v else v.
Proof.
  unfold dict_update. intros H. apply in_map_iff in H.
  destruct H as ([i v] & E & Hin). simpl in E.
  destruct (i =? k) eqn:Eik; inversion E; subst; eexists; split; eauto;
    now rewrite Eik.
Qed.

Lemma dict_mem_in {V} (k : Z) (m : dict V) :
  dict_mem k m = true <-> In k (map fst m).
Proof.
  unfold dict_mem. rewrite existsb_exists, in_map_iff. split.
  - intros (kv & Hin & E). apply Z.eqb_eq in E. eauto.
  - intros (kv & E & Hin). exists kv. rewrite Z.eqb_eq. auto.
Qed.

Lemma sum_quantity_app (a b : list WarehouseItem.t) :
  sum_quantity (a ++ b) = sum_quantity a + sum_quantity b.
Proof. induction a as [|x a IH]; simpl; lia. Qed.

Lemma group_of_snoc (k : Z) (rows : list (WarehouseItem.t * Product.t))
    (row : WarehouseItem.t * Product.t) :
  group_of k (rows ++ [row])
  = group_of k rows ++ (if row_key row =? k then [row] else []).
Proof. unfold group_of, row_key. rewrite filter_app. reflexivity. Qed.

Lemma entry_for_other (rows : list (WarehouseItem.t * Product.t))
    (row : WarehouseItem.t * Product.t) (k : Z) (e : InventoryQueryRead.t) :
  row_key row <> k -> entry_for rows k e -> entry_for (rows ++ [row]) k e.
Proof.
  intros Hk H. unfold entry_for. rewrite group_of_snoc.
  apply Z.eqb_neq in Hk. rewrite Hk, app_nil_r. exact H.
Qed.

Lemma overview_step_ok (pre : list (WarehouseItem.t * Product.t))
    (m : dict InventoryQueryRead.t) (row : WarehouseItem.t * Product.t) :
  map_ok pre m -> map_ok (pre ++ [row]) (overview_step m row).
Proof.
  intros (ND & He & Hk). destruct row as [item product].
  unfold overview_step.
  set (k := Product.id product).
  set (init := InventoryQueryRead.mk k (Product.name product) (Product.sku product) 0 []).
  set (m1 := if dict_mem k m then m else m ++ [(k, init)]).
  assert (Hm1 : forall j e, In (j, e) m1 ->
                   (In (j, e) m) \/ (j = k /\ e = init /\ group_of k pre = [])).
  { intros j e H. unfold m1 in H. destruct (dict_mem k m) eqn:M; [now left|].
    apply in_app_iff in H. destruct H as [H|[H|[]]]; [now left|].
    inversion H; subst. right. repeat split.
    destruct (group_of k pre) as [|r g] eqn:G; auto.
    assert (Hr : In r (group_of k pre)) by (rewrite G; now left).
    apply group_of_in in Hr. destruct Hr as [Hr Er].
    apply Hk in Hr. unfold row_key in Hr. rewrite Er in Hr.
    apply dict_mem_in in Hr. congruence. }
  assert (Hkeys : forall j, In j (map fst m) -> In j (map fst m1)).
  { intros j H. unfold m1. destruct (dict_mem k m); auto.
    rewrite map_app. apply in_app_iff. now left. }
  assert (Hkin : In k (map fst m1)).
  { unfold m1. destruct (dict_mem k m) eqn:M.
    - now apply dict_mem_in.
    - rewrite map_app. apply in_app_iff. right. now left. }
  assert (ND1 : NoDup (map fst m1)).
  { unfold m1. destruct (dict_mem k m) eqn:M; auto.
    rewrite map_app. simpl. apply NoDup_app; auto.
    - repeat constructor. intros [].
    - intros a Ha [<-|[]]. apply dict_mem_in in Ha. congruence. }
  split; [|split].
  - now rewrite !dict_update_keys.
  - intros j e' H.
    apply dict_update_in in H. destruct H as (e1 & H & ->).
    apply dict_update_in in H. destruct H as (e & H & ->).
    apply Hm1 in H.
    destruct (Z.eqb_spec j k) as [->|Ejk].
    + unfold entry_for. rewrite group_of_snoc. unfold row_key. simpl. fold k.
      rewrite Z.eqb_refl, !map_app, sum_quantity_app. simpl.
      destruct H as [H|(_ & -> & G)].
      * destruct (He k e H) as (Hp & Hg & Ht & Hl).
        rewrite Ht, Hl. repeat split; auto.
        -- intros C. apply app_eq_nil in C. destruct C. discriminate.
        -- lia.
      * rewrite G. simpl. repeat split; auto; [discriminate|lia].
    + destruct H as [H|(-> & _)]; [|congruence].
      apply entry_for_other; [|now apply He].
      unfold row_key. simpl. fold k. congruence.
  - intros r H. rewrite !dict_update_keys.
    apply in_app_iff in H. destruct H as [H|[<-|[]]]; auto.
Qed.

Lemma fold_overview_ok (rows : list (WarehouseItem.t * Product.t)) :
  forall pre m, map_ok pre m -> map_ok (pre ++ rows) (fold_left overview_step rows m).
Proof.
  induction rows as [|row rows IH]; intros pre m H; simpl.
  - now rewrite app_nil_r.
  - replace (pre ++ row :: rows) with ((pre ++ [row]) ++ rows)
      by (rewrite <- app_assoc; reflexivity).
    apply IH. now apply overview_step_ok.
Qed.

Lemma overview_map_ok (ilike : string -> string -> bool) (upper : string -> string)
    (db : Store) (product_name sku : option string) :
  map_ok (overview_results ilike upper db product_name sku)
         (overview_map ilike upper db product_name sku).
Proof.
  unfold overview_map.
  apply (fold_overview_ok _ [] []).
  repeat split; simpl; try constructor; intros; contradiction.
Qed.

Lemma filter_filter_implied {A} (f g : A -> bool) (l : list A) :
  (forall x, In x l -> f x = true -> g x = true) ->
  filter f (filter g l) = filter f l.
Proof.
  induction l as [|a l IH]; simpl; intros H; auto.
  assert (IH' : filter f (filter g l) = filter f l)
    by (apply IH; intros x Hx; apply H; now right).
  destruct (g a) eqn:Ga; simpl.
  - now rewrite IH'.
  - destruct (f a) eqn:Fa; auto.
    rewrite (H a (or_introl eq_refl) Fa) in Ga. discriminate.
Qed.

Lemma same_key_same_product (ps : list Product.t) (p q : Product.t) :
  NoDup (map Product.id ps) -> In p ps -> In q ps ->
  Product.id p = Product.id q -> p = q.
Proof.
  intros ND Hp Hq E.
  pose proof (product_by_key ps p ND Hp) as F.
  assert (Hin : In q (filter (fun p' => Product.id p' =? Product.id p) ps)).
  { apply filter_In. split; auto. apply Z.eqb_eq. congruence. }
  rewrite F in Hin. destruct Hin as [<-|[]]. reflexivity.
Qed.

Lemma sum_location_quantity_map (l : list WarehouseItem.t) :
  sum_location_quantity (map location_of l) = sum_quantity l.
Proof. induction l as [|x l IH]; simpl; auto. now rewrite IH. Qed.

Section OverviewFacts.

Variable ilike : string -> string -> bool.
Variable upper : string -> string.
Variable db : Store.
Variables product_name sku : option string.

(** The rows of a product that appears in the filtered join are all the
    rows of that product: the filters look at product columns only. *)
Lemma group_of_results (k : Z) :
  product_keys db ->
  group_of k (overview_results ilike upper db product_name sku) <> [] ->
  map fst (group_of k (overview_results ilike upper db product_name sku))
  = items_of k (warehouse_items db).
Proof.
  intros ND Hne.
  destruct (group_of k (overview_results ilike upper db product_name sku))
    as [|[it p] g] eqn:G; [congruence|].
  assert (Hin : In (it, p)
                   (group_of k (overview_results ilike upper db product_name sku)))
    by (rewrite G; now left).
  apply group_of_in in Hin. destruct Hin as [Hres Ek]. simpl in Ek.
  unfold overview_results in Hres.
  apply filter_In in Hres. destruct Hres as [Hres Hs].
  apply filter_In in Hres. destruct Hres as [Hj Hn].
  simpl in Hs, Hn.
  pose proof Hj as Hj'. apply join_rows_in in Hj'. destruct Hj' as (_ & Hp & _).
  assert (R : resolves db k) by (exists p; auto).
  rewrite <- G, <- (group_of_join db k ND R).
  f_equal. unfold overview_results, group_of.
  assert (Hsame : forall row, In row (join_rows db) ->
                    (Product.id (snd row) =? k) = true -> snd row = p).
  { intros [it' p'] Hrow E. simpl in *. apply Z.eqb_eq in E.
    apply join_rows_in in Hrow. destruct Hrow as (_ & Hp' & _).
    apply (same_key_same_product (products db)); auto. congruence. }
  rewrite filter_filter_implied.
  - apply filter_filter_implied.
    intros row Hrow E. now rewrite (Hsame row Hrow E).
  - intros row Hrow E. apply filter_In in Hrow. destruct Hrow as [Hrow _].
    now rewrite (Hsame row Hrow E).
Qed.

Lemma overview_all_in (e : InventoryQueryRead.t) :
  In e (overview_all ilike upper db product_name sku) ->
  entry_for (overview_results ilike upper db product_name sku)
            (InventoryQueryRead.product_id e) e.
Proof.
  unfold overview_all, dict_values. intros H. apply in_map_iff in H.
  destruct H as ([k e'] & E & Hin). simpl in E. subst e'.
  destruct (overview_map_ok ilike upper db product_name sku) as (_ & He & _).
  pose proof (He k e Hin) as Hk. destruct Hk as (Ek & _).
  rewrite Ek. now apply He.
Qed.

Lemma overview_all_keys :
  NoDup (map InventoryQueryRead.product_id
             (overview_all ilike upper db product_name sku)).
Proof.
  destruct (overview_map_ok ilike upper db product_name sku) as (ND & He & _).
  unfold overview_all, dict_values. rewrite map_map.
  erewrite map_ext_in; [exact ND|].
  intros [k e] Hin. simpl. now destruct (He k e Hin).
Qed.

End OverviewFacts.

(** ** Slices *)

Lemma in_firstn {A} (n : nat) (l : list A) (x : A) : In x (firstn n l) -> In x l.
Proof.
  intros H. rewrite <- (firstn_skipn n l). apply in_app_iff. now left.
Qed.

Lemma in_skipn {A} (n : nat) (l : list A) (x : A) : In x (skipn n l) -> In x l.
Proof.
  intros H. rewrite <- (firstn_skipn n l). apply in_app_iff. now right.
Qed.

Lemma py_slice_in {A} (l : list A) (start stop : Z) (x : A) :
  In x (py_slice l start stop) -> In x l.
Proof.
  unfold py_slice. intros H.
  apply in_firstn in H. now apply in_skipn in H.
Qed.

Lemma py_slice_page {A} (l : list A) (offset limit : Z) :
  0 <= offset -> 0 <= limit ->
  py_slice l offset (offset + limit)
  = firstn (Z.to_nat limit) (skipn (Z.to_nat offset) l).
Proof.
  intros Ho Hl. unfold py_slice, slice_bound.
  destruct (Z.ltb_spec offset 0); [lia|].
  destruct (Z.ltb_spec (offset + limit) 0); [lia|].
  destruct (Z.le_gt_cases (Z.of_nat (List.length l)) offset) as [Hn|Hn].
  - rewrite !Z.min_r by lia. rewrite Z.sub_diag. simpl.
    rewrite (skipn_all2 l) by lia. now rewrite firstn_nil.
  - rewrite (Z.min_l offset) by lia.
    destruct (Z.le_gt_cases (offset + limit) (Z.of_nat (List.length l))) as [Hm|Hm].
    + rewrite Z.min_l by lia. do 2 f_equal. lia.
    + rewrite Z.min_r by lia.
      rewrite !firstn_all2; auto; rewrite length_skipn; lia.
Qed.

Lemma product_keys_two_products : product_keys two_products.
Proof.
  unfold product_keys. simpl. repeat constructor; simpl; intuition discriminate.
Qed.

(** C10. Every entry the overview returns is consistent: its total is the sum
    of the quantities in its location list, and, with sound product keys, the
    list holds one (location, quantity) pair, in table order, for each row of
    the filtered join that belongs to the product, which are the product's
    stock records. *)
Theorem overview_entry_consistent (ilike : string -> string -> bool)
    (upper : string -> string) (db : Store) (offset limit : Z)
    (product_name sku : option string) (e : InventoryQueryRead.t) :
  product_keys db ->
  In e (get_inventory_overview ilike upper db offset limit product_name sku) ->
  InventoryQueryRead.total_quantity e
  = sum_location_quantity (InventoryQueryRead.locations e) /\
  InventoryQueryRead.locations e
  = map location_of
        (map fst (group_of (InventoryQueryRead.product_id e)
                           (overview_results ilike upper db product_name sku))) /\
  map fst (group_of (InventoryQueryRead.product_id e)
                    (overview_results ilike upper db product_name sku))
  = items_of (InventoryQueryRead.product_id e) (warehouse_items db).
Proof.
  intros ND Hin. unfold get_inventory_overview in Hin.
  apply py_slice_in in Hin. fold (overview_all ilike upper db product_name sku) in Hin.
  apply overview_all_in in Hin. destruct Hin as (_ & Hne & Ht & Hl).
  split; [|split].
  - now rewrite Ht, Hl, sum_location_quantity_map.
  - exact Hl.
  - now apply group_of_results.
Qed.

Lemma overview_entry_consistent_example :
  InventoryQueryRead.total_quantity
    (InventoryQueryRead.mk 1 "Widget" "WID-1" 7
       [LocationQuantity.mk "A1" 5; LocationQuantity.mk "C1" 2]) = 5 + (2 + 0) /\
  map fst (group_of 1 (overview_results ascii_ilike ascii_upper two_products
                                        (Some "widg") None))
  = [WarehouseItem.mk 1 1 5 "A1" 5; WarehouseItem.mk 3 1 2 "C1" 5].
Proof.
  destruct (overview_entry_consistent ascii_ilike ascii_upper two_products 0 100
              (Some "widg") None
              (InventoryQueryRead.mk 1 "Widget" "WID-1" 7
                 [LocationQuantity.mk "A1" 5; LocationQuantity.mk "C1" 2]))
    as (Ht & _ & Hg).
  - exact product_keys_two_products.
  - vm_compute. left. reflexivity.
  - split; [exact Ht|exact Hg].
Defined.

(** C8. The overview paginates the grouped entries, not the joined rows: the
    grouped entries have pairwise distinct product ids; for every offset and
    limit each returned entry is one of them and, with sound product keys,
    lists every stock record of its product; and for an offset and a limit
    that are page bounds, that is non-negative, the page is the grouped
    entries from index [offset] on, cut to [limit] entries. *)
Theorem overview_pages_grouped_entries (ilike : string -> string -> bool)
    (upper : string -> string) (db : Store) (offset limit : Z)
    (product_name sku : option string) :
  product_keys db ->
  NoDup (map InventoryQueryRead.product_id
             (overview_all ilike upper db product_name sku)) /\
  (forall e,
      In e (get_inventory_overview ilike upper db offset limit product_name sku) ->
      In e (overview_all ilike upper db product_name sku)) /\
  (forall e,
      In e (overview_all ilike upper db product_name sku) ->
      InventoryQueryRead.locations e
      = map location_of (items_of (InventoryQueryRead.product_id e)
                                  (warehouse_items db))) /\
  (0 <= offset -> 0 <= limit ->
   get_inventory_overview ilike upper db offset limit product_name sku
   = firstn (Z.to_nat limit)
            (skipn (Z.to_nat offset) (overview_all ilike upper db product_name sku))
   /\ Z.of_nat (List.length
                  (get_inventory_overview ilike upper db offset limit product_name sku))
      <= limit).
Proof.
  intros ND.
  split; [apply overview_all_keys|].
  split; [intros e; apply py_slice_in|].
  split.
  - intros e Hin. apply overview_all_in in Hin. destruct Hin as (_ & Hne & _ & Hl).
    rewrite Hl. f_equal. now apply group_of_results.
  - intros Ho Hl. unfold get_inventory_overview.
    fold (overview_all ilike upper db product_name sku).
    rewrite py_slice_page by auto. split; auto.
    pose proof (firstn_le_length (Z.to_nat limit)
                  (skipn (Z.to_nat offset)
                         (overview_all ilike upper db product_name sku))).
    lia.
Qed.

Lemma overview_second_page_example :
  get_inventory_overview ascii_ilike ascii_upper two_products 1 1 None None
  = [InventoryQueryRead.mk 2 "Gadget" "GAD-2" 3 [LocationQuantity.mk "B1" 3]].
Proof.
  destruct (overview_pages_grouped_entries ascii_ilike ascii_upper two_products 1 1
              None None product_keys_two_products) as (_ & _ & _ & H).
  destruct H as [H _]; [lia|lia|].
  rewrite H. reflexivity.
Defined.

(** Outside the page bounds the slice is Python's: with offset 0 and limit -1
    the bounds are [0:-1], which drops the last grouped entry. *)
Example overview_with_negative_limit :
  get_inventory_overview ascii_ilike ascii_upper two_products 0 (-1) None None
  = [InventoryQueryRead.mk 1 "Widget" "WID-1" 7
       [LocationQuantity.mk "A1" 5; LocationQuantity.mk "C1" 2]].
Proof. reflexivity. Qed.

(** * Further properties of the service *)

(** ** Failure of [stock_in] *)

(** X1. A [stock_in] that raises leaves the store it was called on; the only
    error it raises is the default [ProductNotFoundException], and only for a
    product id that does not resolve. *)
Theorem failed_stock_in_changes_nothing (db db' : Store) (req : StockInRequest.t)
    (e : exn) :
  stock_in req db = (Raised e, db') ->
  db' = db /\
  e = ProductNotFoundException product_not_found_default /\
  ~ resolves db (StockInRequest.product_id req).
Proof.
  unfold stock_in, begin, bind, get_product, first_item_at, update_item, insert_item,
    add_movement, raise, ret, refresh.
  destruct (find _ (products db)) as [p|] eqn:Fp.
  - destruct (find _ (warehouse_items db)) as [r|] eqn:F;
      cbn [warehouse_items WarehouseItem.id WarehouseItem.with_quantity].
    + destruct (find _ (write_item _ _)) eqn:G; [discriminate|].
      exfalso. revert G. apply find_by_id_present.
      rewrite write_item_ids. apply in_map. now apply find_some in F.
    + destruct (find _ (_ ++ _)) eqn:G; [discriminate|].
      exfalso. revert G. apply find_by_id_present.
      rewrite map_app. apply in_app_iff. right. now left.
  - intros H. inversion H; subst. repeat split.
    now apply find_product_none.
Qed.

Lemma failed_stock_in_example :
  snd (stock_in (StockInRequest.mk 9 4 "A1" None) two_shelves) = two_shelves.
Proof.
  apply (failed_stock_in_changes_nothing two_shelves _
           (StockInRequest.mk 9 4 "A1" None)
           (ProductNotFoundException product_not_found_default)).
  reflexivity.
Defined.

(** ** Errors and results of the untargeted stock-out *)

Lemma resolves_dec (db : Store) (pid : Z) : {resolves db pid} + {~ resolves db pid}.
Proof.
  destruct (find (fun p => Product.id p =? pid) (products db)) as [p|] eqn:F.
  - left. apply find_some in F. destruct F as [Hin E]. apply Z.eqb_eq in E.
    now exists p.
  - right. now apply find_product_none.
Qed.

Lemma available_empty (pid : Z) (db : Store) :
  available_of pid db = [] <->
  (forall r, In r (warehouse_items db) -> WarehouseItem.product_id r = pid ->
             WarehouseItem.quantity r <= 0).
Proof.
  split.
  - intros E r Hin Hp.
    destruct (Z.lt_ge_cases 0 (WarehouseItem.quantity r)) as [L|L]; [|lia].
    assert (H : In r (available_of pid db)) by (apply available_in; auto).
    rewrite E in H. contradiction.
  - intros H. destruct (available_of pid db) as [|a l] eqn:E; auto.
    assert (Ha : In a (available_of pid db)) by (rewrite E; now left).
    apply available_in in Ha. destruct Ha as (Hin & Hp & Hq).
    specialize (H a Hin Hp). lia.
Qed.

(** X2. For an untargeted stock-out on an existing product: it raises a
    [ProductNotFoundException] exactly when no record of the product holds a
    positive quantity, whatever the requested quantity; it raises
    [InsufficientStockException] exactly when some record is in stock and the
    in-stock total is strictly below the requested quantity; in both cases
    with the message the source gives. *)
Theorem untargeted_stock_out_errors (db : Store) (req : StockOutRequest.t) :
  item_keys db ->
  resolves db (StockOutRequest.product_id req) ->
  truthy (StockOutRequest.location req) = None ->
  ((exists d db', stock_out req db = (Raised (ProductNotFoundException d), db')) <->
   (forall r, In r (warehouse_items db) ->
              WarehouseItem.product_id r = StockOutRequest.product_id req ->
              WarehouseItem.quantity r <= 0)) /\
  ((exists d db', stock_out req db = (Raised (InsufficientStockException d), db')) <->
   (exists r, In r (warehouse_items db)
              /\ WarehouseItem.product_id r = StockOutRequest.product_id req
              /\ 0 < WarehouseItem.quantity r)
   /\ sum_quantity (available_of (StockOutRequest.product_id req) db)
      < StockOutRequest.quantity req) /\
  ((forall r, In r (warehouse_items db) ->
              WarehouseItem.product_id r = StockOutRequest.product_id req ->
              WarehouseItem.quantity r <= 0) ->
   stock_out req db = (Raised (ProductNotFoundException all_locations_empty), db)) /\
  ((exists r, In r (warehouse_items db)
              /\ WarehouseItem.product_id r = StockOutRequest.product_id req
              /\ 0 < WarehouseItem.quantity r) ->
   sum_quantity (available_of (StockOutRequest.product_id req) db)
   < StockOutRequest.quantity req ->
   stock_out req db = (Raised (InsufficientStockException total_insufficient), db)).
Proof.
  intros K Hp Hl.
  assert (Hstock : (exists r, In r (warehouse_items db)
              /\ WarehouseItem.product_id r = StockOutRequest.product_id req
              /\ 0 < WarehouseItem.quantity r) ->
              available_of (StockOutRequest.product_id req) db <> []).
  { intros (r & Hin & Hr & Hq) E. rewrite available_empty in E.
    specialize (E r Hin Hr). lia. }
  destruct (available_of (StockOutRequest.product_id req) db) as [|a l] eqn:A.
  - pose proof (stock_out_untargeted_empty db req Hp Hl A) as E.
    pose proof (proj1 (available_empty _ _) A) as Hnone.
    split; [|split; [|split]].
    + split; eauto.
    + split.
      * intros (d & db' & H). rewrite E in H. discriminate.
      * intros [Hs _]. exfalso. now apply Hstock.
    + intros _. exact E.
    + intros Hs. exfalso. now apply Hstock.
  - assert (Hne : available_of (StockOutRequest.product_id req) db <> [])
      by (rewrite A; discriminate).
    assert (Hex : exists r, In r (warehouse_items db)
              /\ WarehouseItem.product_id r = StockOutRequest.product_id req
              /\ 0 < WarehouseItem.quantity r).
    { exists a. apply available_in. rewrite A. now left. }
    assert (Hsome : ~ (forall r, In r (warehouse_items db) ->
              WarehouseItem.product_id r = StockOutRequest.product_id req ->
              WarehouseItem.quantity r <= 0)).
    { intros H. apply available_empty in H. contradiction. }
    rewrite <- A.
    destruct (Z.lt_ge_cases
                (sum_quantity (available_of (StockOutRequest.product_id req) db))
                (StockOutRequest.quantity req)) as [L|L].
    + pose proof (stock_out_untargeted_short db req Hp Hl Hne L) as E.
      split; [|split; [|split]].
      * split; [|intros H; contradiction].
        intros (d & db' & H). rewrite E in H. discriminate.
      * split; eauto.
      * intros H. contradiction.
      * intros _ _. exact E.
    + pose proof (stock_out_untargeted_ok db req K Hp Hl Hne L) as E.
      split; [|split; [|split]].
      * split; [|intros H; contradiction].
        intros (d & db' & H). rewrite E in H. discriminate.
      * split; [|intros [_ H]; lia].
        intros (d & db' & H). rewrite E in H. discriminate.
      * intros H. contradiction.
      * intros _ H. lia.
Qed.

(** A drained shelf: the product exists, its only record holds nothing. *)
Lemma untargeted_stock_out_on_drained_shelf :
  stock_out (StockOutRequest.mk 1 1 None None)
            (mkStore [widget] [WarehouseItem.mk 1 1 0 "A1" 5] [] 2 1)
  = (Raised (ProductNotFoundException all_locations_empty),
     mkStore [widget] [WarehouseItem.mk 1 1 0 "A1" 5] [] 2 1).
Proof.
  destruct (untargeted_stock_out_errors
              (mkStore [widget] [WarehouseItem.mk 1 1 0 "A1" 5] [] 2 1)
              (StockOutRequest.mk 1 1 None None)) as (_ & _ & H & _).
  - split.
    + unfold item_ids. simpl. repeat constructor. intros [].
    + repeat constructor; simpl; lia.
  - apply resolves_widget. simpl. now left.
  - reflexivity.
  - apply H. simpl. intros r [<-|[]] _. simpl. lia.
Defined.

(** X3. A [stock_out] of a positive quantity that returns never returns
    [None]: it returns a record of the requested product, and that record is
    a row of the store it leaves. *)
Theorem stock_out_returns_a_record (db db' : Store) (req : StockOutRequest.t)
    (o : option WarehouseItem.t) :
  item_keys db ->
  0 < StockOutRequest.quantity req ->
  stock_out req db = (Returned o, db') ->
  exists r, o = Some r
            /\ WarehouseItem.product_id r = StockOutRequest.product_id req
            /\ In r (warehouse_items db').
Proof.
  intros K Hq H.
  destruct (resolves_dec db (StockOutRequest.product_id req)) as [Hp|Hp];
    [|rewrite (stock_out_unresolved db req Hp) in H; discriminate].
  destruct (truthy (StockOutRequest.location req)) as [loc|] eqn:Hl.
  - destruct (find (item_at (StockOutRequest.product_id req) loc) (warehouse_items db))
      as [r|] eqn:F;
      [|rewrite (stock_out_targeted_absent db req loc Hp Hl F) in H; discriminate].
    destruct (Z.lt_ge_cases (WarehouseItem.quantity r) (StockOutRequest.quantity req))
      as [L|L];
      [rewrite (stock_out_targeted_short db req loc r Hp Hl F L) in H; discriminate|].
    destruct (stock_out_targeted_ok db req loc r K Hp Hl F L) as (l1 & l2 & _ & E).
    rewrite E in H. inversion H; subst. eexists. split; [reflexivity|]. split.
    + simpl. apply find_some in F. destruct F as [_ F]. now apply item_at_true in F.
    + simpl. apply in_app_iff. right. now left.
  - destruct (available_of (StockOutRequest.product_id req) db) as [|a l] eqn:A;
      [rewrite (stock_out_untargeted_empty db req Hp Hl A) in H; discriminate|].
    assert (Hne : available_of (StockOutRequest.product_id req) db <> [])
      by (rewrite A; discriminate).
    destruct (Z.lt_ge_cases
                (sum_quantity (available_of (StockOutRequest.product_id req) db))
                (StockOutRequest.quantity req)) as [L|L];
      [rewrite (stock_out_untargeted_short db req Hp Hl Hne L) in H; discriminate|].
    rewrite (stock_out_untargeted_ok db req K Hp Hl Hne L) in H.
    assert (Ha : In a (available_of (StockOutRequest.product_id req) db))
      by (rewrite A; now left).
    apply available_in in Ha. destruct Ha as (Hin & Hpa & _).
    rewrite A in H. simpl in H.
    destruct (Z.eqb_spec (StockOutRequest.quantity req) 0) as [E0|E0]; [lia|].
    simpl in H. inversion H; subst. eexists. split; [reflexivity|]. split.
    + exact Hpa.
    + simpl. unfold after_allocation. apply in_map_iff. exists a. split; auto.
      rewrite deduction_for_cons, Z.eqb_refl. reflexivity.
Qed.

Lemma stock_out_returns_a_record_example :
  exists r,
    Some (WarehouseItem.mk 1 1 0 "A1" 5) = Some r
    /\ WarehouseItem.product_id r = 1
    /\ In r (warehouse_items
               (snd (stock_out (StockOutRequest.mk 1 7 None None) two_shelves))).
Proof.
  apply (stock_out_returns_a_record two_shelves _ (StockOutRequest.mk 1 7 None None)).
  - exact item_keys_two_shelves.
  - simpl. lia.
  - reflexivity.
Defined.

(** ** What an operation adds *)

Lemma write_all_length (alloc : list (WarehouseItem.t * Z)) :
  forall rows, List.length (write_all alloc rows) = List.length rows.
Proof.
  intros rows.
  rewrite <- (length_map WarehouseItem.id (write_all alloc rows)), write_all_ids.
  apply length_map.
Qed.

Lemma out_movements_length (pid : Z) (rem : option string)
    (alloc : list (WarehouseItem.t * Z)) :
  forall next, List.length (out_movements pid rem next alloc) = List.length alloc.
Proof.
  induction alloc as [|[r d] alloc IH]; intros next; simpl; auto.
Qed.

(** X4. No operation, whether it returns or raises, touches the product
    table, removes or rewrites a movement, or removes a record: the movement
    log and the list of record ids only grow at the end, and each counter
    advances by the number of rows added. *)
Theorem operations_only_append (db : Store) (op : operation) :
  products (perform db op) = products db /\
  (exists added,
      movements (perform db op) = movements db ++ added /\
      next_movement_id (perform db op)
      = next_movement_id db + Z.of_nat (List.length added)) /\
  (exists created,
      item_ids (perform db op) = item_ids db ++ created /\
      next_item_id (perform db op) = next_item_id db + Z.of_nat (List.length created)).
Proof.
  assert (Hsame : forall db1, db1 = db ->
    products db1 = products db /\
    (exists added, movements db1 = movements db ++ added /\
       next_movement_id db1 = next_movement_id db + Z.of_nat (List.length added)) /\
    (exists created, item_ids db1 = item_ids db ++ created /\
       next_item_id db1 = next_item_id db + Z.of_nat (List.length created))).
  { intros db1 ->. split; auto.
    split; exists []; rewrite app_nil_r; simpl; split; auto; lia. }
  unfold item_ids in *.
  destruct op as [req|req]; simpl.
  - destruct (stock_in_store db req) as [E|[(r & F & E)|[F E]]]; rewrite E; auto; simpl.
    + split; auto. split.
      * eexists. split; [reflexivity|]. simpl. lia.
      * exists []. rewrite write_item_ids, app_nil_r. simpl. split; auto; lia.
    + split; auto. split.
      * eexists. split; [reflexivity|]. simpl. lia.
      * eexists. rewrite map_app. split; [reflexivity|]. simpl. lia.
  - destruct (stock_out_store db req) as [E|[(loc & r & F & Hq & E)|E]];
      rewrite E; auto; simpl.
    + split; auto. split.
      * eexists. split; [reflexivity|]. simpl. lia.
      * exists []. rewrite write_item_ids, app_nil_r. simpl. split; auto; lia.
    + split; auto. split.
      * eexists. split; [reflexivity|]. now rewrite out_movements_length.
      * exists []. rewrite write_all_ids, app_nil_r. simpl. split; auto; lia.
Qed.

Lemma out_movements_in (pid : Z) (rem : option string)
    (alloc : list (WarehouseItem.t * Z)) (m : Movement.t) :
  forall next,
    In m (out_movements pid rem next alloc) ->
    exists r d, In (r, d) alloc
                /\ Movement.product_id m = pid
                /\ Movement.warehouse_item_id m = Some (WarehouseItem.id r)
                /\ Movement.movement_type m = OUT
                /\ Movement.quantity m = d.
Proof.
  induction alloc as [|[r d] alloc IH]; intros next H; simpl in H; [contradiction|].
  destruct H as [<-|H].
  - exists r, d. simpl. repeat split; auto.
  - destruct (IH _ H) as (r1 & d1 & Hin & Hm). exists r1, d1. split; auto. now right.
Qed.

(** X5. Every movement that a request of positive quantity adds has a
    positive quantity, carries the product id of the request, and has
    direction [IN] for a stock-in and [OUT] for a stock-out; in particular the
    untargeted walk never records a movement of zero. *)
Theorem added_movements_are_positive (db : Store) (op : operation) :
  valid_request op ->
  exists added,
    movements (perform db op) = movements db ++ added /\
    Forall (fun m => 0 < Movement.quantity m
                     /\ Movement.movement_type m = direction op
                     /\ Movement.product_id m = product_of op) added.
Proof.
  intros Hv. destruct op as [req|req]; simpl in *.
  - destruct (stock_in_store db req) as [E|[(r & F & E)|[F E]]]; rewrite E; simpl.
    + exists []. rewrite app_nil_r. split; auto.
    + eexists. split; [reflexivity|]. repeat constructor; auto.
    + eexists. split; [reflexivity|]. repeat constructor; auto.
  - destruct (stock_out_store db req) as [E|[(loc & r & F & Hq & E)|E]];
      rewrite E; simpl.
    + exists []. rewrite app_nil_r. split; auto.
    + eexists. split; [reflexivity|]. repeat constructor; auto.
    + eexists. split; [reflexivity|]. apply Forall_forall. intros m Hm.
      apply out_movements_in in Hm.
      destruct Hm as (r & d & Hin & Hp & _ & Ht & Hd).
      unfold plan in Hin.
      apply (allocation_bounds _ (available_positive _ db)) in Hin; [|lia].
      repeat split; auto. lia.
Qed.

Lemma added_movements_are_positive_example :
  exists added,
    movements (perform two_shelves (StockOut (StockOutRequest.mk 1 7 None None)))
    = movements two_shelves ++ added /\
    Forall (fun m => 0 < Movement.quantity m
                     /\ Movement.movement_type m = OUT
                     /\ Movement.product_id m = 1) added.
Proof.
  apply (added_movements_are_positive two_shelves
           (StockOut (StockOutRequest.mk 1 7 None None))).
  simpl. lia.
Defined.

(** ** Movements per record *)

Lemma moved_at_app (ty : MovementType) (rid : Z) (a b : list Movement.t) :
  moved_at ty rid (a ++ b) = moved_at ty rid a + moved_at ty rid b.
Proof.
  induction a as [|m a IH]; simpl; auto.
  destruct (_ && _); lia.
Qed.

Lemma moved_at_unlinked (ty : MovementType) (rid : Z) (ms : list Movement.t) :
  (forall m, In m ms -> linked_to rid m = false) -> moved_at ty rid ms = 0.
Proof.
  induction ms as [|m ms IH]; simpl; intros H; auto.
  rewrite (H m (or_introl eq_refl)). simpl. apply IH. intros x Hx. apply H. now right.
Qed.

Lemma moved_at_out_movements (ty : MovementType) (rid pid : Z) (rem : option string)
    (alloc : list (WarehouseItem.t * Z)) :
  NoDup (map (fun rd => WarehouseItem.id (fst rd)) alloc) ->
  forall next,
    moved_at ty rid (out_movements pid rem next alloc)
    = if MovementType_eqb OUT ty then deduction_for rid alloc else 0.
Proof.
  induction alloc as [|[r d] alloc IH]; intros ND next.
  - unfold deduction_for. now destruct ty.
  - simpl in ND. inversion ND as [|? ? Hr Ha]; subst.
    cbn [out_movements moved_at fold_right].
    fold (moved_at ty rid (out_movements pid rem (next + 1) alloc)).
    rewrite IH by auto. rewrite deduction_for_cons.
    unfold linked_to. cbn [Movement.warehouse_item_id Movement.movement_type
                           Movement.quantity].
    destruct (Z.eqb_spec (WarehouseItem.id r) rid) as [E|E].
    + rewrite deduction_for_absent by (rewrite <- E; exact Hr).
      destruct ty; simpl; lia.
    + reflexivity.
Qed.

Lemma write_item_record_keys (it : WarehouseItem.t) (rows : list WarehouseItem.t) :
  record_keys (write_item it rows) = record_keys rows.
Proof.
  unfold record_keys, write_item. rewrite map_map. apply map_ext. intros r.
  now destruct (WarehouseItem.id r =? WarehouseItem.id it).
Qed.

Lemma write_all_record_keys (alloc : list (WarehouseItem.t * Z)) :
  forall rows, record_keys (write_all alloc rows) = record_keys rows.
Proof.
  induction alloc as [|rd alloc IH]; intros rows; simpl; auto.
  fold (write_all alloc (write_item (touched rd) rows)).
  now rewrite IH, write_item_record_keys.
Qed.

Lemma has_record_keys (rows : list WarehouseItem.t) (m : Movement.t) :
  has_record rows m <->
  exists i p, In (i, p) (record_keys rows)
              /\ Movement.warehouse_item_id m = Some i /\ Movement.product_id m = p.
Proof.
  unfold has_record, record_keys. split.
  - intros (r & Hin & Hi & Hp). eexists. eexists. split; [|split; eauto].
    apply in_map_iff. exists r. auto.
  - intros (i & p & Hin & Hi & Hp). apply in_map_iff in Hin.
    destruct Hin as (r & E & Hin). inversion E; subst. exists r. auto.
Qed.

Lemma has_record_more (rows rows' : list WarehouseItem.t) (m : Movement.t) :
  (forall k, In k (record_keys rows) -> In k (record_keys rows')) ->
  has_record rows m -> has_record rows' m.
Proof.
  intros Hsub H. apply has_record_keys in H. apply has_record_keys.
  destruct H as (i & p & Hin & H). exists i, p. auto.
Qed.

Lemma linked_unlinked_fresh (db : Store) :
  item_keys db -> linked db ->
  forall m, In m (movements db) -> linked_to (next_item_id db) m = false.
Proof.
  intros [_ F] L m Hm. destruct (L m Hm) as (r & Hin & Hi & _).
  unfold linked_to. rewrite Hi. apply Z.eqb_neq.
  rewrite Forall_forall in F. specialize (F r Hin). lia.
Qed.

(** ** The ledger invariant is kept *)

(** Rewriting the quantity of one record and recording the matching
    movement. *)
Lemma sound_after_write (db : Store) (r : WarehouseItem.t) (ty : MovementType)
    (q : Z) (rem : option string) :
  ledger_sound db -> In r (warehouse_items db) ->
  ledger_sound
    (mkStore (products db)
       (write_item
          (WarehouseItem.with_quantity
             (WarehouseItem.quantity r + match ty with IN => q | OUT => - q end) r)
          (warehouse_items db))
       (movements db ++
          [Movement.mk (next_movement_id db) (WarehouseItem.product_id r)
                       (Some (WarehouseItem.id r)) ty q rem])
       (next_item_id db) (next_movement_id db + 1)).
Proof.
  intros (K & L & R) Hin. pose proof K as [ND _]. unfold item_ids in ND.
  split; [|split].
  - apply (item_keys_same_ids db); auto. unfold item_ids. simpl. apply write_item_ids.
  - intros m Hm. simpl in Hm. apply in_app_iff in Hm. simpl.
    destruct Hm as [Hm|[<-|[]]].
    + apply (has_record_more (warehouse_items db)); [|now apply L].
      now rewrite write_item_record_keys.
    + apply has_record_keys. exists (WarehouseItem.id r), (WarehouseItem.product_id r).
      rewrite write_item_record_keys. repeat split; auto.
      unfold record_keys. apply in_map_iff. exists r. auto.
  - intros x' Hx'. cbn [warehouse_items movements] in *.
    unfold write_item in Hx'. apply in_map_iff in Hx'. destruct Hx' as (x & Ex & Hx).
    rewrite !moved_at_app. specialize (R x Hx).
    cbn [moved_at fold_right linked_to Movement.warehouse_item_id
         Movement.movement_type Movement.quantity].
    cbn [WarehouseItem.id WarehouseItem.with_quantity WarehouseItem.quantity] in Ex.
    destruct (Z.eqb_spec (WarehouseItem.id x) (WarehouseItem.id r)) as [E|E].
    + assert (x = r) by (eapply same_id_same_row; eauto). subst x x'.
      cbn [WarehouseItem.id WarehouseItem.with_quantity WarehouseItem.quantity].
      rewrite Z.eqb_refl. destruct ty; simpl; lia.
    + subst x'. destruct (Z.eqb_spec (WarehouseItem.id r) (WarehouseItem.id x));
        [congruence|]. simpl. lia.
Qed.

Lemma sound_after_insert (db : Store) (pid q : Z) (loc : string) (rem : option string) :
  ledger_sound db ->
  ledger_sound
    (mkStore (products db)
       (warehouse_items db ++ [WarehouseItem.mk (next_item_id db) pid q loc 5])
       (movements db ++
          [Movement.mk (next_movement_id db) pid (Some (next_item_id db)) IN q rem])
       (next_item_id db + 1) (next_movement_id db + 1)).
Proof.
  intros (K & L & R).
  pose proof (linked_unlinked_fresh db K L) as Hfresh.
  split; [|split].
  - now apply item_keys_insert.
  - intros m Hm. simpl in Hm. apply in_app_iff in Hm. simpl.
    destruct Hm as [Hm|[<-|[]]].
    + destruct (L m Hm) as (r & Hin & H). exists r. split; auto.
      apply in_app_iff. now left.
    + eexists. split; [apply in_app_iff; right; now left|]. split; reflexivity.
  - intros x Hx. cbn [warehouse_items movements] in *.
    rewrite !moved_at_app.
    cbn [moved_at fold_right linked_to Movement.warehouse_item_id
         Movement.movement_type Movement.quantity].
    apply in_app_iff in Hx. destruct Hx as [Hx|[<-|[]]].
    + specialize (R x Hx). destruct K as [_ F].
      rewrite Forall_forall in F. specialize (F x Hx).
      destruct (Z.eqb_spec (next_item_id db) (WarehouseItem.id x)); [lia|].
      simpl. lia.
    + cbn [WarehouseItem.id WarehouseItem.quantity].
      rewrite Z.eqb_refl, !moved_at_unlinked by auto. simpl. lia.
Qed.

Lemma sound_after_allocation (db : Store) (req : StockOutRequest.t) :
  ledger_sound db ->
  ledger_sound
    (mkStore (products db)
       (write_all (plan db req) (warehouse_items db))
       (movements db ++
          out_movements (StockOutRequest.product_id req) (StockOutRequest.remarks req)
                        (next_movement_id db) (plan db req))
       (next_item_id db)
       (next_movement_id db + Z.of_nat (List.length (plan db req)))).
Proof.
  intros (K & L & R). pose proof K as [ND _].
  assert (NDa : NoDup (map (fun rd => WarehouseItem.id (fst rd)) (plan db req))).
  { apply allocation_ids_NoDup. now apply available_NoDup. }
  assert (Hsub : forall r d, In (r, d) (plan db req) ->
                   In r (warehouse_items db)
                   /\ WarehouseItem.product_id r = StockOutRequest.product_id req).
  { intros r d H. apply allocation_in in H. apply available_in in H. tauto. }
  split; [|split].
  - apply (item_keys_same_ids db); auto. unfold item_ids. simpl. apply write_all_ids.
  - intros m Hm. simpl in Hm. apply in_app_iff in Hm. simpl.
    destruct Hm as [Hm|Hm].
    + apply (has_record_more (warehouse_items db)); [|now apply L].
      now rewrite write_all_record_keys.
    + apply out_movements_in in Hm.
      destruct Hm as (r & d & Hin & Hp & Hi & _).
      destruct (Hsub r d Hin) as [Hr Hpr].
      apply has_record_keys. exists (WarehouseItem.id r), (WarehouseItem.product_id r).
      rewrite write_all_record_keys. split; [|split; congruence].
      unfold record_keys. apply in_map_iff. exists r. auto.
  - unfold replayed. cbn [warehouse_items movements].
    rewrite write_all_after_allocation; auto; [|intros r d H; now apply (Hsub r d)].
    intros x' Hx'. unfold after_allocation in Hx'. apply in_map_iff in Hx'.
    destruct Hx' as (x & <- & Hx). specialize (R x Hx).
    rewrite !moved_at_app, !moved_at_out_movements by auto.
    cbn [WarehouseItem.id WarehouseItem.with_quantity WarehouseItem.quantity
         MovementType_eqb]. lia.
Qed.

Lemma perform_keeps_sound (db : Store) (op : operation) :
  ledger_sound db -> ledger_sound (perform db op).
Proof.
  intros S. destruct op as [req|req]; simpl.
  - destruct (stock_in_store db req) as [E|[(r & F & E)|[F E]]]; rewrite E; auto.
    + pose proof (find_some _ _ F) as [Hin Hat]. apply item_at_true in Hat.
      destruct Hat as [Hp _].
      pose proof (sound_after_write db r IN (StockInRequest.quantity req)
                    (StockInRequest.remarks req) S Hin) as H.
      unfold in_movement. now rewrite <- Hp.
    + now apply sound_after_insert.
  - destruct (stock_out_store db req) as [E|[(loc & r & F & Hq & E)|E]];
      rewrite E; auto.
    + pose proof (find_some _ _ F) as [Hin Hat]. apply item_at_true in Hat.
      destruct Hat as [Hp _].
      pose proof (sound_after_write db r OUT (StockOutRequest.quantity req)
                    (StockOutRequest.remarks req) S Hin) as H.
      unfold out_movement. rewrite <- Hp. exact H.
    + now apply sound_after_allocation.
Qed.

Lemma perform_all_keeps_sound (ops : list operation) :
  forall db, ledger_sound db -> ledger_sound (perform_all ops db).
Proof.
  induction ops as [|op ops IH]; intros db S; simpl; auto.
  apply IH. now apply perform_keeps_sound.
Qed.

Lemma fresh_ledger_sound (db : Store) :
  warehouse_items db = [] -> movements db = [] -> ledger_sound db.
Proof.
  intros Ei Em. unfold ledger_sound, item_keys, item_ids, linked, replayed.
  rewrite Ei, Em. simpl. repeat split; try constructor; intros; contradiction.
Qed.

(** X6. Starting from a store with no stock records and no movements, after
    any sequence of stock-in and stock-out requests, replaying the movements
    linked to a record ([IN] adds, [OUT] subtracts) gives exactly the quantity
    the record holds. *)
Theorem movements_replay_to_quantity (db : Store) (ops : list operation)
    (r : WarehouseItem.t) :
  warehouse_items db = [] ->
  movements db = [] ->
  In r (warehouse_items (perform_all ops db)) ->
  moved_at IN (WarehouseItem.id r) (movements (perform_all ops db))
  - moved_at OUT (WarehouseItem.id r) (movements (perform_all ops db))
  = WarehouseItem.quantity r.
Proof.
  intros Ei Em Hin.
  destruct (perform_all_keeps_sound ops db (fresh_ledger_sound db Ei Em)) as (_ & _ & R).
  now apply R.
Qed.

Lemma movements_replay_example :
  moved_at IN 2
    (movements
       (perform_all
          [StockIn (StockInRequest.mk 1 5 "A1" None);
           StockIn (StockInRequest.mk 1 5 "B2" None);
           StockOut (StockOutRequest.mk 1 7 None None)] empty_shelves))
  - moved_at OUT 2
      (movements
         (perform_all
            [StockIn (StockInRequest.mk 1 5 "A1" None);
             StockIn (StockInRequest.mk 1 5 "B2" None);
             StockOut (StockOutRequest.mk 1 7 None None)] empty_shelves))
  = 3.
Proof.
  apply (movements_replay_to_quantity empty_shelves
           [StockIn (StockInRequest.mk 1 5 "A1" None);
            StockIn (StockInRequest.mk 1 5 "B2" None);
            StockOut (StockOutRequest.mk 1 7 None None)]
           (WarehouseItem.mk 2 1 3 "B2" 5)); try reflexivity.
  simpl. right. now left.
Defined.

(** ** One record per (product, location) *)

Lemma write_item_places (it : WarehouseItem.t) (rows : list WarehouseItem.t) :
  map place (write_item it rows) = map place rows.
Proof.
  unfold write_item. rewrite map_map. apply map_ext. intros r.
  now destruct (WarehouseItem.id r =? WarehouseItem.id it).
Qed.

Lemma write_all_places (alloc : list (WarehouseItem.t * Z)) :
  forall rows, map place (write_all alloc rows) = map place rows.
Proof.
  induction alloc as [|rd alloc IH]; intros rows; simpl; auto.
  fold (write_all alloc (write_item (touched rd) rows)).
  now rewrite IH, write_item_places.
Qed.

Lemma perform_keeps_location_keys (db : Store) (op : operation) :
  location_keys db -> location_keys (perform db op).
Proof.
  unfold location_keys. intros ND. destruct op as [req|req]; simpl.
  - destruct (stock_in_store db req) as [E|[(r & F & E)|[F E]]]; rewrite E; auto; simpl.
    + now rewrite write_item_places.
    + rewrite map_app. simpl. apply NoDup_app; auto.
      * repeat constructor. intros [].
      * intros a Ha [<-|[]]. apply in_map_iff in Ha. destruct Ha as (x & Ex & Hx).
        pose proof (find_none _ _ F x Hx) as N.
        unfold place in Ex. inversion Ex as [[Ep El]].
        assert (item_at (StockInRequest.product_id req)
                        (StockInRequest.location req) x = true)
          by (apply item_at_true; auto).
        congruence.
  - destruct (stock_out_store db req) as [E|[(loc & r & F & Hq & E)|E]];
      rewrite E; auto; simpl.
    + now rewrite write_item_places.
    + now rewrite write_all_places.
Qed.

Lemma NoDup_map_same {A B} (f : A -> B) (l : list A) (a b : A) :
  NoDup (map f l) -> In a l -> In b l -> f a = f b -> a = b.
Proof.
  induction l as [|x l IH]; simpl; intros ND Ha Hb E; [contradiction|].
  inversion ND as [|? ? Hx Hl]; subst.
  destruct Ha as [<-|Ha], Hb as [<-|Hb]; auto.
  - exfalso. apply Hx. rewrite E. now apply in_map.
  - exfalso. apply Hx. rewrite <- E. now apply in_map.
Qed.

(** X7. Starting from a store with no stock records, after any sequence of
    stock-in and stock-out requests there is at most one record per (product,
    location): [stock_in] looks the pair up before it creates a row, and no
    operation moves a record. *)
Theorem one_record_per_location (db : Store) (ops : list operation)
    (r1 r2 : WarehouseItem.t) :
  warehouse_items db = [] ->
  In r1 (warehouse_items (perform_all ops db)) ->
  In r2 (warehouse_items (perform_all ops db)) ->
  WarehouseItem.product_id r1 = WarehouseItem.product_id r2 ->
  WarehouseItem.location r1 = WarehouseItem.location r2 ->
  r1 = r2.
Proof.
  intros Ei H1 H2 Ep El.
  assert (K : location_keys (perform_all ops db)).
  { assert (K0 : location_keys db) by (unfold location_keys; rewrite Ei; constructor).
    clear - K0. revert db K0.
    induction ops as [|op ops IH]; intros db K0; simpl; auto.
    apply IH. now apply perform_keeps_location_keys. }
  apply (NoDup_map_same place _ r1 r2 K H1 H2).
  unfold place. congruence.
Qed.

Lemma one_record_per_location_example :
  WarehouseItem.mk 1 1 9 "A1" 5 = WarehouseItem.mk 1 1 9 "A1" 5.
Proof.
  apply (one_record_per_location empty_shelves
           [StockIn (StockInRequest.mk 1 5 "A1" None);
            StockIn (StockInRequest.mk 1 4 "A1" None)]);
    try reflexivity; simpl; now left.
Defined.

(** ** Referential integrity *)

Lemma perform_products (db : Store) (op : operation) :
  products (perform db op) = products db.
Proof.
  destruct op as [req|req]; simpl.
  - destruct (stock_in_store db req) as [E|[(r & F & E)|[F E]]]; now rewrite E.
  - destruct (stock_out_store db req) as [E|[(loc & r & F & Hq & E)|E]]; now rewrite E.
Qed.

Lemma records_resolve_keys (db : Store) :
  records_resolve db <->
  (forall i p, In (i, p) (record_keys (warehouse_items db)) -> resolves db p).
Proof.
  unfold records_resolve, record_keys. split.
  - intros H i p Hin. apply in_map_iff in Hin. destruct Hin as (r & E & Hr).
    inversion E; subst. now apply H.
  - intros H r Hr. apply (H (WarehouseItem.id r)). apply in_map_iff. exists r. auto.
Qed.

Lemma resolves_same_products (db db1 : Store) (pid : Z) :
  products db1 = products db -> resolves db pid -> resolves db1 pid.
Proof. unfold resolves. intros ->. auto. Qed.

Lemma perform_keeps_records_resolve (db : Store) (op : operation) :
  records_resolve db -> records_resolve (perform db op).
Proof.
  intros R.
  assert (Hkeys : forall db1,
             products db1 = products db ->
             record_keys (warehouse_items db1) = record_keys (warehouse_items db) ->
             records_resolve db1).
  { intros db1 Ep Ek. apply records_resolve_keys. rewrite Ek. intros i p Hin.
    apply (resolves_same_products db); auto.
    apply (proj1 (records_resolve_keys db) R i p Hin). }
  destruct op as [req|req]; simpl.
  - destruct (resolves_dec db (StockInRequest.product_id req)) as [Hp|Hp];
      [|now rewrite (stock_in_unresolved db req Hp)].
    destruct (stock_in_store db req) as [E|[(r & F & E)|[F E]]]; rewrite E; auto.
    + apply Hkeys; auto. simpl. apply write_item_record_keys.
    + intros x Hx. simpl in Hx. apply in_app_iff in Hx.
      destruct Hx as [Hx|[<-|[]]].
      * apply (resolves_same_products db); auto.
      * exact Hp.
  - destruct (stock_out_store db req) as [E|[(loc & r & F & Hq & E)|E]];
      rewrite E; auto.
    + apply Hkeys; auto. simpl. apply write_item_record_keys.
    + apply Hkeys; auto. simpl. apply write_all_record_keys.
Qed.

(** X8. Starting from a store with no stock records and no movements, after
    any sequence of stock-in and stock-out requests every movement is linked
    to a record that is in the store and belongs to the movement's product,
    and every record belongs to a product that is in the store. *)
Theorem references_stay_sound (db : Store) (ops : list operation) :
  warehouse_items db = [] ->
  movements db = [] ->
  (forall m, In m (movements (perform_all ops db)) ->
     exists r, In r (warehouse_items (perform_all ops db))
               /\ Movement.warehouse_item_id m = Some (WarehouseItem.id r)
               /\ Movement.product_id m = WarehouseItem.product_id r) /\
  (forall r, In r (warehouse_items (perform_all ops db)) ->
     exists p, In p (products (perform_all ops db))
               /\ Product.id p = WarehouseItem.product_id r).
Proof.
  intros Ei Em. split.
  - destruct (perform_all_keeps_sound ops db (fresh_ledger_sound db Ei Em))
      as (_ & L & _).
    exact L.
  - assert (R0 : records_resolve db)
      by (unfold records_resolve; rewrite Ei; intros r []).
    clear Ei Em. revert db R0.
    induction ops as [|op ops IH]; intros db R0; simpl; auto.
    apply IH. now apply perform_keeps_records_resolve.
Qed.

Lemma references_stay_sound_example :
  exists r,
    In r (warehouse_items
            (perform_all [StockIn (StockInRequest.mk 1 5 "A1" None)] empty_shelves))
    /\ Some 1 = Some (WarehouseItem.id r)
    /\ 1 = WarehouseItem.product_id r.
Proof.
  destruct (references_stay_sound empty_shelves
              [StockIn (StockInRequest.mk 1 5 "A1" None)]) as [L _];
    try reflexivity.
  apply (L (Movement.mk 1 1 (Some 1) IN 5 None)).
  simpl. now left.
Defined.

(** ** The effect of a request on the stock of a product *)

(** X9. An operation of positive quantity that returns changes the stock of
    the requested product by exactly the requested quantity (up for a
    stock-in, down for a stock-out, however many records an untargeted
    stock-out touches) and leaves the stock of every other product as it
    was. *)
Theorem returned_operation_moves_the_request (db : Store) (op : operation) (pid : Z) :
  item_keys db ->
  valid_request op ->
  returns db op ->
  stock_of pid (warehouse_items (perform db op))
  = stock_of pid (warehouse_items db)
    + (if product_of op =? pid
       then match direction op with
            | IN => quantity_of op
            | OUT => - quantity_of op
            end
       else 0).
Proof.
  intros K Hv Hr. pose proof K as [ND _]. unfold item_ids in ND.
  destruct op as [req|req]; simpl in *; destruct Hr as [it Hr].
  - destruct (resolves_dec db (StockInRequest.product_id req)) as [Hp|Hp];
      [|rewrite (stock_in_unresolved db req Hp) in Hr; discriminate].
    destruct (find (item_at (StockInRequest.product_id req)
                            (StockInRequest.location req)) (warehouse_items db))
      as [r|] eqn:F.
    + destruct (stock_in_existing db req r K Hp F) as (l1 & l2 & Es & E).
      rewrite E. simpl. rewrite Es, !stock_of_app, !stock_of_cons. simpl.
      apply find_some in F. destruct F as [_ F]. apply item_at_true in F.
      destruct F as [-> _].
      destruct (StockInRequest.product_id req =? pid); lia.
    + rewrite (stock_in_new db req K Hp F). simpl.
      rewrite stock_of_app, stock_of_cons. simpl.
      change (stock_of pid []) with 0.
      destruct (StockInRequest.product_id req =? pid); lia.
  - destruct (resolves_dec db (StockOutRequest.product_id req)) as [Hp|Hp];
      [|rewrite (stock_out_unresolved db req Hp) in Hr; discriminate].
    destruct (truthy (StockOutRequest.location req)) as [loc|] eqn:Hl.
    + destruct (find (item_at (StockOutRequest.product_id req) loc)
                     (warehouse_items db)) as [r|] eqn:F;
        [|rewrite (stock_out_targeted_absent db req loc Hp Hl F) in Hr; discriminate].
      destruct (Z.lt_ge_cases (WarehouseItem.quantity r)
                              (StockOutRequest.quantity req)) as [L|L];
        [rewrite (stock_out_targeted_short db req loc r Hp Hl F L) in Hr;
         discriminate|].
      destruct (stock_out_targeted_ok db req loc r K Hp Hl F L) as (l1 & l2 & Es & E).
      rewrite E. simpl. rewrite Es, !stock_of_app, !stock_of_cons. simpl.
      apply find_some in F. destruct F as [_ F]. apply item_at_true in F.
      destruct F as [-> _].
      destruct (StockOutRequest.product_id req =? pid); lia.
    + destruct (available_of (StockOutRequest.product_id req) db) as [|a l] eqn:A;
        [rewrite (stock_out_untargeted_empty db req Hp Hl A) in Hr; discriminate|].
      assert (Hne : available_of (StockOutRequest.product_id req) db <> [])
        by (rewrite A; discriminate).
      destruct (Z.lt_ge_cases
                  (sum_quantity (available_of (StockOutRequest.product_id req) db))
                  (StockOutRequest.quantity req)) as [L|L];
        [rewrite (stock_out_untargeted_short db req Hp Hl Hne L) in Hr;
         discriminate|].
      rewrite (stock_out_untargeted_ok db req K Hp Hl Hne L). simpl.
      assert (NDa := allocation_ids_NoDup _ (StockOutRequest.quantity req)
                       (available_NoDup (StockOutRequest.product_id req) db ND)).
      assert (Hsub : forall r d,
                 In (r, d) (allocation (available_of (StockOutRequest.product_id req) db)
                                       (StockOutRequest.quantity req)) ->
                 In r (warehouse_items db)
                 /\ WarehouseItem.product_id r = StockOutRequest.product_id req).
      { intros r d H. apply allocation_in in H. apply available_in in H. tauto. }
      rewrite <- write_all_after_allocation; auto;
        [|intros r d H; now apply (Hsub r d)].
      rewrite (stock_of_write_all (StockOutRequest.product_id req)); auto.
      * rewrite allocation_total;
          [|apply available_positive|lia].
        destruct (StockOutRequest.product_id req =? pid); lia.
      * intros r d H. now apply (Hsub r d).
      * intros r d H. now apply (Hsub r d).
Qed.

Lemma returned_operation_moves_the_request_example :
  stock_of 1 (warehouse_items
                (perform two_shelves (StockOut (StockOutRequest.mk 1 7 None None))))
  = stock_of 1 (warehouse_items two_shelves) + - 7.
Proof.
  apply (returned_operation_moves_the_request two_shelves
           (StockOut (StockOutRequest.mk 1 7 None None)) 1).
  - exact item_keys_two_shelves.
  - simpl. lia.
  - simpl. eexists. reflexivity.
Defined.

(** ** Stock-in followed by stock-out *)

Lemma find_map_invariant {A} (f : A -> bool) (g : A -> A) (l : list A) :
  (forall x, f (g x) = f x) -> find f (map g l) = option_map g (find f l).
Proof.
  intros H. induction l as [|a l IH]; simpl; auto.
  rewrite H. now destruct (f a).
Qed.

Lemma write_item_ext (a b : WarehouseItem.t) (rows : list WarehouseItem.t) :
  WarehouseItem.id a = WarehouseItem.id b ->
  WarehouseItem.quantity a = WarehouseItem.quantity b ->
  write_item a rows = write_item b rows.
Proof. intros Ei Eq. unfold write_item. now rewrite Ei, Eq. Qed.

Lemma write_item_twice (a b : WarehouseItem.t) (rows : list WarehouseItem.t) :
  WarehouseItem.id a = WarehouseItem.id b ->
  write_item a (write_item b rows) = write_item a rows.
Proof.
  intros E. unfold write_item. rewrite map_map. apply map_ext. intros x.
  rewrite E.
  destruct (Z.eqb_spec (WarehouseItem.id x) (WarehouseItem.id b)) as [Ex|Ex]; simpl.
  - now rewrite Ex, Z.eqb_refl.
  - destruct (Z.eqb_spec (WarehouseItem.id x) (WarehouseItem.id b)); [contradiction|].
    reflexivity.
Qed.

Lemma write_item_same (r : WarehouseItem.t) (rows : list WarehouseItem.t) :
  NoDup (map WarehouseItem.id rows) -> In r rows -> write_item r rows = rows.
Proof.
  intros ND Hin. apply in_split in Hin. destruct Hin as (l1 & l2 & ->).
  rewrite write_item_split by auto. now rewrite with_quantity_same.
Qed.

Lemma find_item_at_write_item (pid : Z) (loc : string) (it : WarehouseItem.t)
    (rows : list WarehouseItem.t) :
  find (item_at pid loc) (write_item it rows)
  = option_map
      (fun r => if WarehouseItem.id r =? WarehouseItem.id it
                then WarehouseItem.with_quantity (WarehouseItem.quantity it) r
                else r)
      (find (item_at pid loc) rows).
Proof.
  unfold write_item. apply find_map_invariant. intros x.
  now destruct (WarehouseItem.id x =? WarehouseItem.id it).
Qed.

(** The rows of the model after a stock-in of [q] and a targeted stock-out of
    [q] at the same place. *)
Lemma stock_in_then_stock_out_rows (db : Store) (pid q : Z) (loc : string)
    (rem_in rem_out : option string) (r : WarehouseItem.t) :
  item_keys db ->
  resolves db pid ->
  loc <> "" ->
  find (item_at pid loc) (warehouse_items db) = Some r ->
  0 <= WarehouseItem.quantity r ->
  warehouse_items
    (perform (perform db (StockIn (StockInRequest.mk pid q loc rem_in)))
             (StockOut (StockOutRequest.mk pid q (Some loc) rem_out)))
  = warehouse_items db /\
  movements
    (perform (perform db (StockIn (StockInRequest.mk pid q loc rem_in)))
             (StockOut (StockOutRequest.mk pid q (Some loc) rem_out)))
  = movements db ++
      [Movement.mk (next_movement_id db) pid (Some (WarehouseItem.id r)) IN q rem_in;
       Movement.mk (next_movement_id db + 1) pid (Some (WarehouseItem.id r)) OUT q
                   rem_out].
Proof.
  intros K Hp Hne F Hq.
  pose proof (perform_keeps_keys db (StockIn (StockInRequest.mk pid q loc rem_in)) K)
    as K1.
  pose proof K as [ND _]. unfold item_ids in ND.
  pose proof (find_some _ _ F) as [Hin _].
  remember (WarehouseItem.with_quantity (WarehouseItem.quantity r + q) r) as r1 eqn:Er1.
  assert (E1 : perform db (StockIn (StockInRequest.mk pid q loc rem_in))
               = mkStore (products db) (write_item r1 (warehouse_items db))
                   (movements db ++
                      [Movement.mk (next_movement_id db) pid
                                   (Some (WarehouseItem.id r)) IN q rem_in])
                   (next_item_id db) (next_movement_id db + 1)).
  { simpl.
    destruct (stock_in_existing db (StockInRequest.mk pid q loc rem_in) r K Hp F)
      as (l1 & l2 & Es & E).
    rewrite E. simpl. rewrite Es, Er1. rewrite write_item_split; auto.
    now rewrite <- Es. }
  rewrite E1 in *. clear E1.
  set (db1 := mkStore (products db) (write_item r1 (warehouse_items db))
                (movements db ++
                   [Movement.mk (next_movement_id db) pid
                                (Some (WarehouseItem.id r)) IN q rem_in])
                (next_item_id db) (next_movement_id db + 1)) in *.
  assert (F1 : find (item_at pid loc) (warehouse_items db1) = Some r1).
  { unfold db1. cbn [warehouse_items]. rewrite find_item_at_write_item, F. simpl.
    rewrite Er1. cbn [WarehouseItem.id WarehouseItem.with_quantity
                       WarehouseItem.quantity].
    now rewrite Z.eqb_refl. }
  assert (Hl : truthy (StockOutRequest.location
                         (StockOutRequest.mk pid q (Some loc) rem_out)) = Some loc)
    by (now apply truthy_some).
  assert (Hp1 : resolves db1 (StockOutRequest.product_id
                                (StockOutRequest.mk pid q (Some loc) rem_out)))
    by exact Hp.
  assert (Hq1 : StockOutRequest.quantity (StockOutRequest.mk pid q (Some loc) rem_out)
                <= WarehouseItem.quantity r1).
  { rewrite Er1. simpl. lia. }
  destruct (stock_out_targeted_ok db1 _ loc r1 K1 Hp1 Hl F1 Hq1)
    as (l1 & l2 & Es & E).
  cbn [perform]. rewrite E. cbn [snd warehouse_items movements].
  split.
  - destruct K1 as [ND1 _]. unfold item_ids in ND1.
    rewrite Es in ND1.
    pose proof (write_item_split
                  (WarehouseItem.with_quantity
                     (WarehouseItem.quantity r1
                      - StockOutRequest.quantity
                          (StockOutRequest.mk pid q (Some loc) rem_out)) r1)
                  r1 l1 l2 ND1 eq_refl) as Hw.
    cbn [WarehouseItem.quantity WarehouseItem.with_quantity] in Hw.
    cbn [WarehouseItem.quantity WarehouseItem.with_quantity].
    rewrite <- Hw, <- Es. unfold db1. cbn [warehouse_items].
    rewrite write_item_twice by reflexivity.
    rewrite (write_item_ext _ r).
    + now apply write_item_same.
    + now rewrite Er1.
    + rewrite Er1. simpl. lia.
  - unfold out_movement, db1. cbn [movements next_movement_id StockOutRequest.product_id
      StockOutRequest.quantity StockOutRequest.remarks].
    rewrite <- app_assoc. rewrite Er1. reflexivity.
Qed.

(** X10. When a record with a non-negative quantity exists at (product,
    location), a stock-in of [q] there followed by a targeted stock-out of
    [q] from there leaves every record with the id, product, quantity,
    location and safety stock it had, in the same table order; what remains of
    the pair is one [IN] and one [OUT] movement of [q] on that record.  The
    modification time of the record, which both calls overwrite, is not among
    the columns compared. *)
Theorem stock_in_then_stock_out_restores (db : Store) (pid q : Z) (loc : string)
    (rem_in rem_out : option string) (r : WarehouseItem.t) :
  item_keys db ->
  resolves db pid ->
  loc <> "" ->
  find (item_at pid loc) (warehouse_items db) = Some r ->
  0 <= WarehouseItem.quantity r ->
  map stock_columns
      (warehouse_items
         (perform (perform db (StockIn (StockInRequest.mk pid q loc rem_in)))
                  (StockOut (StockOutRequest.mk pid q (Some loc) rem_out))))
  = map stock_columns (warehouse_items db) /\
  movements
    (perform (perform db (StockIn (StockInRequest.mk pid q loc rem_in)))
             (StockOut (StockOutRequest.mk pid q (Some loc) rem_out)))
  = movements db ++
      [Movement.mk (next_movement_id db) pid (Some (WarehouseItem.id r)) IN q rem_in;
       Movement.mk (next_movement_id db + 1) pid (Some (WarehouseItem.id r)) OUT q
                   rem_out].
Proof.
  intros K Hp Hne F Hq.
  destruct (stock_in_then_stock_out_rows db pid q loc rem_in rem_out r K Hp Hne F Hq)
    as [Hrows Hms].
  split; [now rewrite Hrows|exact Hms].
Qed.

Lemma stock_in_then_stock_out_example :
  map stock_columns
      (warehouse_items
         (perform (perform two_shelves (StockIn (StockInRequest.mk 1 4 "B2" None)))
                  (StockOut (StockOutRequest.mk 1 4 (Some "B2") None))))
  = [(1, 1, 5, "A1", 5); (2, 1, 5, "B2", 5)].
Proof.
  apply (stock_in_then_stock_out_restores two_shelves 1 4 "B2" None None
           (WarehouseItem.mk 2 1 5 "B2" 5)).
  - exact item_keys_two_shelves.
  - apply resolves_widget. simpl. now left.
  - discriminate.
  - reflexivity.
  - simpl. lia.
Defined.

(** ** Draining a product *)

Lemma allocation_all (records : list WarehouseItem.t) :
  Forall (fun r => 0 < WarehouseItem.quantity r) records ->
  allocation records (sum_quantity records)
  = map (fun r => (r, WarehouseItem.quantity r)) records.
Proof.
  induction 1 as [|r records Hr Hall IH]; simpl; auto.
  pose proof (sum_quantity_nonneg _ Hall) as Hs.
  destruct (Z.eqb_spec (WarehouseItem.quantity r + sum_quantity records) 0); [lia|].
  rewrite Z.min_l by lia.
  replace (WarehouseItem.quantity r + sum_quantity records - WarehouseItem.quantity r)
    with (sum_quantity records) by lia.
  now rewrite IH.
Qed.

Lemma deduction_for_cases (pk : Z) (alloc : list (WarehouseItem.t * Z)) :
  (exists r d, In (r, d) alloc /\ WarehouseItem.id r = pk /\ deduction_for pk alloc = d)
  \/ deduction_for pk alloc = 0.
Proof.
  unfold deduction_for.
  destruct (find _ alloc) as [[r d]|] eqn:F; [left|now right].
  apply find_some in F. destruct F as [Hin E]. simpl in E. apply Z.eqb_eq in E.
  exists r, d. auto.
Qed.

Lemma deduction_for_in (alloc : list (WarehouseItem.t * Z)) (r : WarehouseItem.t) (d : Z) :
  NoDup (map (fun rd => WarehouseItem.id (fst rd)) alloc) ->
  In (r, d) alloc -> deduction_for (WarehouseItem.id r) alloc = d.
Proof.
  induction alloc as [|[x dx] alloc IH]; simpl; intros ND Hin; [contradiction|].
  inversion ND as [|? ? Hx Ha]; subst. rewrite deduction_for_cons.
  destruct Hin as [Hin|Hin].
  - inversion Hin; subst. now rewrite Z.eqb_refl.
  - destruct (Z.eqb_spec (WarehouseItem.id x) (WarehouseItem.id r)) as [E|E]; auto.
    exfalso. apply Hx. rewrite E. apply in_map_iff. exists (r, d). auto.
Qed.

(** X11. An untargeted stock-out of exactly the in-stock total of a product
    leaves no record of that product with a positive quantity; from then on
    every untargeted stock-out on the product, whatever the quantity, raises
    the [ProductNotFoundException] for empty locations although the product
    exists. *)
Theorem draining_stock_out (db : Store) (req : StockOutRequest.t) :
  item_keys db ->
  resolves db (StockOutRequest.product_id req) ->
  truthy (StockOutRequest.location req) = None ->
  0 < StockOutRequest.quantity req ->
  StockOutRequest.quantity req
  = sum_quantity (available_of (StockOutRequest.product_id req) db) ->
  (forall r, In r (warehouse_items (perform db (StockOut req))) ->
             WarehouseItem.product_id r = StockOutRequest.product_id req ->
             WarehouseItem.quantity r <= 0) /\
  (forall q rem,
      stock_out (StockOutRequest.mk (StockOutRequest.product_id req) q None rem)
                (perform db (StockOut req))
      = (Raised (ProductNotFoundException all_locations_empty),
         perform db (StockOut req))).
Proof.
  intros K Hp Hl Hq Hsum. pose proof K as [ND _]. unfold item_ids in ND.
  assert (Hne : available_of (StockOutRequest.product_id req) db <> []).
  { intros E. rewrite E in Hsum. simpl in Hsum. lia. }
  assert (Hle : StockOutRequest.quantity req
                <= sum_quantity (available_of (StockOutRequest.product_id req) db))
    by lia.
  pose proof (stock_out_untargeted_ok db req K Hp Hl Hne Hle) as E.
  assert (NDa := allocation_ids_NoDup _ (StockOutRequest.quantity req)
                   (available_NoDup (StockOutRequest.product_id req) db ND)).
  assert (Hall : forall r, In r (warehouse_items (perform db (StockOut req))) ->
             WarehouseItem.product_id r = StockOutRequest.product_id req ->
             WarehouseItem.quantity r <= 0).
  { cbn [perform]. rewrite E. cbn [snd warehouse_items].
    intros x' Hx' Hpx. unfold after_allocation in Hx'. apply in_map_iff in Hx'.
    destruct Hx' as (x & <- & Hx). simpl in Hpx. simpl.
    destruct (Z.lt_ge_cases 0 (WarehouseItem.quantity x)) as [Lx|Lx].
    - assert (Ha : In x (available_of (StockOutRequest.product_id req) db))
        by (apply available_in; auto).
      rewrite (deduction_for_in _ x (WarehouseItem.quantity x)); auto; [lia|].
      rewrite Hsum, allocation_all by apply available_positive.
      apply in_map_iff. exists x. auto.
    - destruct (deduction_for_cases (WarehouseItem.id x)
                  (allocation (available_of (StockOutRequest.product_id req) db)
                              (StockOutRequest.quantity req)))
        as [(r & d & Hin & Ei & _)|E0]; [|lia].
      apply allocation_in in Hin. apply available_in in Hin.
      destruct Hin as (Hr & _ & Hqr).
      assert (r = x) by (eapply same_id_same_row; eauto). subst r. lia. }
  split; [exact Hall|].
  intros q rem. apply stock_out_untargeted_empty.
  - apply (resolves_same_products db); auto.
    apply (perform_products db (StockOut req)).
  - reflexivity.
  - apply available_empty. exact Hall.
Qed.

Lemma draining_stock_out_example :
  stock_out (StockOutRequest.mk 1 1 None None)
            (perform two_shelves (StockOut (StockOutRequest.mk 1 10 None None)))
  = (Raised (ProductNotFoundException all_locations_empty),
     perform two_shelves (StockOut (StockOutRequest.mk 1 10 None None))).
Proof.
  destruct (draining_stock_out two_shelves (StockOutRequest.mk 1 10 None None))
    as [_ H].
  - exact item_keys_two_shelves.
  - apply resolves_widget. simpl. now left.
  - reflexivity.
  - simpl. lia.
  - reflexivity.
  - apply (H 1 None).
Defined.

(** ** The walk drains every touched record but the last *)

Lemma allocation_zero (records : list WarehouseItem.t) : allocation records 0 = [].
Proof. now destruct records. Qed.

Lemma allocation_full_before_last (records : list WarehouseItem.t) :
  forall remaining pre last,
    allocation records remaining = pre ++ [last] ->
    forall r d, In (r, d) pre -> d = WarehouseItem.quantity r.
Proof.
  induction records as [|x records IH]; intros rem pre last E r d Hin; simpl in E.
  - now destruct pre.
  - destruct (Z.eqb_spec rem 0) as [E0|E0]; [now destruct pre|].
    destruct pre as [|[x0 d0] pre]; [contradiction|].
    simpl in E. inversion E as [[Ex Ed Erest]]. subst x0.
    destruct Hin as [Hin|Hin].
    + inversion Hin; subst r d.
      destruct (Z.eq_dec (Z.min (WarehouseItem.quantity x) rem) rem) as [Em|Em];
        [|lia].
      rewrite Em, Z.sub_diag, allocation_zero in Erest. now destruct pre.
    + eapply IH; eauto.
Qed.

(** X20. An untargeted stock-out empties the records it touches in id order:
    every touched record except the last one of the walk is deducted in full
    and holds zero afterwards, so at most one touched record keeps a
    remainder. *)
Theorem untargeted_stock_out_drains_in_order (db : Store) (req : StockOutRequest.t)
    (pre : list (WarehouseItem.t * Z)) (last : WarehouseItem.t * Z) :
  item_keys db ->
  resolves db (StockOutRequest.product_id req) ->
  truthy (StockOutRequest.location req) = None ->
  0 < StockOutRequest.quantity req ->
  StockOutRequest.quantity req
  <= sum_quantity (available_of (StockOutRequest.product_id req) db) ->
  plan db req = pre ++ [last] ->
  forall r d,
    In (r, d) pre ->
    d = WarehouseItem.quantity r /\
    In (WarehouseItem.with_quantity 0 r)
       (warehouse_items (perform db (StockOut req))).
Proof.
  intros K Hp Hl Hq Hsum Eplan r d Hin. pose proof K as [ND _]. unfold item_ids in ND.
  assert (Hne : available_of (StockOutRequest.product_id req) db <> []).
  { intros E. rewrite E in Hsum. simpl in Hsum. lia. }
  assert (Ed : d = WarehouseItem.quantity r)
    by (eapply allocation_full_before_last; eauto).
  split; [exact Ed|].
  cbn [perform]. rewrite (stock_out_untargeted_ok db req K Hp Hl Hne Hsum).
  cbn [snd warehouse_items]. fold (plan db req).
  assert (Hplan : In (r, d) (plan db req))
    by (rewrite Eplan; apply in_app_iff; now left).
  assert (Hr : In r (warehouse_items db)).
  { unfold plan in Hplan. apply allocation_in in Hplan.
    apply available_in in Hplan. tauto. }
  unfold after_allocation. apply in_map_iff. exists r. split; auto.
  rewrite (deduction_for_in (plan db req) r d); auto.
  - now rewrite Ed, Z.sub_diag.
  - apply allocation_ids_NoDup. now apply available_NoDup.
Qed.

Lemma untargeted_stock_out_drains_example :
  5 = WarehouseItem.quantity (WarehouseItem.mk 1 1 5 "A1" 5) /\
  In (WarehouseItem.with_quantity 0 (WarehouseItem.mk 1 1 5 "A1" 5))
     (warehouse_items
        (perform two_shelves (StockOut (StockOutRequest.mk 1 7 None None)))).
Proof.
  apply (untargeted_stock_out_drains_in_order two_shelves
           (StockOutRequest.mk 1 7 None None)
           [(WarehouseItem.mk 1 1 5 "A1" 5, 5)] (WarehouseItem.mk 2 1 5 "B2" 5, 2)).
  - exact item_keys_two_shelves.
  - apply resolves_widget. simpl. now left.
  - reflexivity.
  - simpl. lia.
  - vm_compute. discriminate.
  - reflexivity.
  - now left.
Defined.

(** * Further properties of the aggregates *)

(** ** Which products the overview lists *)

Lemma overview_has_entry (ilike : string -> string -> bool) (upper : string -> string)
    (db : Store) (product_name sku : option string) (row : WarehouseItem.t * Product.t) :
  In row (overview_results ilike upper db product_name sku) ->
  exists e, In e (overview_all ilike upper db product_name sku)
            /\ entry_for (overview_results ilike upper db product_name sku)
                         (row_key row) e.
Proof.
  intros Hrow.
  destruct (overview_map_ok ilike upper db product_name sku) as (_ & He & Hk).
  specialize (Hk row Hrow). apply in_map_iff in Hk.
  destruct Hk as ([k e] & Ek & Hin). simpl in Ek. subst k.
  exists e. split; [|now apply He].
  unfold overview_all, dict_values. apply in_map_iff. exists (row_key row, e). auto.
Qed.

(** X12. The grouped overview has an entry for a product id exactly when some
    product with that id passes the name and SKU filters and some stock
    record refers to it: products without records, and records of products
    that fail a filter, contribute nothing. *)
Theorem overview_lists_products_with_records (ilike : string -> string -> bool)
    (upper : string -> string) (db : Store) (product_name sku : option string)
    (pid : Z) :
  (exists e, In e (overview_all ilike upper db product_name sku)
             /\ InventoryQueryRead.product_id e = pid) <->
  (exists p it, In p (products db) /\ In it (warehouse_items db)
                /\ Product.id p = pid /\ WarehouseItem.product_id it = pid
                /\ name_filter ilike product_name p = true
                /\ sku_filter upper sku p = true).
Proof.
  split.
  - intros (e & Hin & Ee). apply overview_all_in in Hin. rewrite Ee in Hin.
    destruct Hin as (_ & Hne & _).
    destruct (group_of pid (overview_results ilike upper db product_name sku))
      as [|[it p] g] eqn:G; [congruence|].
    assert (Hrow : In (it, p)
                      (group_of pid (overview_results ilike upper db product_name sku)))
      by (rewrite G; now left).
    apply group_of_in in Hrow. destruct Hrow as [Hres Ek]. simpl in Ek.
    unfold overview_results in Hres.
    apply filter_In in Hres. destruct Hres as [Hres Hs].
    apply filter_In in Hres. destruct Hres as [Hj Hn].
    apply join_rows_in in Hj. destruct Hj as (Hi & Hp & Ep).
    exists p, it. simpl in *. repeat split; auto. congruence.
  - intros (p & it & Hp & Hi & Ep & Ei & Hn & Hs).
    assert (Hrow : In (it, p) (overview_results ilike upper db product_name sku)).
    { unfold overview_results. apply filter_In. split; auto.
      apply filter_In. split; auto. apply join_rows_in. repeat split; auto.
      congruence. }
    destruct (overview_has_entry _ _ _ _ _ _ Hrow) as (e & Hin & He).
    exists e. split; auto. destruct He as [He _]. unfold row_key in He. simpl in He.
    congruence.
Qed.

(** ** Pages *)

Lemma firstn_add_skipn {A} (a b : nat) (l : list A) :
  firstn a l ++ firstn b (skipn a l) = firstn (a + b) l.
Proof.
  revert l. induction a as [|a IH]; intros l; simpl; auto.
  destruct l as [|x l]; simpl.
  - now rewrite firstn_nil.
  - now rewrite IH.
Qed.

(** X13. For non-negative offset and limits, a page followed by the page that
    starts where it ends is the page of the combined limit: walking the
    overview page by page neither loses nor repeats an entry. *)
Theorem consecutive_pages_concatenate (ilike : string -> string -> bool)
    (upper : string -> string) (db : Store) (offset limit1 limit2 : Z)
    (product_name sku : option string) :
  0 <= offset -> 0 <= limit1 -> 0 <= limit2 ->
  get_inventory_overview ilike upper db offset limit1 product_name sku
  ++ get_inventory_overview ilike upper db (offset + limit1) limit2 product_name sku
  = get_inventory_overview ilike upper db offset (limit1 + limit2) product_name sku.
Proof.
  intros Ho H1 H2. unfold get_inventory_overview.
  rewrite !py_slice_page by lia.
  rewrite (Z2Nat.inj_add offset limit1) by lia.
  rewrite (Nat.add_comm (Z.to_nat offset)), <- skipn_skipn.
  rewrite (Z2Nat.inj_add limit1 limit2) by lia.
  apply firstn_add_skipn.
Qed.

Lemma consecutive_pages_example :
  get_inventory_overview ascii_ilike ascii_upper two_products 0 1 None None
  ++ get_inventory_overview ascii_ilike ascii_upper two_products 1 1 None None
  = get_inventory_overview ascii_ilike ascii_upper two_products 0 2 None None.
Proof.
  apply (consecutive_pages_concatenate ascii_ilike ascii_upper two_products 0 1 1);
    lia.
Defined.

Lemma py_slice_length {A} (l : list A) (start stop : Z) :
  Z.of_nat (List.length (py_slice l start stop))
  = Z.max 0 (slice_bound (Z.of_nat (List.length l)) stop
             - slice_bound (Z.of_nat (List.length l)) start).
Proof.
  unfold py_slice. rewrite length_firstn, length_skipn.
  unfold slice_bound.
  destruct (Z.ltb_spec start 0), (Z.ltb_spec stop 0); lia.
Qed.

(** X14. For a non-negative limit the page never has more than [limit]
    entries, also when the offset is negative and is read from the end of the
    list; and an offset at or past the number of grouped entries gives the
    empty page. *)
Theorem page_within_limit (ilike : string -> string -> bool)
    (upper : string -> string) (db : Store) (offset limit : Z)
    (product_name sku : option string) :
  0 <= limit ->
  Z.of_nat (List.length
              (get_inventory_overview ilike upper db offset limit product_name sku))
  <= limit /\
  (Z.of_nat (List.length (overview_all ilike upper db product_name sku)) <= offset ->
   get_inventory_overview ilike upper db offset limit product_name sku = []).
Proof.
  intros Hl. unfold get_inventory_overview.
  fold (overview_all ilike upper db product_name sku). split.
  - rewrite py_slice_length. unfold slice_bound.
    destruct (Z.ltb_spec offset 0), (Z.ltb_spec (offset + limit) 0); lia.
  - intros Ho. apply length_zero_iff_nil.
    apply Nat2Z.inj. rewrite py_slice_length. unfold slice_bound.
    destruct (Z.ltb_spec offset 0), (Z.ltb_spec (offset + limit) 0); lia.
Qed.

Lemma page_within_limit_example :
  Z.of_nat (List.length
              (get_inventory_overview ascii_ilike ascii_upper two_products (-1) 5
                                      None None))
  <= 5.
Proof.
  apply (page_within_limit ascii_ilike ascii_upper two_products (-1) 5 None None).
  lia.
Defined.

(** ** What a low-stock alert carries *)

Lemma distinct_NoDup (l : list Z) : NoDup (distinct l).
Proof.
  induction l as [|a l IH]; simpl; constructor.
  - intros H. apply filter_In in H. destruct H as [_ H].
    now rewrite Z.eqb_refl in H.
  - now apply NoDup_filter.
Qed.

Lemma NoDup_flat_map_keys {A} (key : A -> Z) (f : Z -> list A) (ks : list Z) :
  NoDup ks ->
  (forall k a, In a (f k) -> key a = k) ->
  (forall k, (List.length (f k) <= 1)%nat) ->
  NoDup (map key (flat_map f ks)).
Proof.
  intros ND Hkey Hone. induction ND as [|k ks Hk ND IH]; simpl; [constructor|].
  rewrite map_app. apply NoDup_app; auto.
  - specialize (Hone k). destruct (f k) as [|a [|b l]]; simpl in *;
      [constructor|repeat constructor; intros []|lia].
  - intros x Hx Hx'. apply in_map_iff in Hx. destruct Hx as (a & <- & Ha).
    apply Hkey in Ha. apply in_map_iff in Hx'. destruct Hx' as (b & Eb & Hb).
    apply in_flat_map in Hb. destruct Hb as (k' & Hk' & Hb).
    apply Hkey in Hb. apply Hk. congruence.
Qed.

Lemma low_stock_products_keys (db : Store) :
  NoDup (map (fun row => match row with (k, _, _, _, _) => k end)
             (low_stock_products db)).
Proof.
  unfold low_stock_products. apply NoDup_flat_map_keys.
  - apply distinct_NoDup.
  - intros k a Ha.
    destruct (group_of k (join_rows db)) as [|[it p] g]; [contradiction|].
    cbv beta iota zeta in Ha.
    destruct (_ <? _); [|contradiction]. destruct Ha as [<-|[]]. reflexivity.
  - intros k.
    destruct (group_of k (join_rows db)) as [|[it p] g]; simpl; [lia|].
    destruct (_ <? _); simpl; lia.
Qed.

(** X15. With sound product keys, the alerts hold at most one alert per
    product, and each alert carries the name and SKU of its product, the sum
    of the quantities and the sum of the safety stocks of all the product's
    records, with the first strictly below the second, and one (location,
    quantity) pair for every record of the product, not only for the
    locations that are themselves below their threshold. *)
Theorem low_stock_alert_contents (db : Store) :
  product_keys db ->
  NoDup (map LowStockAlert.product_id (get_low_stock_alerts db)) /\
  (forall a, In a (get_low_stock_alerts db) ->
     (exists p, In p (products db)
                /\ Product.id p = LowStockAlert.product_id a
                /\ Product.name p = LowStockAlert.product_name a
                /\ Product.sku p = LowStockAlert.sku a) /\
     LowStockAlert.current_stock a
     = sum_quantity (items_of (LowStockAlert.product_id a) (warehouse_items db)) /\
     LowStockAlert.safety_stock a
     = sum_safety_stock (items_of (LowStockAlert.product_id a) (warehouse_items db)) /\
     LowStockAlert.current_stock a < LowStockAlert.safety_stock a /\
     LowStockAlert.location_details a
     = map location_of (items_of (LowStockAlert.product_id a) (warehouse_items db))).
Proof.
  intros ND. split.
  - unfold get_low_stock_alerts. rewrite map_map.
    erewrite map_ext; [apply low_stock_products_keys|].
    now intros [[[[k n] s] c] t].
  - intros a Ha. unfold get_low_stock_alerts in Ha. apply in_map_iff in Ha.
    destruct Ha as (row & <- & Hrow).
    apply low_stock_products_in in Hrow.
    destruct Hrow as (it & p & g & G & L & ->).
    assert (Hin : In (it, p) (group_of (Product.id p) (join_rows db)))
      by (rewrite G; now left).
    apply group_of_in in Hin. destruct Hin as [Hj _].
    apply join_rows_in in Hj. destruct Hj as (_ & Hp & _).
    assert (R : resolves db (Product.id p)) by (exists p; auto).
    pose proof (group_of_join db (Product.id p) ND R) as E.
    rewrite G in E. cbn [LowStockAlert.product_id LowStockAlert.product_name
      LowStockAlert.sku LowStockAlert.current_stock LowStockAlert.safety_stock
      LowStockAlert.location_details].
    rewrite <- E. repeat split; auto.
    exists p. auto.
Qed.

Lemma low_stock_alert_contents_example :
  NoDup (map LowStockAlert.product_id (get_low_stock_alerts one_below)).
Proof.
  apply (low_stock_alert_contents one_below).
  unfold product_keys. simpl. repeat constructor. intros [].
Defined.

(** X16. With sound product keys, every low-stock alert agrees with the
    unfiltered overview: the overview has an entry for the alert's product
    whose total is the alert's current stock and whose location list is the
    alert's location list. *)
Theorem low_stock_alert_agrees_with_overview (ilike : string -> string -> bool)
    (upper : string -> string) (db : Store) (a : LowStockAlert.t) :
  product_keys db ->
  In a (get_low_stock_alerts db) ->
  exists e,
    In e (overview_all ilike upper db None None) /\
    InventoryQueryRead.product_id e = LowStockAlert.product_id a /\
    InventoryQueryRead.total_quantity e = LowStockAlert.current_stock a /\
    InventoryQueryRead.locations e = LowStockAlert.location_details a.
Proof.
  intros ND Ha. unfold get_low_stock_alerts in Ha. apply in_map_iff in Ha.
  destruct Ha as (row & <- & Hrow).
  apply low_stock_products_in in Hrow.
  destruct Hrow as (it & p & g & G & L & ->).
  assert (Hin : In (it, p) (group_of (Product.id p) (join_rows db)))
    by (rewrite G; now left).
  apply group_of_in in Hin. destruct Hin as [Hj _].
  pose proof Hj as Hj'. apply join_rows_in in Hj'. destruct Hj' as (_ & Hp & _).
  assert (R : resolves db (Product.id p)) by (exists p; auto).
  pose proof (group_of_join db (Product.id p) ND R) as E. rewrite G in E.
  assert (Hrow : In (it, p) (overview_results ilike upper db None None)).
  { unfold overview_results. apply filter_In. split; auto.
    apply filter_In. split; auto. }
  destruct (overview_has_entry _ _ _ _ _ _ Hrow) as (e & He & Hk & Hne & Ht & Hl).
  unfold row_key in *. simpl in Hk, Hne, Ht, Hl.
  pose proof (group_of_results ilike upper db None None (Product.id p) ND Hne) as Eg.
  exists e. split; auto.
  cbn [LowStockAlert.product_id LowStockAlert.current_stock
       LowStockAlert.location_details].
  rewrite Ht, Hl, Eg, E. auto.
Qed.

Lemma low_stock_alert_agrees_with_overview_example :
  exists e,
    In e (overview_all ascii_ilike ascii_upper one_below None None) /\
    InventoryQueryRead.product_id e = 1 /\
    InventoryQueryRead.total_quantity e = 9 /\
    InventoryQueryRead.locations e
    = [LocationQuantity.mk "A1" 5; LocationQuantity.mk "B2" 4].
Proof.
  apply (low_stock_alert_agrees_with_overview ascii_ilike ascii_upper one_below
           (LowStockAlert.mk 1 "Widget" "WID-1" 9 10
              [LocationQuantity.mk "A1" 5; LocationQuantity.mk "B2" 4])).
  - unfold product_keys. simpl. repeat constructor. intros [].
  - simpl. now left.
Defined.

(** * Deleting a product *)

(** ** Sums after a filter *)

Lemma moved_at_filter_kept (ty : MovementType) (rid : Z) (f : Movement.t -> bool)
    (ms : list Movement.t) :
  (forall m, In m ms -> linked_to rid m = true -> f m = true) ->
  moved_at ty rid (filter f ms) = moved_at ty rid ms.
Proof.
  induction ms as [|m ms IH]; simpl; intros H; auto.
  assert (IH' : moved_at ty rid (filter f ms) = moved_at ty rid ms)
    by (apply IH; intros x Hx; apply H; now right).
  destruct (f m) eqn:Fm; simpl.
  - now rewrite IH'.
  - destruct (linked_to rid m) eqn:L; simpl; auto.
    rewrite (H m (or_introl eq_refl) L) in Fm. discriminate.
Qed.

Lemma moved_filter_kept (ty : MovementType) (pid : Z) (f : Movement.t -> bool)
    (ms : list Movement.t) :
  (forall m, In m ms -> Movement.product_id m = pid -> f m = true) ->
  moved ty pid (filter f ms) = moved ty pid ms.
Proof.
  induction ms as [|m ms IH]; simpl; intros H; auto.
  assert (IH' : moved ty pid (filter f ms) = moved ty pid ms)
    by (apply IH; intros x Hx; apply H; now right).
  destruct (f m) eqn:Fm; simpl.
  - now rewrite IH'.
  - destruct (Z.eqb_spec (Movement.product_id m) pid) as [E|E]; simpl; auto.
    rewrite (H m (or_introl eq_refl) E) in Fm. discriminate.
Qed.

Lemma moved_filter_none (ty : MovementType) (pid : Z) (f : Movement.t -> bool)
    (ms : list Movement.t) :
  (forall m, In m ms -> Movement.product_id m = pid -> f m = false) ->
  moved ty pid (filter f ms) = 0.
Proof.
  induction ms as [|m ms IH]; simpl; intros H; auto.
  assert (IH' : moved ty pid (filter f ms) = 0)
    by (apply IH; intros x Hx; apply H; now right).
  destruct (f m) eqn:Fm; simpl; auto.
  destruct (Z.eqb_spec (Movement.product_id m) pid) as [E|E]; simpl; auto.
  rewrite (H m (or_introl eq_refl) E) in Fm. discriminate.
Qed.

Lemma item_keys_filter (db : Store) (f : WarehouseItem.t -> bool)
    (ps : list Product.t) (ms : list Movement.t) :
  item_keys db ->
  item_keys (mkStore ps (filter f (warehouse_items db)) ms
                     (next_item_id db) (next_movement_id db)).
Proof.
  intros [ND F]. split.
  - unfold item_ids. simpl. now apply NoDup_ids_filter.
  - simpl. apply Forall_forall. intros x Hx. apply filter_In in Hx.
    rewrite Forall_forall in F. now apply F.
Qed.

Lemma linked_to_true (rid : Z) (m : Movement.t) :
  linked_to rid m = true <-> Movement.warehouse_item_id m = Some rid.
Proof.
  unfold linked_to. destruct (Movement.warehouse_item_id m) as [i|].
  - rewrite Z.eqb_eq. split; congruence.
  - split; discriminate.
Qed.

(** The movements linked to a record carry the record's product. *)
Lemma linked_product (db : Store) (r : WarehouseItem.t) (m : Movement.t) :
  item_keys db -> linked db -> In r (warehouse_items db) -> In m (movements db) ->
  linked_to (WarehouseItem.id r) m = true ->
  Movement.product_id m = WarehouseItem.product_id r.
Proof.
  intros [ND _] L Hr Hm Hl. destruct (L m Hm) as (r' & Hr' & Hi & Hp).
  apply linked_to_true in Hl. rewrite Hl in Hi. inversion Hi as [Ei].
  assert (r = r') by (eapply same_id_same_row; eauto). now subst r'.
Qed.

Lemma sound_two_shelves : ledger_sound two_shelves.
Proof.
  rewrite <- two_shelves_by_stock_in.
  apply perform_all_keeps_sound. now apply fresh_ledger_sound.
Qed.

Lemma conserved_two_shelves : conserved two_shelves.
Proof.
  rewrite <- two_shelves_by_stock_in.
  apply perform_all_keeps_ledger. now apply fresh_ledger_ok.
Qed.

(** ** [delete_product] *)

Lemma overview_entry_resolves (ilike : string -> string -> bool)
    (upper : string -> string) (db : Store) (product_name sku : option string)
    (e : InventoryQueryRead.t) :
  In e (overview_all ilike upper db product_name sku) ->
  resolves db (InventoryQueryRead.product_id e).
Proof.
  intros Hin. apply overview_all_in in Hin. destruct Hin as (_ & Hne & _).
  destruct (group_of (InventoryQueryRead.product_id e)
                     (overview_results ilike upper db product_name sku))
    as [|[it p] g] eqn:G; [congruence|].
  assert (Hrow : In (it, p)
                    (group_of (InventoryQueryRead.product_id e)
                              (overview_results ilike upper db product_name sku)))
    by (rewrite G; now left).
  apply group_of_in in Hrow. destruct Hrow as [Hres Ek]. simpl in Ek.
  unfold overview_results in Hres.
  apply filter_In in Hres. destruct Hres as [Hres _].
  apply filter_In in Hres. destruct Hres as [Hj _].
  apply join_rows_in in Hj. destruct Hj as (_ & Hp & _).
  exists p. auto.
Qed.

Lemma alert_resolves (db : Store) (a : LowStockAlert.t) :
  In a (get_low_stock_alerts db) -> resolves db (LowStockAlert.product_id a).
Proof.
  unfold get_low_stock_alerts. intros Ha. apply in_map_iff in Ha.
  destruct Ha as (row & <- & Hrow). apply low_stock_products_in in Hrow.
  destruct Hrow as (it & p & g & G & _ & ->). simpl.
  assert (Hin : In (it, p) (group_of (Product.id p) (join_rows db)))
    by (rewrite G; now left).
  apply group_of_in in Hin. destruct Hin as [Hj _].
  apply join_rows_in in Hj. destruct Hj as (_ & Hp & _).
  exists p. auto.
Qed.

Lemma stock_of_filter_other (pid pk : Z) (rows : list WarehouseItem.t) :
  pid <> pk ->
  stock_of pid (filter (fun it => negb (WarehouseItem.product_id it =? pk)) rows)
  = stock_of pid rows.
Proof.
  intros Hne. induction rows as [|x rows IH]; simpl; auto.
  destruct (Z.eqb_spec (WarehouseItem.product_id x) pk) as [E|E]; simpl.
  - rewrite IH, stock_of_cons.
    destruct (Z.eqb_spec (WarehouseItem.product_id x) pid); [congruence|lia].
  - now rewrite !stock_of_cons, IH.
Qed.

Lemma stock_of_filter_same (pk : Z) (rows : list WarehouseItem.t) :
  stock_of pk (filter (fun it => negb (WarehouseItem.product_id it =? pk)) rows) = 0.
Proof.
  induction rows as [|x rows IH]; simpl; auto.
  destruct (Z.eqb_spec (WarehouseItem.product_id x) pk) as [E|E]; simpl; auto.
  rewrite stock_of_cons, IH.
  destruct (Z.eqb_spec (WarehouseItem.product_id x) pk); [contradiction|lia].
Qed.

(** On a sound ledger the movements the cascade removes are the movements of
    the product. *)
Lemma cascade_removes_product_movements (db : Store) (pk : Z) (m : Movement.t) :
  item_keys db -> linked db -> In m (movements db) ->
  negb ((Movement.product_id m =? pk)
        || linked_to_any
             (map WarehouseItem.id
                  (filter (fun it => WarehouseItem.product_id it =? pk)
                          (warehouse_items db))) m)
  = negb (Movement.product_id m =? pk).
Proof.
  intros K L Hm. f_equal.
  destruct (Z.eqb_spec (Movement.product_id m) pk) as [E|E]; auto. simpl.
  destruct (linked_to_any _ m) eqn:A; auto. exfalso.
  unfold linked_to_any in A. apply existsb_exists in A. destruct A as (rid & Hrid & Hl).
  apply in_map_iff in Hrid. destruct Hrid as (r & <- & Hr).
  apply filter_In in Hr. destruct Hr as [Hr Hp]. apply Z.eqb_eq in Hp.
  pose proof (linked_product db r m K L Hr Hm Hl). congruence.
Qed.

(** X19. Deleting a product id that does not resolve raises
    [ProductNotFoundException] and leaves the store alone.  On a sound ledger,
    deleting a product that exists removes the product, exactly its stock
    records and exactly its movements; the product no longer resolves and has
    no overview entry and no low-stock alert; and what remains is a sound and
    balanced ledger. *)
Theorem delete_product_cascades (db : Store) (pk : Z) :
  ledger_sound db ->
  conserved db ->
  (~ resolves db pk ->
   delete_product pk db
   = (Raised (ProductNotFoundException product_not_found_default), db)) /\
  (resolves db pk ->
   exists db',
     delete_product pk db = (Returned tt, db') /\
     (forall p, In p (products db') <-> In p (products db) /\ Product.id p <> pk) /\
     (forall x, In x (warehouse_items db') <->
                In x (warehouse_items db) /\ WarehouseItem.product_id x <> pk) /\
     (forall m, In m (movements db') <->
                In m (movements db) /\ Movement.product_id m <> pk) /\
     ~ resolves db' pk /\
     (forall a, In a (get_low_stock_alerts db') -> LowStockAlert.product_id a <> pk) /\
     (forall ilike upper product_name sku e,
         In e (overview_all ilike upper db' product_name sku) ->
         InventoryQueryRead.product_id e <> pk) /\
     ledger_sound db' /\ conserved db').
Proof.
  intros (K & L & R) C. split.
  - intros Hp. apply find_product_none in Hp.
    unfold delete_product, begin, bind, get_product. now rewrite Hp.
  - intros Hp. destruct (find_product_some _ _ Hp) as [p Fp].
    pose proof (find_some _ _ Fp) as [_ Ep]. apply Z.eqb_eq in Ep.
    unfold delete_product, begin, bind, get_product, delete_product_row.
    rewrite Fp, Ep.
    rewrite (filter_ext_in _ (fun m => negb (Movement.product_id m =? pk)))
      by (intros m Hm; now apply cascade_removes_product_movements).
    eexists. split; [reflexivity|].
    cbn [products warehouse_items movements].
    assert (Hps : forall q,
               In q (filter (fun p0 => negb (Product.id p0 =? pk)) (products db)) <->
               In q (products db) /\ Product.id q <> pk).
    { intros q. now rewrite filter_In, negb_true_iff, Z.eqb_neq. }
    assert (Hrows : forall x,
               In x (filter (fun it => negb (WarehouseItem.product_id it =? pk))
                            (warehouse_items db)) <->
               In x (warehouse_items db) /\ WarehouseItem.product_id x <> pk).
    { intros x. now rewrite filter_In, negb_true_iff, Z.eqb_neq. }
    assert (Hms : forall m,
               In m (filter (fun m0 => negb (Movement.product_id m0 =? pk))
                            (movements db)) <->
               In m (movements db) /\ Movement.product_id m <> pk).
    { intros m. now rewrite filter_In, negb_true_iff, Z.eqb_neq. }
    assert (Hgone : ~ resolves
                      (mkStore (filter (fun p0 => negb (Product.id p0 =? pk))
                                       (products db))
                         (filter (fun it => negb (WarehouseItem.product_id it =? pk))
                                 (warehouse_items db))
                         (filter (fun m0 => negb (Movement.product_id m0 =? pk))
                                 (movements db))
                         (next_item_id db) (next_movement_id db)) pk).
    { intros (q & Hq & Eq). simpl in Hq. apply Hps in Hq. tauto. }
    split; [exact Hps|]. split; [exact Hrows|]. split; [exact Hms|].
    split; [exact Hgone|].
    split; [intros a Ha E; apply alert_resolves in Ha; rewrite E in Ha; tauto|].
    split; [intros ilike upper product_name sku e He E;
            apply overview_entry_resolves in He; rewrite E in He; tauto|].
    split; [split; [|split]|].
    + now apply item_keys_filter.
    + intros m Hm. cbn [movements warehouse_items] in *.
      apply Hms in Hm. destruct Hm as [Hm Hne].
      destruct (L m Hm) as (x & Hx & Hi & Hpx). exists x.
      repeat split; auto. apply Hrows. split; auto. congruence.
    + intros x Hx. cbn [movements warehouse_items] in *.
      apply Hrows in Hx. destruct Hx as [Hx Hne].
      rewrite !moved_at_filter_kept; [now apply R| |];
        intros m Hm Hl; apply negb_true_iff, Z.eqb_neq;
        rewrite (linked_product db x m K L Hx Hm Hl); exact Hne.
    + intros pid. cbn [movements warehouse_items].
      destruct (Z.eq_dec pid pk) as [->|Hne].
      * rewrite !moved_filter_none, stock_of_filter_same; auto;
          intros m _ E; apply negb_false_iff, Z.eqb_eq; exact E.
      * rewrite !moved_filter_kept, stock_of_filter_other; auto;
          intros m _ E; apply negb_true_iff, Z.eqb_neq; congruence.
Qed.

Lemma delete_product_example :
  exists db',
    delete_product 1 two_shelves = (Returned tt, db') /\
    warehouse_items db' = [] /\ movements db' = [] /\ ~ resolves db' 1.
Proof.
  destruct (delete_product_cascades two_shelves 1 sound_two_shelves
              conserved_two_shelves) as [_ H].
  destruct H as (db' & E & _ & _ & _ & Hgone & _).
  - apply resolves_widget. simpl. now left.
  - exists db'. split; [exact E|].
    assert (Edb : db' = snd (delete_product 1 two_shelves)) by (now rewrite E).
    split; [rewrite Edb; reflexivity|].
    split; [rewrite Edb; reflexivity|exact Hgone].
Defined.

